(** * GoldScalperBot (gold_tick5t.py): a shallow embedding and its properties

    The strategy engine of the repository is the class [GoldScalperBot] of
    [gold_tick5t.py].  Prices, volumes and indicator values are Python
    floats there; here they are exact rationals ([Q]), with the special
    values the code handles explicitly (NaN, infinities, [None]) written
    out where a function depends on them, and with the rounding to
    binary64 written out where it decides the result (the floor
    division of the partial close).  Venue calls (MetaTrader 5) are
    inputs of the functions that make them, and the requests a function
    sends are its output. *)

From Stdlib Require Import ZArith QArith Qround Qabs Qpower Lqa Lia Bool List Sorted String.
From stdpp Require Import base option gmap strings sorting.
Import ListNotations.

Local Open Scope Z_scope.
Local Open Scope Q_scope.

(** ** Float comparisons and helpers, over [Q] *)

Module Num.

Definition Qltb (x y : Q) : bool := negb (Qle_bool y x).
Definition Qgtb (x y : Q) : bool := Qltb y x.
Definition Qgeb (x y : Q) : bool := Qle_bool y x.

(** Python's [max(a, b)] returns [b] only when [b > a]; [min(a, b)]
    returns [b] only when [b < a]. *)
Definition pymax (a b : Q) : Q := if Qltb a b then b else a.
Definition pymin (a b : Q) : Q := if Qltb b a then b else a.

(** Floor division [a // b] in exact arithmetic. *)
Definition floordiv (a b : Q) : Q := inject_Z (Qfloor (a / b)).

(** *** Binary floating point

    Where the binary representation of the operands decides the result,
    the operation is carried out on the binary64 numbers the operands
    are stored as. *)

(** The integer [e] with [2^e <= q < 2^(e+1)], for a positive [q]. *)
Definition ilog2 (q : Q) : Z :=
  let e := (Z.log2 (Qnum q) - Z.log2 (Zpos (Qden q)))%Z in
  if Qle_bool (2 ^ e) q then e else (e - 1)%Z.

(** The nearest integer, the even one of two that are equally near. *)
Definition round_half_even (q : Q) : Z :=
  let f := Qfloor q in
  let r := q - inject_Z f in
  if Qltb r (1 # 2) then f
  else if Qltb (1 # 2) r then (f + 1)%Z
  else if Z.even f then f else (f + 1)%Z.

(** The binary64 number nearest to [q]: 53 significant bits, ties to
    even.  The exponent is not bounded here; the values of the program
    are far inside the range of binary64. *)
Definition double (q : Q) : Q :=
  if Qeq_bool q 0 then 0
  else
    let a := Qabs q in
    let ulp := 2 ^ (ilog2 a - 52) in
    let nearest := inject_Z (round_half_even (a / ulp)) * ulp in
    if Qltb q 0 then - nearest else nearest.

(** Python's [a // b] on floats: the remainder is taken exactly and the
    quotient snapped to the integer, which is the floor of the quotient
    of the two binary64 numbers (for a quotient that a binary64 number
    holds exactly, below [2^53]).  [0.5 // 0.01] is 49: the binary64
    number for 0.01 is a little more than 0.01. *)
Definition float_floordiv (a b : Q) : Q :=
  inject_Z (Qfloor (double a / double b)).

End Num.
Import Num.

(** ** Class configuration

    The class constants of [GoldScalperBot] that no method reassigns. *)

Module Const.

Definition RSI_PERIOD : nat := 14.
Definition K_PERIOD : nat := 14.
Definition D_PERIOD : nat := 3.
Definition STOCHASTIC_OVERBOUGHT : Q := 75.
Definition STOCHASTIC_OVERSOLD : Q := 25.
Definition AGGRESSIVE_SL_PERCENT_TRIGGER : Q := 20 # 100.
Definition AGGRESSIVE_SL_FIXED_BUFFER_FOR_TRIGGER : Q := 5.
Definition AGGRESSIVE_SL_MIN_DISTANCE_FROM_CURRENT : Q := 5.
Definition SR_LOOKBACK_BARS : nat := 30.
Definition SR_BREACH_BUFFER_POINTS : Q := 3.
Definition MAX_ADVERSE_EXCURSION_CLOSE_POINTS : Q := 200.
Definition ATR_PERIOD : nat := 14.
Definition TRADE_ENTRY_COOLDOWN_SECONDS : Q := 10.
Definition DYNAMIC_TP_ATR_MULTIPLIER : Q := 2.
Definition MIN_DYNAMIC_TP_POINTS : Q := 50.
Definition MAX_DYNAMIC_TP_POINTS : Q := 1000.
Definition PARTIAL_PROFIT_TRIGGER_POINTS : Q := 150.
Definition PARTIAL_PROFIT_PERCENTAGE : Q := 50 # 100.
Definition MA_SLOPE_LOOKBACK_BARS : nat := 2.
Definition BREAK_EVEN_BUFFER_POINTS : Q := 22.
Definition TICK_BAR_INTERVAL_SECONDS : Z := 5.
Definition REVERSAL_CONFIRMATION_BARS : Z := 1.
Definition COOLDOWN_LOSS_THRESHOLD_USD : Q := 1 # 100.
Definition COOLDOWN_POINTS_THRESHOLD : Q := 5.

(** [max(RSI_PERIOD, ATR_PERIOD, SR_LOOKBACK_BARS, K_PERIOD + D_PERIOD)] *)
Definition longest_lookback : nat :=
  Nat.max (Nat.max (Nat.max RSI_PERIOD ATR_PERIOD) SR_LOOKBACK_BARS)
          (K_PERIOD + D_PERIOD).

(** [bars_needed] of the main loop (and [HISTORY_BARS_NEEDED]). *)
Definition bars_needed : nat :=
  (longest_lookback * 2 + 5 + MA_SLOPE_LOOKBACK_BARS)%nat.

End Const.

(** ** Tick bars: [get_custom_bars_from_ticks] and the bar window of the loop *)

Module Bars.

(** A row of [mt5.copy_ticks_from]: the columns the bot reads. *)
Record Tick : Type := mkTick {
  time_msc : Z;
  bid : Q;
  ask : Q;
  volume_real : Q
}.

(** A row of the bar frame.  [time] is the index (nanoseconds, as
    [astype('int64')] gives it).  The indicator columns ['rsi'], ['%k']
    and ['%d'] are added to [all_custom_bars] by the loop; a freshly built
    bar has none of them (NaN after [pd.concat]). *)
Record Bar : Type := mkBar {
  time : Z;
  open : Q;
  high : Q;
  low : Q;
  close : Q;
  real_volume : Q;
  rsi : option Q;
  pct_k : option Q;
  pct_d : option Q
}.

Definition bid_ask_avg (t : Tick) : Q := (bid t + ask t) / 2.

(** [(time.astype('int64') // (interval_seconds * 10**9)) * (interval_seconds * 10**9)] *)
Definition bar_time (interval_seconds : Z) (t : Tick) : Z :=
  let ns := (time_msc t * 10 ^ 6)%Z in
  (ns / (interval_seconds * 10 ^ 9) * (interval_seconds * 10 ^ 9))%Z.

Definition first_row (bt : Z) (t : Tick) : Bar :=
  let m := bid_ask_avg t in
  mkBar bt m m m m (volume_real t) None None None.

(** One more row of a group: ['first'] keeps the open, ['max'] and ['min']
    compare, ['last'] takes the new mid price, the volume is summed. *)
Definition next_row (b : Bar) (t : Tick) : Bar :=
  let m := bid_ask_avg t in
  mkBar (time b) (open b) (pymax (high b) m) (pymin (low b) m) m
        (real_volume b + volume_real t) None None None.

(** [groupby('bar_time').agg(...)]: groups are keyed by [bar_time], come
    out in increasing key order, and rows keep their order inside a
    group.  [agg_tick] adds one tick to the groups built so far. *)
Fixpoint agg_tick (bt : Z) (t : Tick) (groups : list Bar) : list Bar :=
  match groups with
  | [] => [first_row bt t]
  | b :: rest =>
      if (bt <? time b)%Z then first_row bt t :: b :: rest
      else if (bt =? time b)%Z then next_row b t :: rest
      else b :: agg_tick bt t rest
  end.

Definition get_custom_bars_from_ticks (interval_seconds : Z)
    (ticks : list Tick) : list Bar :=
  fold_left (fun groups t => agg_tick (bar_time interval_seconds t) t groups)
            ticks [].

(** *** The bar window kept by [run_scalping_bot] *)

Record Window : Type := mkWindow {
  all_custom_bars : list Bar;
  (** [None] stands for [datetime.min], the value before any bar. *)
  last_processed_bar_time : option Z
}.

Definition initial_window : Window := mkWindow [] None.

Definition after (last : option Z) (b : Bar) : bool :=
  match last with
  | None => true
  | Some ts => (ts <? time b)%Z
  end.

Definition opt_eqb (x y : option Q) : bool :=
  match x, y with
  | None, None => true
  | Some a, Some b => Qeq_bool a b
  | _, _ => false
  end.

(** Row equality of [DataFrame.drop_duplicates]: every column, not the
    index; two missing values count as equal. *)
Definition same_row (a b : Bar) : bool :=
  Qeq_bool (open a) (open b) && Qeq_bool (high a) (high b) &&
  Qeq_bool (low a) (low b) && Qeq_bool (close a) (close b) &&
  Qeq_bool (real_volume a) (real_volume b) &&
  opt_eqb (rsi a) (rsi b) && opt_eqb (pct_k a) (pct_k b) &&
  opt_eqb (pct_d a) (pct_d b).

(** [drop_duplicates()] keeps the first of equal rows. *)
Fixpoint drop_from (seen : list Bar) (rows : list Bar) : list Bar :=
  match rows with
  | [] => []
  | b :: rest =>
      if existsb (same_row b) seen then drop_from seen rest
      else b :: drop_from (b :: seen) rest
  end.

Definition drop_duplicates (rows : list Bar) : list Bar := drop_from [] rows.

(** [sort_index()]: a stable sort on the index. *)
Fixpoint insert_row (b : Bar) (rows : list Bar) : list Bar :=
  match rows with
  | [] => [b]
  | c :: rest =>
      if (time b <=? time c)%Z then b :: c :: rest
      else c :: insert_row b rest
  end.

Definition sort_index (rows : list Bar) : list Bar :=
  fold_right insert_row [] rows.

(** [index.max()] *)
Definition index_max (rows : list Bar) : option Z :=
  match rows with
  | [] => None
  | b :: rest => Some (fold_left (fun m c => Z.max m (time c)) rest (time b))
  end.

(** [iloc[-n:]] *)
Definition iloc_last (n : nat) (rows : list Bar) : list Bar :=
  skipn (length rows - n) rows.

(** The block of the loop that merges the bars of one tick fetch into
    [all_custom_bars] (the body of [if not new_bars.empty:]). *)
Definition merge_new_bars (w : Window) (new_bars : list Bar) : Window :=
  match new_bars with
  | [] => w
  | _ :: _ =>
      match List.filter (after (last_processed_bar_time w)) new_bars with
      | [] => w
      | (_ :: _) as fresh =>
          let merged :=
            sort_index (drop_duplicates (all_custom_bars w ++ fresh)) in
          let last := index_max merged in
          let kept :=
            if (Const.bars_needed <? length merged)%nat
            then iloc_last Const.bars_needed merged else merged in
          mkWindow kept last
      end
  end.

(** The fetch of one pass, built into bars and merged. *)
Definition ingest (w : Window) (ticks : list Tick) : Window :=
  merge_new_bars w
    (get_custom_bars_from_ticks Const.TICK_BAR_INTERVAL_SECONDS ticks).

(** [self.all_custom_bars['rsi'] = ...], ['%k'], ['%d']: the loop writes
    the three indicator columns, row by row; nothing else of a row
    changes. *)
Definition Columns : Type := (option Q * option Q * option Q)%type.

Definition with_columns (b : Bar) (c : Columns) : Bar :=
  let '(r, k, d) := c in
  mkBar (time b) (open b) (high b) (low b) (close b) (real_volume b) r k d.

Fixpoint assign_columns (rows : list Bar) (cols : list Columns) : list Bar :=
  match rows, cols with
  | b :: rows', c :: cols' => with_columns b c :: assign_columns rows' cols'
  | _, _ => rows
  end.

(** What one pass of the loop does to the window: the ticks it fetched
    are merged, and, when the pass gets as far as the indicators, the
    columns they return are written. *)
Record Pass : Type := mkPass {
  fetched : list Tick;
  computed : option (list Columns)
}.

Definition pass (w : Window) (p : Pass) : Window :=
  let w' := ingest w (fetched p) in
  match computed p with
  | None => w'
  | Some cols =>
      mkWindow (assign_columns (all_custom_bars w') cols)
               (last_processed_bar_time w')
  end.

Definition run_passes (w : Window) (ps : list Pass) : Window :=
  fold_left pass ps w.

(** *** Properties of a bar frame *)

Definition earlier (a b : Bar) : Prop := (time a < time b)%Z.

Definition increasing (rows : list Bar) : Prop := StronglySorted earlier rows.

Definition ohlc_ok (b : Bar) : Prop :=
  low b <= open b /\ open b <= high b /\
  low b <= close b /\ close b <= high b.

(** The window is in order, every bar is well formed, and no bar is
    later than [last_processed_bar_time]. *)
Record window_ok (w : Window) : Prop := mkWindowOk {
  ok_increasing : increasing (all_custom_bars w);
  ok_ohlc : Forall ohlc_ok (all_custom_bars w);
  ok_last :
    match last_processed_bar_time w with
    | None => all_custom_bars w = []
    | Some ts => Forall (fun b => (time b <= ts)%Z) (all_custom_bars w)
    end
}.

End Bars.

(** ** Indicators: [calculate_rsi], [calculate_atr] *)

Module Indicators.

(** The float values a pandas series can hold in these computations.
    Signed zeros are not told apart: the code never observes the sign
    ([100 / (1 + rs)] is [0.0] or [-0.0] for an infinite [rs], and
    [100 - 0.0 = 100 - (-0.0) = 100]). *)
Inductive fval : Type :=
  | Fin (q : Q)
  | PosInf
  | NegInf
  | NaN.

Definition fneg (x : fval) : fval :=
  match x with
  | Fin q => Fin (- q)
  | PosInf => NegInf
  | NegInf => PosInf
  | NaN => NaN
  end.

Definition fadd (x y : fval) : fval :=
  match x, y with
  | NaN, _ | _, NaN => NaN
  | Fin a, Fin b => Fin (a + b)
  | PosInf, NegInf | NegInf, PosInf => NaN
  | PosInf, _ | _, PosInf => PosInf
  | NegInf, _ | _, NegInf => NegInf
  end.

Definition fsub (x y : fval) : fval := fadd x (fneg y).

(** Series division: a zero divisor gives an infinity of the dividend's
    sign, [0 / 0] gives NaN. *)
Definition fdiv (x y : fval) : fval :=
  match x, y with
  | NaN, _ | _, NaN => NaN
  | Fin a, Fin b =>
      if Qeq_bool b 0 then
        if Qeq_bool a 0 then NaN
        else if Qltb 0 a then PosInf else NegInf
      else Fin (a / b)
  | Fin _, PosInf | Fin _, NegInf => Fin 0
  | PosInf, Fin b => if Qltb b 0 then NegInf else PosInf
  | NegInf, Fin b => if Qltb b 0 then PosInf else NegInf
  | _, _ => NaN
  end.

(** [Series.diff()]: the first entry is NaN. *)
Fixpoint diff_from (prev : Q) (xs : list Q) : list fval :=
  match xs with
  | [] => []
  | x :: rest => Fin (x - prev) :: diff_from x rest
  end.

Definition diff (xs : list Q) : list fval :=
  match xs with
  | [] => []
  | x :: rest => NaN :: diff_from x rest
  end.

(** [delta.where(delta > 0, 0)]: NaN fails the test and becomes 0, so the
    [fillna(0)] that follows changes nothing. *)
Definition gain_of (d : fval) : Q :=
  match d with
  | Fin q => if Qltb 0 q then q else 0
  | _ => 0
  end.

(** [-delta.where(delta < 0, 0)] *)
Definition loss_of (d : fval) : Q :=
  match d with
  | Fin q => if Qltb q 0 then - q else 0
  | _ => 0
  end.

(** [ewm(com, adjust=False).mean()] on a series without NaN:
    [y0 = x0], [y(t) = (1 - a) * y(t-1) + a * x(t)], [a = 1 / (1 + com)]. *)
Fixpoint ewm_from (alpha prev : Q) (xs : list Q) : list Q :=
  match xs with
  | [] => []
  | x :: rest =>
      let y := (1 - alpha) * prev + alpha * x in
      y :: ewm_from alpha y rest
  end.

Definition ewm_raw (alpha : Q) (xs : list Q) : list Q :=
  match xs with
  | [] => []
  | x :: rest => x :: ewm_from alpha x rest
  end.

(** [min_periods]: entries with fewer observations are NaN. *)
Fixpoint mask_from (i min_periods : nat) (ys : list Q) : list fval :=
  match ys with
  | [] => []
  | y :: rest =>
      (if (S i <? min_periods)%nat then NaN else Fin y)
        :: mask_from (S i) min_periods rest
  end.

(** [series.ewm(com=period - 1, min_periods=period, adjust=False).mean()] *)
Definition wilder (period : nat) (xs : list Q) : list fval :=
  mask_from 0 period (ewm_raw (1 / inject_Z (Z.of_nat period)) xs).

Definition avg_gain (closes : list Q) (period : nat) : list fval :=
  wilder period (map gain_of (diff closes)).

Definition avg_loss (closes : list Q) (period : nat) : list fval :=
  wilder period (map loss_of (diff closes)).

(** One entry of the RSI series:
    [rs = avg_gain / avg_loss], [100 - 100 / (1 + rs)], then
    [replace(inf, 100)], [replace(-inf, 0)], [fillna(0)], [clip(0, 100)]. *)
Definition rsi_entry (g l : fval) : Q :=
  let rs := fdiv g l in
  let raw := fsub (Fin 100) (fdiv (Fin 100) (fadd (Fin 1) rs)) in
  let replaced :=
    match raw with
    | PosInf => Fin 100
    | NegInf => Fin 0
    | other => other
    end in
  let filled := match replaced with Fin q => q | _ => 0 end in
  pymin (pymax filled 0) 100.

Fixpoint zip_with {A B C : Type} (f : A -> B -> C)
    (xs : list A) (ys : list B) : list C :=
  match xs, ys with
  | x :: xs', y :: ys' => f x y :: zip_with f xs' ys'
  | _, _ => []
  end.

(** [calculate_rsi(data, period)], on the ['close'] column. *)
Definition calculate_rsi (closes : list Q) (period : nat) : option (list Q) :=
  if (length closes <? period + 1)%nat then None
  else Some (zip_with rsi_entry (avg_gain closes period)
                                (avg_loss closes period)).

(** [calculate_atr(data, period)].  The true range of the first bar is
    its high minus its low: the two columns that need the previous close
    are NaN there and the row maximum skips them. *)
Definition true_range_row (prev_close : option Q) (b : Bars.Bar) : Q :=
  let hl := Bars.high b - Bars.low b in
  match prev_close with
  | None => hl
  | Some pc =>
      pymax (pymax hl (Qabs (Bars.high b - pc))) (Qabs (Bars.low b - pc))
  end.

Fixpoint true_range_from (prev_close : option Q) (bars : list Bars.Bar)
    : list Q :=
  match bars with
  | [] => []
  | b :: rest =>
      true_range_row prev_close b
        :: true_range_from (Some (Bars.close b)) rest
  end.

Definition calculate_atr (bars : list Bars.Bar) (period : nat)
    : option (list fval) :=
  if (length bars <? period)%nat then None
  else Some (wilder period (true_range_from None bars)).

(** [atr_series.iloc[-1]], [None] when missing or NaN. *)
Definition current_atr_of (bars : list Bars.Bar) (period : nat) : option Q :=
  match calculate_atr bars period with
  | None => None
  | Some series =>
      match List.last series NaN with
      | Fin q => Some q
      | _ => None
      end
  end.

(** A series entry that is not a negative number. *)
Definition nonneg (v : fval) : Prop :=
  match v with
  | Fin q => 0 <= q
  | _ => True
  end.

End Indicators.

(** ** Settings read from [goldtick5_config.json], and the venue's symbol *)

Inductive OrderType : Type := ORDER_TYPE_BUY | ORDER_TYPE_SELL.

(** The attributes [load_config_from_file] may replace; they start at the
    class values. *)
Record Settings : Type := mkSettings {
  MAX_SPREAD_POINTS : Q;
  RSI_OVERSOLD : Q;
  RSI_OVERBOUGHT : Q;
  RISK_PERCENT_PER_TRADE : Q;
  SL_POINTS : Q;
  TP_POINTS : Q;
  MAX_HOLD_TIME_SECONDS : Q;
  NUM_CONCURRENT_TRADES : Q;
  BREAK_EVEN_PROFIT_POINTS : Q;
  ATR_MULTIPLIER : Q;
  COOLDOWN_AFTER_TRADE_SECONDS : Q
}.

Definition class_settings : Settings :=
  {| MAX_SPREAD_POINTS := 35;
     RSI_OVERSOLD := 35;
     RSI_OVERBOUGHT := 65;
     RISK_PERCENT_PER_TRADE := 3 # 100;
     SL_POINTS := 150;
     TP_POINTS := 500;
     MAX_HOLD_TIME_SECONDS := 120;
     NUM_CONCURRENT_TRADES := 50;
     BREAK_EVEN_PROFIT_POINTS := 75;
     ATR_MULTIPLIER := 1;
     COOLDOWN_AFTER_TRADE_SECONDS := 60 |}.

(** [mt5.symbol_info(SYMBOL)], with the values the loop copies from it
    ([point_value], [trade_stop_level_points]). *)
Record SymbolInfo : Type := mkSymbolInfo {
  point_value : Q;
  trade_stop_level_points : Q;
  trade_contract_size : Q;
  volume_min : Q;
  volume_max : Q;
  volume_step : Q
}.

Module Config.

(** The parsed JSON object: a dictionary from keys to numbers. *)
Definition get (config : gmap string Q) (key : string) (default : Q) : Q :=
  match config !! key with
  | Some v => v
  | None => default
  end.

(** What is on disk: no file, a file that does not parse to an object
    (the [except] branch), or an object. *)
Inductive ConfigFile : Type :=
  | Missing
  | Unreadable
  | Object (config : gmap string Q).

(** [load_config_from_file]: the new attributes and the returned flag. *)
Definition load_config_from_file (s : Settings) (f : ConfigFile)
    : Settings * bool :=
  match f with
  | Missing => (s, false)
  | Unreadable => (s, false)
  | Object config =>
      ({| MAX_SPREAD_POINTS :=
            get config "MAX_SPREAD_POINTS" (MAX_SPREAD_POINTS s);
          RSI_OVERSOLD := get config "RSI_OVERSOLD" (RSI_OVERSOLD s);
          RSI_OVERBOUGHT := get config "RSI_OVERBOUGHT" (RSI_OVERBOUGHT s);
          RISK_PERCENT_PER_TRADE :=
            get config "RISK_PERCENT_PER_TRADE" (RISK_PERCENT_PER_TRADE s);
          SL_POINTS := get config "SL_POINTS" (SL_POINTS s);
          TP_POINTS := get config "TP_POINTS" (TP_POINTS s);
          MAX_HOLD_TIME_SECONDS :=
            get config "MAX_HOLD_TIME_SECONDS" (MAX_HOLD_TIME_SECONDS s);
          NUM_CONCURRENT_TRADES :=
            get config "NUM_CONCURRENT_TRADES" (NUM_CONCURRENT_TRADES s);
          BREAK_EVEN_PROFIT_POINTS :=
            get config "BREAK_EVEN_PROFIT_POINTS" (BREAK_EVEN_PROFIT_POINTS s);
          ATR_MULTIPLIER := get config "ATR_MULTIPLIER" (ATR_MULTIPLIER s);
          COOLDOWN_AFTER_TRADE_SECONDS :=
            get config "COOLDOWN_AFTER_TRADE_SECONDS"
                (COOLDOWN_AFTER_TRADE_SECONDS s) |}, true)
  end.

(** The loop reloads the file once 30 seconds have passed since the last
    check. *)
Definition reload_if_due (s : Settings) (last_config_check_time now : Q)
    (f : ConfigFile) : Settings * Q :=
  if Qgeb (now - last_config_check_time) 30
  then (fst (load_config_from_file s f), now)
  else (s, last_config_check_time).

(** [ULTRA_bot.py], [load_configuration]: the other bot of the repository
    reads the same four keys through caps. *)
Module Ultra.

Record UltraSettings : Type := mkUltra {
  U_RISK_PERCENT_PER_TRADE : Q;
  U_MAX_SPREAD_POINTS : Q;
  U_RSI_OVERSOLD : Q;
  U_RSI_OVERBOUGHT : Q
}.

Definition ultra_defaults : UltraSettings := mkUltra (1 # 100) 30 30 70.

(** Python's [min(x, cap)] and [max(x, floor)], first argument first.
    This is the loader on files whose values are finite numbers;
    [load_values] below is the loader on any parsed JSON. *)
Definition load_configuration (s : UltraSettings) (f : ConfigFile)
    : UltraSettings :=
  match f with
  | Missing | Unreadable => s
  | Object config =>
      {| U_RISK_PERCENT_PER_TRADE :=
           match config !! "RISK_PERCENT_PER_TRADE" with
           | Some v => pymin v (15 # 1000)
           | None => U_RISK_PERCENT_PER_TRADE s
           end;
         U_MAX_SPREAD_POINTS :=
           get config "MAX_SPREAD_POINTS" (U_MAX_SPREAD_POINTS s);
         U_RSI_OVERSOLD :=
           match config !! "RSI_OVERSOLD" with
           | Some v => pymax v 25
           | None => U_RSI_OVERSOLD s
           end;
         U_RSI_OVERBOUGHT :=
           match config !! "RSI_OVERBOUGHT" with
           | Some v => pymin v 75
           | None => U_RSI_OVERBOUGHT s
           end |}
  end.

(** A value of the parsed JSON: a number as Python holds it
    ([json.load] reads [NaN] and the infinities too, and [true] and
    [false] compare as 1 and 0), or something that is not a number (a
    string, a list, an object, [null]), which [min] and [max] refuse to
    compare with a number. *)
Inductive Json : Type :=
  | Number (v : Indicators.fval)
  | NotNumber.

(** What is on disk: no file, a file that does not parse to an object
    (nothing is assigned), or an object. *)
Inductive JsonFile : Type :=
  | NoFile
  | NoObject
  | JsonObject (config : gmap string Json).

Record UltraValues : Type := mkValues {
  V_RISK_PERCENT_PER_TRADE : Indicators.fval;
  V_MAX_SPREAD_POINTS : Json;
  V_RSI_OVERSOLD : Indicators.fval;
  V_RSI_OVERBOUGHT : Indicators.fval
}.

(** [a < b] on floats: false whenever one side is NaN. *)
Definition flt (a b : Indicators.fval) : bool :=
  match a, b with
  | Indicators.NaN, _ | _, Indicators.NaN => false
  | Indicators.Fin x, Indicators.Fin y => Qltb x y
  | Indicators.NegInf, Indicators.NegInf => false
  | Indicators.NegInf, _ => true
  | _, Indicators.NegInf => false
  | Indicators.PosInf, _ => false
  | Indicators.Fin _, Indicators.PosInf => true
  end.

(** [min(a, b)] returns [b] only when [b < a], [max(a, b)] only when
    [b > a]: a NaN in first place comes back. *)
Definition float_min (a b : Indicators.fval) : Indicators.fval :=
  if flt b a then b else a.
Definition float_max (a b : Indicators.fval) : Indicators.fval :=
  if flt a b then b else a.

(** [load_configuration] on any parsed JSON.  The four keys are taken
    in the order of the source; a value that is not a number raises in
    [min] or [max], the [except] logs it, and the keys after it are not
    read. *)
Definition load_values (s : UltraValues) (f : JsonFile) : UltraValues :=
  match f with
  | NoFile | NoObject => s
  | JsonObject config =>
      match config !! "RISK_PERCENT_PER_TRADE" with
      | Some NotNumber => s
      | risk =>
          let s1 :=
            mkValues
              match risk with
              | Some (Number v) => float_min v (Indicators.Fin (15 # 1000))
              | _ => V_RISK_PERCENT_PER_TRADE s
              end
              match config !! "MAX_SPREAD_POINTS" with
              | Some v => v
              | None => V_MAX_SPREAD_POINTS s
              end
              (V_RSI_OVERSOLD s) (V_RSI_OVERBOUGHT s) in
          match config !! "RSI_OVERSOLD" with
          | Some NotNumber => s1
          | oversold =>
              let s2 :=
                mkValues (V_RISK_PERCENT_PER_TRADE s1) (V_MAX_SPREAD_POINTS s1)
                  match oversold with
                  | Some (Number v) => float_max v (Indicators.Fin 25)
                  | _ => V_RSI_OVERSOLD s1
                  end
                  (V_RSI_OVERBOUGHT s1) in
              match config !! "RSI_OVERBOUGHT" with
              | Some NotNumber => s2
              | Some (Number v) =>
                  mkValues (V_RISK_PERCENT_PER_TRADE s2)
                           (V_MAX_SPREAD_POINTS s2) (V_RSI_OVERSOLD s2)
                           (float_min v (Indicators.Fin 75))
              | None => s2
              end
          end
      end
  end.

(** The settings and files of finite numbers among these. *)
Definition values_of (u : UltraSettings) : UltraValues :=
  mkValues (Indicators.Fin (U_RISK_PERCENT_PER_TRADE u))
           (Number (Indicators.Fin (U_MAX_SPREAD_POINTS u)))
           (Indicators.Fin (U_RSI_OVERSOLD u))
           (Indicators.Fin (U_RSI_OVERBOUGHT u)).

Definition json_of (f : ConfigFile) : JsonFile :=
  match f with
  | Missing => NoFile
  | Unreadable => NoObject
  | Object config =>
      JsonObject ((fun q => Number (Indicators.Fin q)) <$> config)
  end.

(** The value a file gives for a key is not NaN. *)
Definition not_nan (f : JsonFile) (key : string) : Prop :=
  match f with
  | JsonObject config => config !! key <> Some (Number Indicators.NaN)
  | _ => True
  end.

Definition capped_keys_not_nan (f : JsonFile) : Prop :=
  not_nan f "RISK_PERCENT_PER_TRADE"
  /\ not_nan f "RSI_OVERSOLD"
  /\ not_nan f "RSI_OVERBOUGHT".

End Ultra.

End Config.

(** ** Position management: [manage_positions] *)

Module Risk.

(** A row of [mt5.positions_get]. *)
Record Position : Type := mkPosition {
  ticket : Z;
  price_open : Q;
  sl : Q;
  tp : Q;
  type_ : OrderType;
  volume : Q
}.

(** An entry of [self.tracked_positions]. *)
Record Tracked : Type := mkTracked {
  entry_price : Q;
  current_sl : Q;
  tracked_type : OrderType;
  tracked_tp : Q;
  open_time : Q;
  partial_profit_taken : bool
}.

(** The calls [manage_positions] makes on the bot's two venue methods,
    with their arguments. [volume_to_close = None] closes the position in
    full. *)
Inductive Call : Type :=
  | close_position (ticket : Z) (volume_to_close : option Q) (reason : string)
  | modify_position_sl_tp (ticket : Z) (new_sl new_tp : Q).

(** How the partial close came back: not done, or done, and then whether
    the ticket is still in [tracked_positions] ([close_position] deletes
    it when almost nothing remains). *)
Inductive CloseResult : Type :=
  | close_failed
  | close_done (still_tracked : bool).

(** What the venue and the clock answer while one position is managed. *)
Record Venue : Type := mkVenue {
  symbol_info_tick : option (Q * Q);
  clock : Q;
  partial_close : CloseResult
}.

(** What the head of [manage_positions] reads off the bar window. *)
Record Market : Type := mkMarket {
  current_atr : option Q;
  previous_high_in_period : option Q;
  previous_low_in_period : option Q;
  current_bar_close : option Q
}.

Definition column_max (xs : list Q) : option Q :=
  match xs with
  | [] => None
  | x :: rest => Some (fold_left pymax rest x)
  end.

Definition column_min (xs : list Q) : option Q :=
  match xs with
  | [] => None
  | x :: rest => Some (fold_left pymin rest x)
  end.

Definition market_of (bars : list Bars.Bar) : Market :=
  let last_close :=
    match bars with
    | [] => None
    | b :: rest => Some (Bars.close (List.last rest b))
    end in
  let min_bars_for_indicators := (Const.longest_lookback * 2 + 5)%nat in
  if (length bars <? min_bars_for_indicators)%nat then
    mkMarket None None None last_close
  else
    let atr := Indicators.current_atr_of bars Const.ATR_PERIOD in
    if (Const.SR_LOOKBACK_BARS <=? length bars)%nat then
      let recent := Bars.iloc_last Const.SR_LOOKBACK_BARS bars in
      mkMarket atr (column_max (map Bars.high recent))
               (column_min (map Bars.low recent)) last_close
    else mkMarket atr None None last_close.

(** What managing one position produced: the calls in order, whether
    [partial_profit_taken] was set, and whether the body raised (the
    [KeyError] of writing the flag of a ticket no longer tracked). *)
Record Outcome : Type := mkOutcome {
  calls : list Call;
  flag_set : bool;
  raised : bool
}.

Section OnePosition.

Variable s : Settings.
Variable sym : SymbolInfo.

Definition profit_points (p : Position) (current_bid current_ask : Q) : Q :=
  match type_ p with
  | ORDER_TYPE_BUY => (current_bid - price_open p) / point_value sym
  | ORDER_TYPE_SELL => (price_open p - current_ask) / point_value sym
  end.

Definition current_adverse_excursion_points (p : Position)
    (current_bid current_ask : Q) : Q :=
  match type_ p with
  | ORDER_TYPE_BUY => (price_open p - current_bid) / point_value sym
  | ORDER_TYPE_SELL => (current_ask - price_open p) / point_value sym
  end.

Definition dynamic_aggressive_trigger_points : Q :=
  SL_POINTS s * Const.AGGRESSIVE_SL_PERCENT_TRIGGER
  + Const.AGGRESSIVE_SL_FIXED_BUFFER_FOR_TRIGGER.

(** *** Partial profit *)

Definition volume_to_close (current_volume : Q) : Q :=
  let v := current_volume * Const.PARTIAL_PROFIT_PERCENTAGE in
  let v := float_floordiv v (volume_step sym) * volume_step sym in
  pymax v (volume_min sym).

(** [current_volume - volume_to_close >= volume_min or (... < volume_min
    and ... < volume_step / 2)] *)
Definition remainder_valid (current_volume v : Q) : bool :=
  Qgeb (current_volume - v) (volume_min sym)
  || (Qltb (current_volume - v) (volume_min sym)
      && Qltb (current_volume - v) (volume_step sym / 2)).

Definition new_sl_after_partial (p : Position) : Q :=
  match type_ p with
  | ORDER_TYPE_BUY =>
      price_open p + Const.BREAK_EVEN_BUFFER_POINTS * point_value sym
  | ORDER_TYPE_SELL =>
      price_open p - Const.BREAK_EVEN_BUFFER_POINTS * point_value sym
  end.

(** [new > current_sl] for a buy, [new < current_sl] for a sell. *)
Definition better_stop (t : OrderType) (new current : Q) : bool :=
  match t with
  | ORDER_TYPE_BUY => Qltb current new
  | ORDER_TYPE_SELL => Qltb new current
  end.

Definition partial_trigger (taken : bool) (p : Position) (profit : Q) : bool :=
  negb taken
  && Qgeb profit Const.PARTIAL_PROFIT_TRIGGER_POINTS
  && Qltb (volume_min sym) (volume p).

Definition partial_profit_step (taken : bool) (answer : CloseResult)
    (p : Position) (profit : Q) : Outcome :=
  if partial_trigger taken p profit then
    let v := volume_to_close (volume p) in
    if remainder_valid (volume p) v then
      let closing := close_position (ticket p) (Some v) "PARTIAL PROFIT" in
      match answer with
      | close_failed => mkOutcome [closing] false false
      | close_done false => mkOutcome [closing] false true
      | close_done true =>
          let new_sl := new_sl_after_partial p in
          if better_stop (type_ p) new_sl (sl p)
          then mkOutcome
                 [closing; modify_position_sl_tp (ticket p) new_sl (tp p)]
                 true false
          else mkOutcome [closing] true false
      end
    else mkOutcome [] false false
  else mkOutcome [] false false.

(** *** The two closing rules *)

Definition time_exit_fires (opened : option Q) (now profit : Q) : bool :=
  match opened with
  | None => false
  | Some t0 => Qltb (MAX_HOLD_TIME_SECONDS s) (now - t0) && Qle_bool profit 0
  end.

Definition kill_switch_fires (adverse : Q) : bool :=
  Qgeb adverse Const.MAX_ADVERSE_EXCURSION_CLOSE_POINTS.

(** *** The three stop rules *)

Definition aggressive_trigger_price_level (p : Position) : Q :=
  match type_ p with
  | ORDER_TYPE_BUY =>
      price_open p - dynamic_aggressive_trigger_points * point_value sym
  | ORDER_TYPE_SELL =>
      price_open p + dynamic_aggressive_trigger_points * point_value sym
  end.

Definition momentum_confirmed (m : Market) (p : Position) : bool :=
  match current_bar_close m with
  | None => false
  | Some c =>
      match type_ p with
      | ORDER_TYPE_BUY => Qltb c (aggressive_trigger_price_level p)
      | ORDER_TYPE_SELL => Qltb (aggressive_trigger_price_level p) c
      end
  end.

Definition actual_aggressive_buffer_points : Q :=
  pymax Const.AGGRESSIVE_SL_MIN_DISTANCE_FROM_CURRENT
        (trade_stop_level_points sym + 5).

Definition new_aggressive_sl_candidate (m : Market) (p : Position)
    (current_bid current_ask : Q) : Q :=
  match type_ p with
  | ORDER_TYPE_BUY =>
      let sl_from_current_price :=
        current_bid - actual_aggressive_buffer_points * point_value sym in
      match previous_low_in_period m with
      | Some lo =>
          if Qltb current_bid lo
          then pymax sl_from_current_price
                 (lo - Const.SR_BREACH_BUFFER_POINTS * point_value sym)
          else sl_from_current_price
      | None => sl_from_current_price
      end
  | ORDER_TYPE_SELL =>
      let sl_from_current_price :=
        current_ask + actual_aggressive_buffer_points * point_value sym in
      match previous_high_in_period m with
      | Some hi =>
          if Qltb hi current_ask
          then pymin sl_from_current_price
                 (hi + Const.SR_BREACH_BUFFER_POINTS * point_value sym)
          else sl_from_current_price
      | None => sl_from_current_price
      end
  end.

(** The limiter sends its candidate when it is below the current stop
    of a buy, above the current stop of a sell. *)
Definition aggressive_rule (m : Market) (p : Position)
    (current_bid current_ask : Q) : list Call :=
  if momentum_confirmed m p then
    let candidate := new_aggressive_sl_candidate m p current_bid current_ask in
    let moves :=
      match type_ p with
      | ORDER_TYPE_BUY => Qltb candidate (sl p)
      | ORDER_TYPE_SELL => Qltb (sl p) candidate
      end in
    if moves then [modify_position_sl_tp (ticket p) candidate (tp p)] else []
  else [].

(** [be_level], also the break-even stop [new_be_sl]. *)
Definition be_level (p : Position) : Q := new_sl_after_partial p.

Definition break_even_rule (p : Position) : list Call :=
  if better_stop (type_ p) (be_level p) (sl p)
  then [modify_position_sl_tp (ticket p) (be_level p) (tp p)]
  else [].

Definition new_ts_sl (p : Position) (atr current_bid current_ask : Q) : Q :=
  let atr_trailing_distance_points := atr * ATR_MULTIPLIER s in
  match type_ p with
  | ORDER_TYPE_BUY =>
      current_bid - atr_trailing_distance_points * point_value sym
  | ORDER_TYPE_SELL =>
      current_ask + atr_trailing_distance_points * point_value sym
  end.

Definition trailing_rule (m : Market) (p : Position)
    (profit current_bid current_ask : Q) : list Call :=
  match current_atr m with
  | Some atr =>
      if Qltb (BREAK_EVEN_PROFIT_POINTS s) profit then
        let new_sl := new_ts_sl p atr current_bid current_ask in
        if better_stop (type_ p) new_sl (sl p)
           && better_stop (type_ p) new_sl (be_level p)
        then [modify_position_sl_tp (ticket p) new_sl (tp p)]
        else []
      else []
  | None => []
  end.

(** The [if ... elif ...] of the limiter and break-even, then the
    trailing stop. *)
Definition stop_rules (m : Market) (p : Position)
    (profit adverse current_bid current_ask : Q) : list Call :=
  (if Qltb profit 0 && Qgeb adverse dynamic_aggressive_trigger_points
   then aggressive_rule m p current_bid current_ask
   else if Qgeb profit (BREAK_EVEN_PROFIT_POINTS s)
        then break_even_rule p
        else [])
  ++ trailing_rule m p profit current_bid current_ask.

(** *** The body of the loop over positions *)

Definition manage_position (m : Market) (tr : option Tracked) (v : Venue)
    (p : Position) : Outcome :=
  match symbol_info_tick v with
  | None => mkOutcome [] false false
  | Some (current_bid, current_ask) =>
      let profit := profit_points p current_bid current_ask in
      let adverse := current_adverse_excursion_points p current_bid current_ask in
      let taken :=
        match tr with
        | Some t => partial_profit_taken t
        | None => false
        end in
      let partial := partial_profit_step taken (partial_close v) p profit in
      if raised partial then partial
      else if time_exit_fires (option_map open_time tr) (clock v) profit then
        mkOutcome
          (calls partial
             ++ [close_position (ticket p) None "TIME-BASED EXIT (UNPROFITABLE)"])
          (flag_set partial) false
      else if kill_switch_fires adverse then
        mkOutcome
          (calls partial
             ++ [close_position (ticket p) None "MAX ADVERSE EXCURSION"])
          (flag_set partial) false
      else
        mkOutcome
          (calls partial
             ++ stop_rules m p profit adverse current_bid current_ask)
          (flag_set partial) false
  end.

End OnePosition.

(** Kinds of call. *)
Definition closes_part (c : Call) : bool :=
  match c with
  | close_position _ (Some _) _ => true
  | _ => false
  end.

Definition moves_stop (c : Call) : bool :=
  match c with
  | modify_position_sl_tp _ _ _ => true
  | _ => false
  end.

Definition mark_partial (t : Tracked) : Tracked :=
  mkTracked (entry_price t) (current_sl t) (tracked_type t) (tracked_tp t)
            (open_time t) true.

(** [manage_positions(open_positions_list)]: the positions in order, each
    with the venue's answers for it; a raise ends the call. *)
Fixpoint manage_list (s : Settings) (sym : SymbolInfo) (m : Market)
    (venue : Z -> Venue) (tracked : gmap Z Tracked)
    (open_positions_list : list Position) : list Call * gmap Z Tracked :=
  match open_positions_list with
  | [] => ([], tracked)
  | p :: rest =>
      let o := manage_position s sym m (tracked !! ticket p)
                 (venue (ticket p)) p in
      let tracked' :=
        if flag_set o then alter mark_partial (ticket p) tracked
        else tracked in
      if raised o then (calls o, tracked')
      else
        let '(later, tracked'') := manage_list s sym m venue tracked' rest in
        (calls o ++ later, tracked'')
  end.

Definition manage_positions (s : Settings) (symbol_info : option SymbolInfo)
    (bars : list Bars.Bar) (venue : Z -> Venue) (tracked : gmap Z Tracked)
    (open_positions_list : list Position) : list Call * gmap Z Tracked :=
  match symbol_info with
  | None => ([], tracked)
  | Some sym =>
      manage_list s sym (market_of bars) venue tracked open_positions_list
  end.

End Risk.

(** ** Reversal watch after a stop-loss *)

Module Reversal.

(** The reversal attributes of the bot, with the cooldown timestamp they
    clear. *)
Record Watch : Type := mkWatch {
  sl_hit_active : bool;
  sl_hit_direction : option OrderType;
  sl_hit_confirmation_count : Z;
  sl_hit_ma_level : option Q;
  last_trade_closed_timestamp : Q
}.

Definition initial_watch : Watch := mkWatch false None 0 None 0.

Inductive ClosureType : Type :=
  | TP_HIT
  | SL_HIT
  | MANUAL_OTHER
  | PARTIAL_PROFIT_TAKE
  | UNKNOWN_CLOSURE.

(** What [get_current_open_positions] worked out for a ticket that left
    the venue's list. *)
Record Closure : Type := mkClosure {
  closed_type : OrderType;
  closure_type : ClosureType;
  position_closed_profit_usd : Q;
  price_based_loss_occurred : bool
}.

Definition is_sl_hit (c : ClosureType) : bool :=
  match c with
  | SL_HIT => true
  | _ => false
  end.

(** The end of the per-ticket block of [get_current_open_positions]: a
    loss starts the cooldown, and a stop-loss among the losses starts the
    watch; any other closure clears the watch. *)
Definition on_closure (now : Q) (m5_ma : option Q) (w : Watch) (c : Closure)
    : Watch :=
  if Qltb (position_closed_profit_usd c) (- Const.COOLDOWN_LOSS_THRESHOLD_USD)
     || price_based_loss_occurred c
  then
    if is_sl_hit (closure_type c)
    then mkWatch true (Some (closed_type c)) 0 m5_ma now
    else mkWatch (sl_hit_active w) (sl_hit_direction w)
                 (sl_hit_confirmation_count w) (sl_hit_ma_level w) now
  else mkWatch false None 0 None (last_trade_closed_timestamp w).

(** The reset at the end of a successful [send_order]. *)
Definition on_entry (w : Watch) : Watch :=
  mkWatch false None 0 None (last_trade_closed_timestamp w).

Definition count_one (w : Watch) : Watch :=
  mkWatch (sl_hit_active w) (sl_hit_direction w)
          (sl_hit_confirmation_count w + 1) (sl_hit_ma_level w)
          (last_trade_closed_timestamp w).

Definition deactivate (w : Watch) : Watch :=
  mkWatch false (sl_hit_direction w) 0 (sl_hit_ma_level w)
          (last_trade_closed_timestamp w).

(** The counting half of the block "Reversal Confirmation Logic". *)
Definition counted (w : Watch) (ma current_bar_close : Q) : Watch :=
  match sl_hit_direction w with
  | Some ORDER_TYPE_BUY =>
      if Qltb current_bar_close ma then count_one w else deactivate w
  | Some ORDER_TYPE_SELL =>
      if Qltb ma current_bar_close then count_one w else deactivate w
  | None => w
  end.

(** Whether the block raises: the message "REVERSAL CONFIRMED" formats
    [sl_hit_ma_level] as a number, a [TypeError] when it is [None]. *)
Definition confirmation_raises (confirmation_bars : Z) (w : Watch)
    (m5_ma : option Q) (current_bar_close : Q) : bool :=
  match m5_ma with
  | None => false
  | Some ma =>
      let w1 := counted w ma current_bar_close in
      sl_hit_active w
      && sl_hit_active w1
      && (confirmation_bars <=? sl_hit_confirmation_count w1)%Z
      && negb (bool_decide (is_Some (sl_hit_ma_level w1)))
  end.

(** The block "Reversal Confirmation Logic" of the loop, with
    [confirmation_bars] for [REVERSAL_CONFIRMATION_BARS]: the attributes
    it leaves.  Where it raises, the count is made and nothing is
    cleared. *)
Definition reversal_confirmation (confirmation_bars : Z) (w : Watch)
    (m5_ma : option Q) (current_bar_close : Q) : Watch :=
  if sl_hit_active w then
    match m5_ma with
    | None => w
    | Some ma =>
        let w1 := counted w ma current_bar_close in
        if sl_hit_active w1
           && (confirmation_bars <=? sl_hit_confirmation_count w1)%Z
        then
          match sl_hit_ma_level w1 with
          | Some _ => mkWatch false None 0 None 0
          | None => w1
          end
        else w1
    end
  else w.

(** One pass of the loop as far as the reversal block: the tick fetch
    and merge, the wait for enough bars, the waits for indicators and a
    live tick ([ready]), the closures found by
    [get_current_open_positions], then the reversal block on the close of
    the last bar of the window. *)
Record LoopState : Type := mkLoopState {
  window : Bars.Window;
  watch : Watch
}.

Record Poll : Type := mkPoll {
  bars_pass : Bars.Pass;
  m5_ma : option Q;
  ready : bool;
  closures : list Closure;
  now : Q
}.

Definition poll (confirmation_bars : Z) (st : LoopState) (p : Poll)
    : LoopState :=
  let w := Bars.pass (window st) (bars_pass p) in
  let bars := Bars.all_custom_bars w in
  if (length bars <? Const.longest_lookback + 2)%nat then
    mkLoopState w (watch st)
  else if negb (ready p) then mkLoopState w (watch st)
  else
    let watched := fold_left (on_closure (now p) (m5_ma p)) (closures p)
                             (watch st) in
    match bars with
    | [] => mkLoopState w watched
    | b :: rest =>
        mkLoopState w
          (reversal_confirmation confirmation_bars watched (m5_ma p)
             (Bars.close (List.last rest b)))
    end.

Definition run (confirmation_bars : Z) (st : LoopState) (ps : list Poll)
    : LoopState :=
  fold_left (poll confirmation_bars) ps st.

(** A close on the confirming side of the MA: below it after a stopped
    long, above it after a stopped short. *)
Definition confirms (direction : OrderType) (ma current_bar_close : Q) : Prop :=
  match direction with
  | ORDER_TYPE_BUY => current_bar_close < ma
  | ORDER_TYPE_SELL => ma < current_bar_close
  end.

(** Evaluations of the block, one after the other, on the given closes. *)
Definition evaluate (n : Z) (ma : Q) (w : Watch) (closes : list Q) : Watch :=
  fold_left (fun w c => reversal_confirmation n w (Some ma) c) closes w.

End Reversal.

(** ** New entries: the signal rules of [run_scalping_bot] *)

Module Strategy.

Inductive Slope : Type := UP | DOWN | FLAT | UNKNOWN.

(** What the loop holds when it reaches the entry rules. *)
Record Snapshot : Type := mkSnapshot {
  m5_ma : option Q;
  m5_ma_slope : Slope;
  live_bid_price : Q;
  live_ask_price : Q;
  current_rsi : Q;
  current_percent_k : Q;
  current_percent_d : Q;
  (** ['%k'].iloc[-2] and ['%d'].iloc[-2] *)
  prev_percent_k : Q;
  prev_percent_d : Q;
  prev_bar_open : Q;
  prev_bar_high : Q;
  prev_bar_low : Q;
  prev_bar_close : Q;
  current_bar_open : Q;
  current_bar_close : Q;
  num_open_positions : Z;
  current_atr : option Q;
  (** [mt5.account_info().equity], [None] without account info *)
  account_equity : option Q;
  now : Q
}.

Record Timers : Type := mkTimers {
  last_trade_closed_timestamp : Q;
  last_buy_entry_timestamp : Q;
  last_sell_entry_timestamp : Q
}.

(** The arguments of [send_order]. *)
Record Order : Type := mkOrder {
  order_type : OrderType;
  price : Q;
  volume : Q;
  sl : Q;
  tp : Q;
  comment : string
}.

Definition is_up (x : Slope) : bool :=
  match x with UP => true | _ => false end.
Definition is_down (x : Slope) : bool :=
  match x with DOWN => true | _ => false end.

Section Entry.

Variable s : Settings.
Variable sym : SymbolInfo.

(** [calculate_dynamic_lot_size(risk_percent, stop_loss_points)] *)
Definition calculate_dynamic_lot_size (equity : option Q)
    (risk_percent stop_loss_points : Q) : Q :=
  match equity with
  | None => volume_min sym
  | Some account_equity =>
      let risk_per_standard_lot_usd :=
        stop_loss_points * (trade_contract_size sym * point_value sym) in
      if Qle_bool risk_per_standard_lot_usd 0 then volume_min sym
      else
        let calculated_lot_size :=
          account_equity * risk_percent / risk_per_standard_lot_usd in
        let adjusted :=
          pymax (volume_min sym)
                (floordiv calculated_lot_size (volume_step sym)
                 * volume_step sym) in
        pymin (volume_max sym) adjusted
  end.

(** [dynamic_tp_points] *)
Definition dynamic_tp_points (atr : option Q) : Q :=
  match atr with
  | None => TP_POINTS s
  | Some current_atr =>
      let calculated_tp := current_atr * Const.DYNAMIC_TP_ATR_MULTIPLIER in
      pymax Const.MIN_DYNAMIC_TP_POINTS
            (pymin Const.MAX_DYNAMIC_TP_POINTS calculated_tp)
  end.

Definition live_mid_price (x : Snapshot) : Q :=
  (live_bid_price x + live_ask_price x) / 2.

Definition free_slot (x : Snapshot) : bool :=
  Qltb (inject_Z (num_open_positions x)) (NUM_CONCURRENT_TRADES s).

Definition buy_cooldown_over (t : Timers) (x : Snapshot) : bool :=
  Qltb Const.TRADE_ENTRY_COOLDOWN_SECONDS (now x - last_buy_entry_timestamp t).

Definition sell_cooldown_over (t : Timers) (x : Snapshot) : bool :=
  Qltb Const.TRADE_ENTRY_COOLDOWN_SECONDS (now x - last_sell_entry_timestamp t).

(** The four conditions, in the order of the [if ... elif] chain. *)
Definition dip_buy (ma : Q) (t : Timers) (x : Snapshot) : bool :=
  is_up (m5_ma_slope x)
  && Qltb ma (live_mid_price x)
  && Qltb (current_rsi x) (RSI_OVERSOLD s)
  && Qltb (current_percent_d x) (current_percent_k x)
  && Qle_bool (prev_percent_k x) (prev_percent_d x)
  && Qltb (current_percent_k x) (Const.STOCHASTIC_OVERSOLD + 5)
  && Qle_bool (prev_bar_low x) ma
  && Qltb ma (prev_bar_close x)
  && free_slot x
  && buy_cooldown_over t x.

Definition continuation_buy (ma : Q) (t : Timers) (x : Snapshot) : bool :=
  is_up (m5_ma_slope x)
  && Qltb ma (live_mid_price x)
  && Qltb (current_rsi x) 60
  && Qltb 40 (current_rsi x)
  && Qltb (current_percent_d x) (current_percent_k x)
  && Qle_bool (prev_percent_k x) (prev_percent_d x)
  && Qltb (prev_bar_close x) (prev_bar_open x)
  && Qltb (current_bar_open x) (current_bar_close x)
  && Qltb (prev_bar_high x) (current_bar_close x)
  && free_slot x
  && buy_cooldown_over t x.

Definition rally_sell (ma : Q) (t : Timers) (x : Snapshot) : bool :=
  is_down (m5_ma_slope x)
  && Qltb (live_mid_price x) ma
  && Qltb (RSI_OVERBOUGHT s) (current_rsi x)
  && Qltb (current_percent_k x) (current_percent_d x)
  && Qle_bool (prev_percent_d x) (prev_percent_k x)
  && Qltb (Const.STOCHASTIC_OVERBOUGHT - 5) (current_percent_k x)
  && Qle_bool ma (prev_bar_high x)
  && Qltb (prev_bar_close x) ma
  && free_slot x
  && sell_cooldown_over t x.

Definition continuation_sell (ma : Q) (t : Timers) (x : Snapshot) : bool :=
  is_down (m5_ma_slope x)
  && Qltb (live_mid_price x) ma
  && Qltb (current_rsi x) 60
  && Qltb 40 (current_rsi x)
  && Qltb (current_percent_k x) (current_percent_d x)
  && Qle_bool (prev_percent_d x) (prev_percent_k x)
  && Qltb (prev_bar_open x) (prev_bar_close x)
  && Qltb (current_bar_close x) (current_bar_open x)
  && Qltb (current_bar_close x) (prev_bar_low x)
  && free_slot x
  && sell_cooldown_over t x.

Definition buy_order (x : Snapshot) (comment : string) : option Order :=
  let buy_price := live_ask_price x in
  let dynamic_lot_size :=
    calculate_dynamic_lot_size (account_equity x) (RISK_PERCENT_PER_TRADE s)
                               (SL_POINTS s) in
  if Qle_bool dynamic_lot_size 0 then None
  else Some (mkOrder ORDER_TYPE_BUY buy_price dynamic_lot_size
               (buy_price - SL_POINTS s * point_value sym)
               (buy_price + dynamic_tp_points (current_atr x) * point_value sym)
               comment).

Definition sell_order (x : Snapshot) (comment : string) : option Order :=
  let sell_price := live_bid_price x in
  let dynamic_lot_size :=
    calculate_dynamic_lot_size (account_equity x) (RISK_PERCENT_PER_TRADE s)
                               (SL_POINTS s) in
  if Qle_bool dynamic_lot_size 0 then None
  else Some (mkOrder ORDER_TYPE_SELL sell_price dynamic_lot_size
               (sell_price + SL_POINTS s * point_value sym)
               (sell_price - dynamic_tp_points (current_atr x) * point_value sym)
               comment).

(** From the cooldown test to the last [elif]: the order handed to
    [send_order], if any. *)
Definition new_entry (t : Timers) (x : Snapshot) : option Order :=
  if Qltb (now x - last_trade_closed_timestamp t)
          (COOLDOWN_AFTER_TRADE_SECONDS s)
  then None
  else if Qltb (MAX_SPREAD_POINTS s)
               ((live_ask_price x - live_bid_price x) / point_value sym)
  then None
  else
    match m5_ma x with
    | None => None
    | Some ma =>
        if dip_buy ma t x
        then buy_order x "RSI+Stoch+MA_DipBuy_TrendGOLD"
        else if continuation_buy ma t x
        then buy_order x "Trend_Continuation_Buy_GOLD"
        else if rally_sell ma t x
        then sell_order x "RSI+Stoch+MA_SellRally_TrendGOLD"
        else if continuation_sell ma t x
        then sell_order x "Trend_Continuation_Sell_GOLD"
        else None
    end.

End Entry.

End Strategy.

(** ** Concrete inputs used below *)

Module Scenario.

(** XAUUSD at a broker quoting two decimals: a point is 0.01, lots go by
    0.01 from 0.01, a lot is 100 ounces, no minimum stop distance. *)
Definition gold : SymbolInfo :=
  {| point_value := 1 # 100;
     trade_stop_level_points := 0;
     trade_contract_size := 100;
     volume_min := 1 # 100;
     volume_max := 100;
     volume_step := 1 # 100 |}.

(** The same symbol at a venue whose smallest order is 0.10 lots. *)
Definition gold_min_tenth : SymbolInfo :=
  {| point_value := 1 # 100;
     trade_stop_level_points := 0;
     trade_contract_size := 100;
     volume_min := 1 # 10;
     volume_max := 100;
     volume_step := 1 # 100 |}.

(** [{"RISK_PERCENT_PER_TRADE": 0.5}] *)
Definition half_equity_file : Config.ConfigFile :=
  Config.Object {[ "RISK_PERCENT_PER_TRADE" := 1 # 2 ]}.

(** [{"SL_POINTS": 300}], the stop distance the dashboard writes. *)
Definition wide_stop_file : Config.ConfigFile :=
  Config.Object {[ "SL_POINTS" := 300 ]}.

Definition wide_stop_settings : Settings :=
  fst (Config.load_config_from_file class_settings wide_stop_file).

(** A dip buy in an uptrend whose previous bar had %K equal to %D. *)
Definition touching_cross : Strategy.Snapshot :=
  {| Strategy.m5_ma := Some 2000;
     Strategy.m5_ma_slope := Strategy.UP;
     Strategy.live_bid_price := 2001;
     Strategy.live_ask_price := 200120 # 100;
     Strategy.current_rsi := 30;
     Strategy.current_percent_k := 25;
     Strategy.current_percent_d := 22;
     Strategy.prev_percent_k := 20;
     Strategy.prev_percent_d := 20;
     Strategy.prev_bar_open := 200040 # 100;
     Strategy.prev_bar_high := 200080 # 100;
     Strategy.prev_bar_low := 199990 # 100;
     Strategy.prev_bar_close := 200050 # 100;
     Strategy.current_bar_open := 200050 # 100;
     Strategy.current_bar_close := 200110 # 100;
     Strategy.num_open_positions := 0;
     Strategy.current_atr := Some (40 # 1);
     Strategy.account_equity := Some 10000;
     Strategy.now := 1000 |}.

Definition idle_timers : Strategy.Timers := Strategy.mkTimers 0 0 0.

(** A long position from 2000.00 with its stop 150 points below, and the
    bid two points above that stop. *)
Definition long_near_stop : Risk.Position :=
  Risk.mkPosition 1 2000 (199850 # 100) 2005 ORDER_TYPE_BUY (10 # 100).

(** The same position once the venue holds the stop at 1998.47. *)
Definition long_stop_moved : Risk.Position :=
  Risk.mkPosition 1 2000 (199847 # 100) 2005 ORDER_TYPE_BUY (10 # 100).

Definition tracked_since (t0 : Q) (p : Risk.Position) : gmap Z Risk.Tracked :=
  {[ Risk.ticket p :=
       Risk.mkTracked (Risk.price_open p) (Risk.sl p) (Risk.type_ p)
                      (Risk.tp p) t0 false ]}.

Definition venue_at (current_bid current_ask now : Q) : Z -> Risk.Venue :=
  fun _ => Risk.mkVenue (Some (current_bid, current_ask)) now
                        (Risk.close_done true).

(** A long position from 2000.00 under the 300-point stop, 200 points
    under water. *)
Definition long_at_ceiling : Risk.Position :=
  Risk.mkPosition 2 2000 1997 2005 ORDER_TYPE_BUY (10 # 100).

(** Longs at a profit of exactly 150 points (bid 2001.50). *)
Definition long_at_trigger (lots : Q) : Risk.Position :=
  Risk.mkPosition 3 2000 (199850 # 100) 2005 ORDER_TYPE_BUY lots.

(** A long whose stop already sits at break-even, 100 points in profit. *)
Definition long_in_profit : Risk.Position :=
  Risk.mkPosition 4 2000 (200022 # 100) 2005 ORDER_TYPE_BUY (10 # 100).

Definition market_with_atr (atr : Q) : Risk.Market :=
  Risk.mkMarket (Some atr) None None None.

(** Thirty-two five-second buckets of one tick each, the price falling a
    point per bar from [top] points: enough bars for the loop to go on,
    too few for the ATR and the support and resistance of
    [manage_positions]. *)
Definition falling_ticks (top : Z) : list Bars.Tick :=
  map (fun i : nat =>
         let price := inject_Z (top - Z.of_nat i) / 100 in
         Bars.mkTick (Z.of_nat i * 5000) price price 1)
      (seq 0 32).

Definition falling_window (top : Z) : Bars.Window :=
  Bars.ingest Bars.initial_window (falling_ticks top).

(** From 1990.00 down to 1989.69, under a trend MA of 2000. *)
Definition primed : Bars.Window := falling_window 199000.

(** What [manage_positions] reads off such a window: the last close
    (1998.55) and nothing else. *)
Definition no_market : Risk.Market :=
  Risk.market_of (Bars.all_custom_bars (falling_window 199886)).

(** Sixty-six five-second buckets of two ticks each, half a dollar
    apart, the pair rising a point per bar up to 2000.50 and 2001.00:
    every bar ranges over 0.50, that is 50 points, and there are bars
    enough for the ATR of [manage_positions]. *)
Definition ranging_ticks : list Bars.Tick :=
  flat_map (fun i : nat =>
              let lower := inject_Z (199985 + Z.of_nat i) / 100 in
              [Bars.mkTick (Z.of_nat i * 5000) lower lower 1;
               Bars.mkTick (Z.of_nat i * 5000 + 1000) (lower + (1 # 2))
                           (lower + (1 # 2)) 1])
           (seq 0 66).

Definition ranging_window : Bars.Window :=
  Bars.ingest Bars.initial_window ranging_ticks.

(** A poll that fetches no tick. *)
Definition quiet_poll (found : list Reversal.Closure) (now : Q) : Reversal.Poll :=
  Reversal.mkPoll (Bars.mkPass [] None) (Some 2000) true found now.

Definition stopped_out_long : Reversal.Closure :=
  Reversal.mkClosure ORDER_TYPE_BUY Reversal.SL_HIT (-15) true.

Definition watching_long : Reversal.Watch :=
  Reversal.mkWatch true (Some ORDER_TYPE_BUY) 0 (Some 2000) 1000.

End Scenario.

(** ** Stochastic oscillator: [calculate_stochastic] *)

Module Stochastic.

(** The rows a rolling window of [w] rows ends with at row [i]. *)
Definition window_at (w i : nat) (xs : list Q) : list Q :=
  firstn w (skipn (S i - w) xs).

(** [series.rolling(window=w).agg()]: missing until [w] rows are there. *)
Definition rolling (agg : list Q -> option Q) (w : nat) (xs : list Q)
    : list (option Q) :=
  map (fun i => if (S i <? w)%nat then None else agg (window_at w i xs))
      (seq 0 (length xs)).

Definition mean (xs : list Q) : option Q :=
  match xs with
  | [] => None
  | _ :: _ => Some (fold_right Qplus 0 xs / inject_Z (Z.of_nat (length xs)))
  end.

(** [100 * ((close - low_min) / np.where(denominator != 0, denominator,
    np.nan))]: missing while the window is short and where the range
    is zero. *)
Definition raw_percent_k (c : Q) (low_min high_max : option Q) : option Q :=
  match low_min, high_max with
  | Some lo, Some hi =>
      let denominator := hi - lo in
      if Qeq_bool denominator 0 then None
      else Some (100 * ((c - lo) / denominator))
  | _, _ => None
  end.

Fixpoint zip3 (cs : list Q) (los his : list (option Q)) : list (option Q) :=
  match cs, los, his with
  | c :: cs', lo :: los', hi :: his' =>
      raw_percent_k c lo hi :: zip3 cs' los' his'
  | _, _, _ => []
  end.

(** [ffill()]: a missing entry takes the last entry before it, if any. *)
Fixpoint ffill (last : option Q) (xs : list (option Q)) : list (option Q) :=
  match xs with
  | [] => []
  | x :: rest =>
      let filled := match x with Some v => Some v | None => last end in
      filled :: ffill filled rest
  end.

(** [fillna(50)] then [clip(0, 100)]. *)
Definition settle (x : option Q) : Q :=
  pymin (pymax (match x with Some v => v | None => 50 end) 0) 100.

Definition percent_k_series (bars : list Bars.Bar) (k_period : nat) : list Q :=
  let low_min := rolling Risk.column_min k_period (map Bars.low bars) in
  let high_max := rolling Risk.column_max k_period (map Bars.high bars) in
  map settle (ffill None (zip3 (map Bars.close bars) low_min high_max)).

(** [calculate_stochastic(data, k_period, d_period)]: %K and %D, or
    [None, None]. *)
Definition calculate_stochastic (bars : list Bars.Bar) (k_period d_period : nat)
    : option (list Q * list (option Q)) :=
  if (length bars <? k_period + d_period)%nat then None
  else
    let percent_k := percent_k_series bars k_period in
    Some (percent_k, rolling mean d_period percent_k).

End Stochastic.

(** ** Vocabulary for the properties of bars and indicators *)

Module Measure.

(** The sum of the ['real_volume'] column, and of the ticks' volumes. *)
Definition bar_volume (bars : list Bars.Bar) : Q :=
  fold_right (fun b acc => Bars.real_volume b + acc) 0 bars.

Definition tick_volume (ticks : list Bars.Tick) : Q :=
  fold_right (fun t acc => Bars.volume_real t + acc) 0 ticks.

Definition percent (x : Q) : Prop := 0 <= x /\ x <= 100.

Definition percent_or_missing (x : option Q) : Prop :=
  match x with
  | Some v => percent v
  | None => True
  end.

(** Some bar of the frame has the bucket's time and the property. *)
Definition has_bar (T : Z) (P : Bars.Bar -> Prop) (groups : list Bars.Bar)
    : Prop :=
  exists b, In b groups /\ Bars.time b = T /\ P b.

(** Each close is strictly above the one before. *)
Definition rising (closes : list Q) : Prop := Sorted Qlt closes.

End Measure.

(** ** Vocabulary for the properties of orders and calls *)

Module Terms.

Definition call_ticket (c : Risk.Call) : Z :=
  match c with
  | Risk.close_position t _ _ => t
  | Risk.modify_position_sl_tp t _ _ => t
  end.

(** A call that leaves the take-profit of the position as it is. *)
Definition keeps_target (p : Risk.Position) (c : Risk.Call) : Prop :=
  match c with
  | Risk.close_position _ _ _ => True
  | Risk.modify_position_sl_tp _ _ new_tp => new_tp = Risk.tp p
  end.

Definition closes_all (c : Risk.Call) : bool :=
  match c with
  | Risk.close_position _ None _ => true
  | _ => false
  end.

(** A float that is a number, or an infinity on the right side, and
    within a bound. *)
Definition at_most (v : Indicators.fval) (bound : Q) : Prop :=
  match v with
  | Indicators.Fin q => q <= bound
  | Indicators.NegInf => True
  | _ => False
  end.

Definition at_least (v : Indicators.fval) (bound : Q) : Prop :=
  match v with
  | Indicators.Fin q => bound <= q
  | Indicators.PosInf => True
  | _ => False
  end.

(** The caps of [ULTRA_bot.load_configuration]. *)
Definition within_caps (u : Config.Ultra.UltraValues) : Prop :=
  at_most (Config.Ultra.V_RISK_PERCENT_PER_TRADE u) (15 # 1000)
  /\ at_least (Config.Ultra.V_RSI_OVERSOLD u) 25
  /\ at_most (Config.Ultra.V_RSI_OVERBOUGHT u) 75.

End Terms.

(** ** The bot's venue methods [modify_position_sl_tp] and
    [close_position] *)

Module Venue.

(** The attributes these methods and [get_current_open_positions] read
    and write. *)
Record Bot : Type := mkBot {
  tracked_positions : gmap Z Risk.Tracked;
  watch : Reversal.Watch;
  last_buy_entry_timestamp : Q;
  last_sell_entry_timestamp : Q
}.

(** The requests handed to [mt5.order_send]. *)
Inductive Request : Type :=
  | close_deal (position : Z) (type : OrderType) (price volume : Q)
               (comment : string)
  | set_sltp (position : Z) (sl tp : Q).

(** What [order_send] does: raise (or answer [None], which raises at
    [result.retcode]), answer with a return code other than
    [TRADE_RETCODE_DONE], or answer done with an order ticket. *)
Inductive Answer : Type :=
  | raises
  | retcode_other
  | retcode_done (order : Z).

Definition retrack (b : Bot) (tracked : gmap Z Risk.Tracked) : Bot :=
  mkBot tracked (watch b) (last_buy_entry_timestamp b)
        (last_sell_entry_timestamp b).

(** [abs(a - b) < 1e-9] *)
Definition same_level (a b : Q) : bool := Qltb (Qabs (a - b)) (1 # 1000000000).

Definition with_levels (new_sl new_tp : Q) (t : Risk.Tracked) : Risk.Tracked :=
  Risk.mkTracked (Risk.entry_price t) new_sl (Risk.tracked_type t) new_tp
                 (Risk.open_time t) (Risk.partial_profit_taken t).

(** [modify_position_sl_tp(ticket, new_sl, new_tp)], with what
    [mt5.positions_get(ticket=ticket)] finds: the bot afterwards, the
    requests sent, and the returned flag. *)
Definition modify_position_sl_tp (b : Bot) (position_data : option Risk.Position)
    (a : Answer) (ticket : Z) (new_sl new_tp : Q) : Bot * list Request * bool :=
  match position_data with
  | None => (retrack b (delete ticket (tracked_positions b)), [], false)
  | Some position =>
      if same_level (Risk.sl position) new_sl
         && same_level (Risk.tp position) new_tp
      then (b, [], true)
      else
        let request := set_sltp ticket new_sl new_tp in
        match a with
        | raises => (b, [request], false)
        | retcode_other => (b, [request], false)
        | retcode_done _ =>
            (retrack b (alter (with_levels new_sl new_tp) ticket
                              (tracked_positions b)),
             [request], true)
        end
  end.

Definition opposite (t : OrderType) : OrderType :=
  match t with
  | ORDER_TYPE_BUY => ORDER_TYPE_SELL
  | ORDER_TYPE_SELL => ORDER_TYPE_BUY
  end.

(** [close_position(ticket, volume_to_close, reason)], with what
    [positions_get] and [symbol_info_tick] find: the bot afterwards, the
    requests sent, and the result returned ([None], or whether its
    return code is done). *)
Definition close_position (sym : SymbolInfo) (b : Bot)
    (position_data : option Risk.Position) (tick : option (Q * Q)) (a : Answer)
    (ticket : Z) (volume_to_close : option Q) (reason : string)
    : Bot * list Request * option bool :=
  match position_data with
  | None => (retrack b (delete ticket (tracked_positions b)), [], None)
  | Some position =>
      let volume :=
        match volume_to_close with
        | Some v => v
        | None => Risk.volume position
        end in
      if Qle_bool volume 0 then (b, [], None)
      else
        let order_type := opposite (Risk.type_ position) in
        match tick with
        | None => (b, [], None)
        | Some (bid, ask) =>
            let price :=
              match order_type with
              | ORDER_TYPE_BUY => bid
              | ORDER_TYPE_SELL => ask
              end in
            let request :=
              close_deal ticket order_type price volume
                         ("Close Position: " ++ reason) in
            match a with
            | raises => (b, [request], None)
            | retcode_other => (b, [request], Some false)
            | retcode_done _ =>
                if Qle_bool (Risk.volume position - volume)
                            (volume_min sym / 2)
                then (retrack b (delete ticket (tracked_positions b)),
                      [request], Some true)
                else (b, [request], Some true)
            end
        end
  end.

End Venue.

(** ** Reconciliation with the venue: [get_current_open_positions] *)

Module Sync.
Import Venue.

Inductive DealEntry : Type :=
  | DEAL_ENTRY_IN
  | DEAL_ENTRY_OUT
  | DEAL_ENTRY_INOUT
  | DEAL_ENTRY_OUT_BY.

(** A row of [mt5.history_deals_get]. *)
Record Deal : Type := mkDeal {
  position_id : Z;
  entry : DealEntry;
  price : Q;
  profit : Q;
  time_msc : Z
}.

(** [sorted(..., key=lambda x: x.time_msc)], a stable sort. *)
Fixpoint insert_deal (d : Deal) (ds : list Deal) : list Deal :=
  match ds with
  | [] => [d]
  | e :: rest =>
      if (time_msc e <=? time_msc d)%Z then e :: insert_deal d rest
      else d :: e :: rest
  end.

Definition sorted_by_time (ds : list Deal) : list Deal :=
  fold_left (fun acc d => insert_deal d acc) ds [].

(** What the loop over the deals of a closed position works out. *)
Record Summary : Type := mkSummary {
  position_closed_profit_usd : Q;
  closing_deal_price : option Q;
  closure_type : Reversal.ClosureType
}.

(** The closure type a full-close deal gives: near the take-profit
    first, near the stop second. *)
Definition near (a b point_value : Q) : bool :=
  Qltb (Qabs (a - b)) (point_value * 5).

Definition full_close_type (info : Risk.Tracked) (point_value : Q) (d : Deal)
    : Reversal.ClosureType :=
  if near (price d) (Risk.tracked_tp info) point_value then Reversal.TP_HIT
  else if near (price d) (Risk.current_sl info) point_value
       then Reversal.SL_HIT
       else Reversal.MANUAL_OTHER.

Definition add_deal (info : Risk.Tracked) (point_value : Q) (acc : Summary)
    (d : Deal) : Summary :=
  let total := position_closed_profit_usd acc + profit d in
  match entry d with
  | DEAL_ENTRY_OUT =>
      mkSummary total (Some (price d)) (full_close_type info point_value d)
  | DEAL_ENTRY_OUT_BY =>
      mkSummary total (Some (price d)) Reversal.PARTIAL_PROFIT_TAKE
  | _ => mkSummary total (closing_deal_price acc) (closure_type acc)
  end.

Definition summarize (info : Risk.Tracked) (point_value : Q) (ticket : Z)
    (deals : list Deal) : Summary :=
  let own := List.filter (fun d => (position_id d =? ticket)%Z) deals in
  fold_left (add_deal info point_value) (sorted_by_time own)
            (mkSummary 0 None Reversal.UNKNOWN_CLOSURE).

Definition price_based_loss (info : Risk.Tracked) (point_value : Q)
    (closing : option Q) : bool :=
  match closing with
  | None => false
  | Some c =>
      if Qeq_bool point_value 0 then false
      else
        let price_difference_points :=
          match Risk.tracked_type info with
          | ORDER_TYPE_BUY => (c - Risk.entry_price info) / point_value
          | ORDER_TYPE_SELL => (Risk.entry_price info - c) / point_value
          end in
        Qltb price_difference_points (- Const.COOLDOWN_POINTS_THRESHOLD)
  end.

Definition closure_of (info : Risk.Tracked) (point_value : Q) (ticket : Z)
    (deals : list Deal) : Reversal.Closure :=
  let sum := summarize info point_value ticket deals in
  Reversal.mkClosure (Risk.tracked_type info) (closure_type sum)
    (position_closed_profit_usd sum)
    (price_based_loss info point_value (closing_deal_price sum)).

Definition in_loss (c : Reversal.Closure) : bool :=
  Qltb (Reversal.position_closed_profit_usd c)
       (- Const.COOLDOWN_LOSS_THRESHOLD_USD)
  || Reversal.price_based_loss_occurred c.

(** The block for one ticket that left the venue's list.  The message
    logged on a stop-loss formats the MA level, which raises when there
    is no MA; the ticket is then still tracked. *)
Definition process_closed (point_value : Q) (clock : Z -> Q)
    (m5_ma : option Q) (deals : list Deal) (b : Bot) (ticket : Z)
    : Bot * bool :=
  match tracked_positions b !! ticket with
  | None => (b, false)
  | Some info =>
      let c := closure_of info point_value ticket deals in
      let watched := Reversal.on_closure (clock ticket) m5_ma (watch b) c in
      let b1 := mkBot (tracked_positions b) watched
                      (last_buy_entry_timestamp b)
                      (last_sell_entry_timestamp b) in
      if in_loss c && Reversal.is_sl_hit (Reversal.closure_type c)
         && negb (bool_decide (is_Some m5_ma))
      then (b1, true)
      else (retrack b1 (delete ticket (tracked_positions b1)), false)
  end.

Fixpoint process_all (point_value : Q) (clock : Z -> Q) (m5_ma : option Q)
    (deals : Z -> list Deal) (b : Bot) (tickets : list Z) : Bot * bool :=
  match tickets with
  | [] => (b, false)
  | t :: rest =>
      let '(b1, raised) :=
        process_closed point_value clock m5_ma (deals t) b t in
      if raised then (b1, true)
      else process_all point_value clock m5_ma deals b1 rest
  end.

Definition with_stop (new_sl : Q) (t : Risk.Tracked) : Risk.Tracked :=
  Risk.mkTracked (Risk.entry_price t) new_sl (Risk.tracked_type t)
                 (Risk.tracked_tp t) (Risk.open_time t)
                 (Risk.partial_profit_taken t).

(** The block for one position of the venue's list.  The branch for a
    changed take-profit reads a name, [ticket], that the function never
    binds, and raises. *)
Definition track (clock : Z -> Q) (b : Bot) (pos : Risk.Position)
    : Bot * bool :=
  match tracked_positions b !! Risk.ticket pos with
  | None =>
      (retrack b
         (<[ Risk.ticket pos :=
               Risk.mkTracked (Risk.price_open pos) (Risk.sl pos)
                              (Risk.type_ pos) (Risk.tp pos)
                              (clock (Risk.ticket pos)) false ]>
            (tracked_positions b)),
       false)
  | Some t =>
      let b1 :=
        if Qeq_bool (Risk.current_sl t) (Risk.sl pos) then b
        else retrack b (<[ Risk.ticket pos := with_stop (Risk.sl pos) t ]>
                          (tracked_positions b)) in
      if Qeq_bool (Risk.tracked_tp t) (Risk.tp pos) then (b1, false)
      else (b1, true)
  end.

Fixpoint track_all (clock : Z -> Q) (b : Bot)
    (positions : list Risk.Position) : Bot * bool :=
  match positions with
  | [] => (b, false)
  | pos :: rest =>
      let '(b1, raised) := track clock b pos in
      if raised then (b1, true) else track_all clock b1 rest
  end.

(** [get_current_open_positions()].  [key_order] is the order in which
    the dictionary [tracked_positions] yields its keys; [clock k] is the
    reading of [time.time()] while ticket [k] is handled; [deals k] is
    what [history_deals_get] answers then; [mt5_positions] is [None]
    when the venue call fails.  The result is the bot afterwards and the
    positions returned, [None] when the call raised. *)
Definition get_current_open_positions (point_value : Q) (clock : Z -> Q)
    (m5_ma : option Q) (deals : Z -> list Deal) (key_order : list Z)
    (mt5_positions : option (list Risk.Position)) (b : Bot)
    : Bot * option (list Risk.Position) :=
  match mt5_positions with
  | None => (b, None)
  | Some positions =>
      let active := map Risk.ticket positions in
      let tickets_to_remove :=
        List.filter
          (fun t => bool_decide (is_Some (tracked_positions b !! t))
                    && negb (existsb (Z.eqb t) active))
          key_order in
      let '(b1, raised) :=
        process_all point_value clock m5_ma deals b tickets_to_remove in
      if raised then (b1, None)
      else
        let '(b2, raised2) := track_all clock b1 positions in
        if raised2 then (b2, None) else (b2, Some positions)
  end.

(** Two tracking entries that differ in the stop at most. *)
Definition same_trade (t t' : Risk.Tracked) : Prop :=
  Risk.entry_price t' = Risk.entry_price t
  /\ Risk.tracked_type t' = Risk.tracked_type t
  /\ Risk.tracked_tp t' = Risk.tracked_tp t
  /\ Risk.open_time t' = Risk.open_time t
  /\ Risk.partial_profit_taken t' = Risk.partial_profit_taken t.

(** A bot that tracks a long (ticket 7) and a short (ticket 8), and two
    answers of the venue: the long gone at its take-profit, the short
    still open with its stop moved, and a long (ticket 9) the bot has
    not seen; and the short with another take-profit. *)
Definition two_tracked : Bot :=
  mkBot (<[ 7%Z := Risk.mkTracked 2000 1998 ORDER_TYPE_BUY 2005 100 false ]>
           (<[ 8%Z := Risk.mkTracked 2010 2012 ORDER_TYPE_SELL 2005 200 true ]>
              ∅))
        Reversal.initial_watch 0 0.

Definition venue_list : list Risk.Position :=
  [Risk.mkPosition 8 2010 2011 2005 ORDER_TYPE_SELL (10 # 100);
   Risk.mkPosition 9 2003 2001 2008 ORDER_TYPE_BUY (10 # 100)].

Definition venue_list_moved_tp : list Risk.Position :=
  [Risk.mkPosition 8 2010 2012 2006 ORDER_TYPE_SELL (10 # 100)].

Definition recent_deals (_ : Z) : list Deal :=
  [mkDeal 7 DEAL_ENTRY_IN 2000 0 1000; mkDeal 7 DEAL_ENTRY_OUT 2005 50 2000].

End Sync.

(** * Properties *)

(** ** Comparisons *)

Module NumFacts.

Lemma Qltb_lt x y : Qltb x y = true <-> x < y.
Proof.
  unfold Qltb. rewrite negb_true_iff.
  split.
  - intros H. apply Qnot_le_lt. intros Hle.
    apply Qle_bool_iff in Hle. congruence.
  - intros H. destruct (Qle_bool y x) eqn:E; [|reflexivity].
    apply Qle_bool_iff in E. exfalso. apply (Qlt_not_le _ _ H E).
Qed.

Lemma Qltb_ge x y : Qltb x y = false <-> y <= x.
Proof.
  unfold Qltb. rewrite negb_false_iff. apply Qle_bool_iff.
Qed.

Lemma Qgeb_le x y : Qgeb x y = true <-> y <= x.
Proof. unfold Qgeb. apply Qle_bool_iff. Qed.

Lemma pymax_ge_l a b : a <= pymax a b.
Proof.
  unfold pymax. destruct (Qltb a b) eqn:E.
  - apply Qltb_lt in E. lra.
  - lra.
Qed.

Lemma pymax_ge_r a b : b <= pymax a b.
Proof.
  unfold pymax. destruct (Qltb a b) eqn:E.
  - lra.
  - apply Qltb_ge in E. exact E.
Qed.

Lemma pymin_le_l a b : pymin a b <= a.
Proof.
  unfold pymin. destruct (Qltb b a) eqn:E.
  - apply Qltb_lt in E. lra.
  - lra.
Qed.

Lemma pymin_le_r a b : pymin a b <= b.
Proof.
  unfold pymin. destruct (Qltb b a) eqn:E.
  - lra.
  - apply Qltb_ge in E. exact E.
Qed.

Lemma Qle_bool_false x y : Qle_bool x y = false <-> y < x.
Proof.
  split.
  - intros H. apply Qnot_le_lt. intros Hle.
    apply Qle_bool_iff in Hle. congruence.
  - intros H. destruct (Qle_bool x y) eqn:E; [|reflexivity].
    apply Qle_bool_iff in E. exfalso. apply (Qlt_not_le _ _ H E).
Qed.

Lemma Qeq_bool_false x y : Qeq_bool x y = false <-> ~ x == y.
Proof.
  split.
  - intros H Heq. apply Qeq_bool_iff in Heq. congruence.
  - intros H. destruct (Qeq_bool x y) eqn:E; [|reflexivity].
    apply Qeq_bool_iff in E. contradiction.
Qed.

(** *** Rounding to binary64 *)

Lemma pow2_pos (e : Z) : 0 < 2 ^ e.
Proof. apply Qpower_0_lt. reflexivity. Qed.

Lemma ilog2_below (q : Q) : 0 < q -> 2 ^ ilog2 q <= q.
Proof.
  intros Hq. unfold ilog2. destruct q as [n d]. cbn [Qnum Qden].
  set (ln := Z.log2 n). set (ld := Z.log2 (Z.pos d)).
  destruct (Qle_bool (2 ^ (ln - ld)) (n # d)) eqn:E; [now apply Qle_bool_iff|].
  assert (Hn : (0 < n)%Z) by (unfold Qlt in Hq; simpl in Hq; lia).
  destruct (Z.log2_spec n Hn) as [Hn1 _]. fold ln in Hn1.
  destruct (Z.log2_spec (Z.pos d) (Pos2Z.is_pos d)) as [_ Hd2]. fold ld in Hd2.
  assert (Hln : (0 <= ln)%Z) by apply Z.log2_nonneg.
  assert (Hld : (0 <= ld)%Z) by apply Z.log2_nonneg.
  replace (ln - ld - 1)%Z with (ln - Z.succ ld)%Z by lia.
  rewrite Qpower_minus by discriminate.
  change 2 with (inject_Z 2).
  rewrite <- !Zpower_Qpower by lia.
  assert (HB : (0 < 2 ^ Z.succ ld)%Z) by (apply Z.pow_pos_nonneg; lia).
  apply Qle_shift_div_r.
  - unfold Qlt. simpl. lia.
  - unfold Qle. simpl. nia.
Qed.

Lemma ilog2_above (q : Q) : 0 < q -> q < 2 ^ (ilog2 q + 1).
Proof.
  intros Hq. unfold ilog2. destruct q as [n d]. cbn [Qnum Qden].
  set (ln := Z.log2 n). set (ld := Z.log2 (Z.pos d)).
  destruct (Qle_bool (2 ^ (ln - ld)) (n # d)) eqn:E.
  - assert (Hn : (0 < n)%Z) by (unfold Qlt in Hq; simpl in Hq; lia).
    destruct (Z.log2_spec n Hn) as [_ Hn2]. fold ln in Hn2.
    destruct (Z.log2_spec (Z.pos d) (Pos2Z.is_pos d)) as [Hd1 _]. fold ld in Hd1.
    assert (Hln : (0 <= ln)%Z) by apply Z.log2_nonneg.
    assert (Hld : (0 <= ld)%Z) by apply Z.log2_nonneg.
    replace (ln - ld + 1)%Z with (Z.succ ln - ld)%Z by lia.
    rewrite Qpower_minus by discriminate.
    change 2 with (inject_Z 2).
    rewrite <- !Zpower_Qpower by lia.
    assert (HB : (0 < 2 ^ ld)%Z) by (apply Z.pow_pos_nonneg; lia).
    apply Qlt_shift_div_l.
    + unfold Qlt. simpl. lia.
    + unfold Qlt. simpl. nia.
  - replace (ln - ld - 1 + 1)%Z with (ln - ld)%Z by lia.
    now apply Qle_bool_false in E.
Qed.

Lemma round_half_even_near (x : Q) :
  Qabs (inject_Z (round_half_even x) - x) <= 1 # 2.
Proof.
  unfold round_half_even.
  pose proof (Qfloor_le x) as H1. pose proof (Qlt_floor x) as H2.
  rewrite inject_Z_plus in H2. change (inject_Z 1) with 1 in H2.
  apply Qabs_Qle_condition.
  destruct (Qltb (x - inject_Z (Qfloor x)) (1 # 2)) eqn:A.
  - apply Qltb_lt in A. lra.
  - apply Qltb_ge in A.
    destruct (Qltb (1 # 2) (x - inject_Z (Qfloor x))) eqn:B.
    + rewrite inject_Z_plus. change (inject_Z 1) with 1. lra.
    + apply Qltb_ge in B. destruct (Z.even (Qfloor x)).
      * lra.
      * rewrite inject_Z_plus. change (inject_Z 1) with 1. lra.
Qed.

Lemma double_of_positive (q : Q) :
  0 < q ->
  double q
  = inject_Z (round_half_even (q / 2 ^ (ilog2 q - 52))) * 2 ^ (ilog2 q - 52).
Proof.
  intros Hq. unfold double.
  assert (E1 : Qeq_bool q 0 = false).
  { destruct (Qeq_bool q 0) eqn:E; [|reflexivity].
    apply Qeq_bool_iff in E. lra. }
  assert (E2 : Qltb q 0 = false) by (apply Qltb_ge; lra).
  rewrite E1, E2.
  assert (Ea : Qabs q = q).
  { destruct q as [[|n|n] d]; try reflexivity. unfold Qlt in Hq. simpl in Hq. lia. }
  now rewrite Ea.
Qed.

(** The relative error of rounding is at most 2^-53. *)
Lemma double_near (q : Q) :
  0 < q -> Qabs (double q - q) <= q * (1 # 9007199254740992).
Proof.
  intros Hq. rewrite (double_of_positive q Hq).
  set (u := 2 ^ (ilog2 q - 52)).
  assert (Hu : 0 < u) by apply pow2_pos.
  assert (Hu2 : u * 4503599627370496 <= q).
  { unfold u. rewrite Qpower_minus by discriminate.
    pose proof (ilog2_below q Hq) as Hb.
    assert (E : 2 ^ 52 == 4503599627370496) by reflexivity.
    rewrite E. set (x := 2 ^ ilog2 q) in *.
    assert (E2 : x / 4503599627370496 * 4503599627370496 == x) by field.
    lra. }
  pose proof (round_half_even_near (q / u)) as Hr.
  set (m := inject_Z (round_half_even (q / u))) in *.
  assert (Eq : q == q / u * u) by (field; lra).
  apply Qabs_Qle_condition in Hr. apply Qabs_Qle_condition.
  set (t := q / u) in *.
  assert (L1 : (m - t) * u <= (1 # 2) * u) by (apply Qmult_le_compat_r; lra).
  assert (L2 : - (1 # 2) * u <= (m - t) * u) by (apply Qmult_le_compat_r; lra).
  assert (E3 : m * u - q == (m - t) * u) by (rewrite Eq at 1; ring).
  rewrite E3. lra.
Qed.

Lemma double_bounds (q : Q) :
  0 < q ->
  q * (9007199254740991 # 9007199254740992) <= double q
  /\ double q <= q * (9007199254740993 # 9007199254740992).
Proof.
  intros Hq. pose proof (double_near q Hq) as H.
  apply Qabs_Qle_condition in H. lra.
Qed.

(** The float floor is never more than the exact quotient by more than
    the two roundings. *)
Lemma float_floordiv_below (a b : Q) :
  0 < a -> 0 < b ->
  float_floordiv a b * b <= a * (9007199254740993 # 9007199254740991).
Proof.
  intros Ha Hb. unfold float_floordiv.
  destruct (double_bounds a Ha) as [Ha1 Ha2].
  destruct (double_bounds b Hb) as [Hb1 _].
  assert (Hdb : 0 < double b) by lra.
  assert (Hda : 0 < double a) by lra.
  pose proof (Qfloor_le (double a / double b)) as Hf.
  assert (Hq : 0 <= double a / double b) by (apply Qle_shift_div_l; lra).
  assert (Hk0 : 0 <= inject_Z (Qfloor (double a / double b))).
  { change 0 with (inject_Z 0). rewrite <- Zle_Qle.
    change 0%Z with (Qfloor 0). now apply Qfloor_resp_le. }
  assert (E : double a / double b * double b == double a) by (field; lra).
  set (t := double a / double b) in *.
  set (k := inject_Z (Qfloor t)) in *.
  assert (Hk : k * double b <= double a).
  { apply (Qmult_le_compat_r _ _ (double b)) in Hf; lra. }
  assert (H1 : k * (b * (9007199254740991 # 9007199254740992)) <= k * double b).
  { rewrite !(Qmult_comm k). apply Qmult_le_compat_r; assumption. }
  lra.
Qed.

End NumFacts.
Import NumFacts.

(** ** The bar window *)

Module BarsFacts.
Import Bars.

Lemma Forall_sublist {A} (P : A -> Prop) (k l : list A) :
  sublist k l -> Forall P l -> Forall P k.
Proof.
  induction 1 as [|x k l _ IH|x k l _ IH]; intros H.
  - constructor.
  - inversion H; subst. constructor; auto.
  - inversion H; subst. auto.
Qed.

Lemma increasing_sublist (k l : list Bar) :
  sublist k l -> increasing l -> increasing k.
Proof.
  induction 1 as [|x k l Hs IH|x k l Hs IH]; intros H.
  - constructor.
  - inversion H; subst. constructor; [now apply IH|].
    eapply Forall_sublist; eassumption.
  - inversion H; subst. now apply IH.
Qed.

Lemma filter_is_sublist (f : Bar -> bool) (l : list Bar) :
  sublist (List.filter f l) l.
Proof.
  induction l as [|b l IH]; simpl.
  - constructor.
  - destruct (f b); now constructor.
Qed.

Lemma drop_from_is_sublist (rows seen : list Bar) :
  sublist (drop_from seen rows) rows.
Proof.
  revert seen. induction rows as [|b rows IH]; intros seen; simpl.
  - constructor.
  - destruct (existsb (same_row b) seen); constructor; apply IH.
Qed.

Lemma increasing_NoDup (rows : list Bar) :
  increasing rows -> List.NoDup (map time rows).
Proof.
  induction 1 as [|b rows _ IH Hall]; simpl; constructor; [|exact IH].
  intros Hin. apply in_map_iff in Hin. destruct Hin as [c [Hc Hin]].
  rewrite Forall_forall in Hall. specialize (Hall c).
  unfold earlier in Hall.
  assert (time b < time c)%Z by (apply Hall; now apply list_elem_of_In).
  lia.
Qed.

(** *** One fetch *)

Lemma agg_tick_after (lo bt : Z) (t : Tick) (groups : list Bar) :
  (lo < bt)%Z ->
  Forall (fun x => (lo < time x)%Z) groups ->
  Forall (fun x => (lo < time x)%Z) (agg_tick bt t groups).
Proof.
  intros Hlo. induction 1 as [|b rest Hb Hrest IH]; simpl.
  - constructor; [exact Hlo|constructor].
  - destruct (bt <? time b)%Z; [|destruct (bt =? time b)%Z].
    + constructor; [exact Hlo|]. constructor; assumption.
    + constructor; [exact Hb|assumption].
    + constructor; assumption.
Qed.

Lemma agg_tick_increasing (bt : Z) (t : Tick) (groups : list Bar) :
  increasing groups -> increasing (agg_tick bt t groups).
Proof.
  induction 1 as [|b rest Hs IH Hall]; simpl.
  - constructor; constructor.
  - destruct (Z.ltb_spec bt (time b)) as [Hlt|Hge].
    + constructor; [constructor; assumption|].
      constructor; [exact Hlt|].
      eapply List.Forall_impl; [|exact Hall].
      unfold earlier; simpl; intros c Hc; lia.
    + destruct (Z.eqb_spec bt (time b)) as [Heq|Hne].
      * constructor; [assumption|].
        eapply List.Forall_impl; [|exact Hall]. unfold earlier; simpl; auto.
      * constructor; [assumption|].
        apply (agg_tick_after (time b)); [lia|exact Hall].
Qed.

Lemma first_row_ohlc (bt : Z) (t : Tick) : ohlc_ok (first_row bt t).
Proof. unfold ohlc_ok, first_row; simpl. repeat split; apply Qle_refl. Qed.

Lemma next_row_ohlc (b : Bar) (t : Tick) : ohlc_ok b -> ohlc_ok (next_row b t).
Proof.
  unfold ohlc_ok, next_row; simpl. intros (Hlo & Hoh & Hlc & Hch).
  pose proof (pymax_ge_l (high b) (bid_ask_avg t)).
  pose proof (pymax_ge_r (high b) (bid_ask_avg t)).
  pose proof (pymin_le_l (low b) (bid_ask_avg t)).
  pose proof (pymin_le_r (low b) (bid_ask_avg t)).
  repeat split; lra.
Qed.

Lemma agg_tick_ohlc (bt : Z) (t : Tick) (groups : list Bar) :
  Forall ohlc_ok groups -> Forall ohlc_ok (agg_tick bt t groups).
Proof.
  induction 1 as [|b rest Hb Hrest IH]; simpl.
  - constructor; [apply first_row_ohlc|constructor].
  - destruct (bt <? time b)%Z; [|destruct (bt =? time b)%Z].
    + constructor; [apply first_row_ohlc|]. constructor; assumption.
    + constructor; [now apply next_row_ohlc|assumption].
    + constructor; assumption.
Qed.

Lemma fetch_ok (interval_seconds : Z) (ticks : list Tick) :
  increasing (get_custom_bars_from_ticks interval_seconds ticks)
  /\ Forall ohlc_ok (get_custom_bars_from_ticks interval_seconds ticks).
Proof.
  unfold get_custom_bars_from_ticks.
  assert (G : forall groups,
             increasing groups -> Forall ohlc_ok groups ->
             increasing
               (fold_left
                  (fun g t => agg_tick (bar_time interval_seconds t) t g)
                  ticks groups)
             /\ Forall ohlc_ok
                  (fold_left
                     (fun g t => agg_tick (bar_time interval_seconds t) t g)
                     ticks groups)).
  { induction ticks as [|t ticks IH]; intros groups Hi Ho; simpl.
    - split; assumption.
    - apply IH; [now apply agg_tick_increasing|now apply agg_tick_ohlc]. }
  apply G; constructor.
Qed.

(** Three ticks, the first two in the bucket that starts at 0 s and the
    third in the bucket that starts at 5 s. *)
Example two_buckets :
  get_custom_bars_from_ticks 5
    [mkTick 1000 10 12 1; mkTick 4999 8 10 2; mkTick 5000 9 9 4]
  = [mkBar 0 ((10 + 12) / 2) ((10 + 12) / 2) ((8 + 10) / 2) ((8 + 10) / 2)
           (1 + 2) None None None;
     mkBar 5000000000 ((9 + 9) / 2) ((9 + 9) / 2) ((9 + 9) / 2) ((9 + 9) / 2)
           4 None None None].
Proof. reflexivity. Qed.

(** A tick of an earlier bucket delivered late still lands in its own
    group, and the groups come out in time order. *)
Example late_tick :
  map time
    (get_custom_bars_from_ticks 5
       [mkTick 6000 9 9 1; mkTick 1000 10 12 1; mkTick 11000 7 7 1])
  = [0; 5000000000; 10000000000]%Z.
Proof. reflexivity. Qed.

(** *** The merge *)

Lemma insert_row_head (b : Bar) (rows : list Bar) :
  Forall (earlier b) rows -> insert_row b rows = b :: rows.
Proof.
  destruct rows as [|c rows]; simpl; [reflexivity|].
  intros H. inversion H as [|? ? Hc _]; subst. unfold earlier in Hc.
  destruct (Z.leb_spec (time b) (time c)); [reflexivity|lia].
Qed.

Lemma sort_index_sorted (rows : list Bar) :
  increasing rows -> sort_index rows = rows.
Proof.
  unfold sort_index.
  induction 1 as [|b rows _ IH Hall]; simpl; [reflexivity|].
  rewrite IH. now apply insert_row_head.
Qed.

Lemma index_max_bound (rows : list Bar) (m : Z) :
  index_max rows = Some m -> Forall (fun b => (time b <= m)%Z) rows.
Proof.
  assert (G : forall rest init,
             (init <= fold_left (fun m c => Z.max m (time c)) rest init)%Z
             /\ Forall (fun b =>
                  (time b <= fold_left (fun m c => Z.max m (time c)) rest init)%Z)
                  rest).
  { induction rest as [|c rest IH]; intros init; simpl.
    - split; [lia|constructor].
    - destruct (IH (Z.max init (time c))) as [Hi Hr].
      split; [lia|]. constructor; [lia|exact Hr]. }
  destruct rows as [|b rest]; simpl; [discriminate|].
  intros [= <-]. destruct (G rest (time b)) as [Hi Hr].
  constructor; assumption.
Qed.

Lemma initial_window_ok : window_ok initial_window.
Proof. split; simpl; [constructor|constructor|reflexivity]. Qed.

Lemma concat_increasing (w : Window) (new_bars : list Bar) :
  window_ok w -> increasing new_bars ->
  increasing (all_custom_bars w
              ++ List.filter (after (last_processed_bar_time w)) new_bars).
Proof.
  intros [Hi _ Hl] Hn.
  apply StronglySorted_app. split; [|split].
  - intros x1 x2 H1 H2.
    apply list_elem_of_In, filter_In in H2. destruct H2 as [_ Ha].
    destruct (last_processed_bar_time w) as [ts|].
    + rewrite Forall_forall in Hl. specialize (Hl x1 H1).
      simpl in Ha. apply Z.ltb_lt in Ha. unfold earlier. lia.
    + rewrite Hl in H1. inversion H1.
  - exact Hi.
  - eapply increasing_sublist; [apply filter_is_sublist|exact Hn].
Qed.

Lemma merge_new_bars_ok (w : Window) (new_bars : list Bar) :
  window_ok w -> increasing new_bars -> Forall ohlc_ok new_bars ->
  window_ok (merge_new_bars w new_bars).
Proof.
  intros Hw Hn Ho. unfold merge_new_bars.
  destruct new_bars as [|n0 new_rest] eqn:En; [exact Hw|]. rewrite <- En in *.
  pose proof (concat_increasing w new_bars Hw Hn) as Hcat.
  set (fresh := List.filter (after (last_processed_bar_time w)) new_bars) in *.
  destruct fresh as [|f0 fresh_rest] eqn:Ef; [exact Hw|]. rewrite <- Ef in *.
  set (deduped := drop_duplicates (all_custom_bars w ++ fresh)).
  assert (Hsub : sublist deduped (all_custom_bars w ++ fresh))
    by apply drop_from_is_sublist.
  assert (Hdi : increasing deduped) by (eapply increasing_sublist; eassumption).
  assert (Hdo : Forall ohlc_ok deduped).
  { eapply Forall_sublist; [exact Hsub|].
    apply Forall_app. split; [apply (ok_ohlc w Hw)|].
    eapply Forall_sublist; [apply filter_is_sublist|exact Ho]. }
  rewrite (sort_index_sorted deduped Hdi).
  assert (Hkept : sublist
            (if (Const.bars_needed <? length deduped)%nat
             then iloc_last Const.bars_needed deduped else deduped) deduped).
  { destruct (Const.bars_needed <? length deduped)%nat; [apply sublist_drop|].
    reflexivity. }
  split; simpl.
  - eapply increasing_sublist; eassumption.
  - eapply Forall_sublist; eassumption.
  - destruct (index_max deduped) as [m|] eqn:Em.
    + eapply Forall_sublist; [exact Hkept|]. now apply index_max_bound.
    + destruct deduped; [|discriminate].
      destruct (Const.bars_needed <? length [])%nat; reflexivity.
Qed.

Lemma assign_columns_Forall (P : Bar -> Prop) (rows : list Bar)
    (cols : list Columns) :
  (forall b c, P b -> P (with_columns b c)) ->
  Forall P rows -> Forall P (assign_columns rows cols).
Proof.
  intros HP H. revert cols.
  induction H as [|b rows Hb Hrows IH]; intros cols; simpl.
  - destruct cols; constructor.
  - destruct cols as [|c cols]; constructor; auto.
Qed.

Lemma with_columns_time (b : Bar) (c : Columns) : time (with_columns b c) = time b.
Proof. destruct c as [[r k] d]; reflexivity. Qed.

Lemma with_columns_ohlc (b : Bar) (c : Columns) :
  ohlc_ok b -> ohlc_ok (with_columns b c).
Proof. destruct c as [[r k] d]; auto. Qed.

Lemma assign_columns_increasing (rows : list Bar) (cols : list Columns) :
  increasing rows -> increasing (assign_columns rows cols).
Proof.
  intros H. revert cols.
  induction H as [|b rows Hs IH Hall]; intros cols; simpl.
  - destruct cols; constructor.
  - destruct cols as [|c cols]; [constructor; assumption|].
    constructor; [apply IH|].
    apply assign_columns_Forall.
    + intros x y. unfold earlier. now rewrite !with_columns_time.
    + eapply List.Forall_impl; [|exact Hall].
      intros x. unfold earlier. now rewrite with_columns_time.
Qed.

Lemma pass_ok (w : Window) (p : Pass) : window_ok w -> window_ok (pass w p).
Proof.
  intros Hw. unfold pass, ingest.
  destruct (fetch_ok Const.TICK_BAR_INTERVAL_SECONDS (fetched p)) as [Hi Ho].
  pose proof (merge_new_bars_ok w _ Hw Hi Ho) as [Mi Mo Ml].
  destruct (computed p) as [cols|]; [|split; assumption].
  split; simpl.
  - now apply assign_columns_increasing.
  - apply assign_columns_Forall; [apply with_columns_ohlc|exact Mo].
  - destruct (last_processed_bar_time _) as [ts|].
    + apply assign_columns_Forall; [|exact Ml].
      intros b c. now rewrite with_columns_time.
    + rewrite Ml. reflexivity.
Qed.

Lemma run_passes_ok (ps : list Pass) (w : Window) :
  window_ok w -> window_ok (run_passes w ps).
Proof.
  revert w. unfold run_passes.
  induction ps as [|p ps IH]; intros w Hw; simpl; [exact Hw|].
  apply IH. now apply pass_ok.
Qed.

(** C5.  Whatever ticks the venue delivers, over any number of passes of
    the loop: the bars built from one fetch, and the bars of the retained
    window, have strictly increasing bar times without repetition, and
    every bar has its open and its close between its low and its high
    (all four being mid prices [(bid + ask) / 2] of ticks). *)
Theorem bars_increasing_unique_ohlc (ticks : list Tick) (ps : list Pass) :
  let built := get_custom_bars_from_ticks Const.TICK_BAR_INTERVAL_SECONDS ticks in
  let kept := all_custom_bars (run_passes initial_window ps) in
  (increasing built /\ List.NoDup (map time built) /\ Forall ohlc_ok built)
  /\ (increasing kept /\ List.NoDup (map time kept) /\ Forall ohlc_ok kept).
Proof.
  intros built kept.
  destruct (fetch_ok Const.TICK_BAR_INTERVAL_SECONDS ticks) as [Bi Bo].
  destruct (run_passes_ok ps initial_window initial_window_ok) as [Ki Ko _].
  split; (split; [|split]); auto using increasing_NoDup.
Qed.

End BarsFacts.

(** ** RSI *)

Module IndicatorsFacts.
Import Indicators.

Lemma nth_error_zip_with {A B C : Type} (f : A -> B -> C)
    (xs : list A) (ys : list B) (i : nat) :
  nth_error (zip_with f xs ys) i =
  match nth_error xs i, nth_error ys i with
  | Some x, Some y => Some (f x y)
  | _, _ => None
  end.
Proof.
  revert ys i. induction xs as [|x xs IH]; intros ys i; simpl.
  - destruct i; reflexivity.
  - destruct ys as [|y ys]; simpl.
    + destruct i; simpl; [reflexivity|]. now destruct (nth_error xs i).
    + destruct i; simpl; [reflexivity|apply IH].
Qed.

(** The entry of the RSI series when the average loss is zero. *)
Lemma rsi_entry_no_loss_gain (g l : Q) :
  l == 0 -> 0 < g -> rsi_entry (Fin g) (Fin l) = 100.
Proof.
  intros Hl Hg.
  assert (E : fdiv (Fin g) (Fin l) = PosInf).
  { simpl. apply Qeq_bool_iff in Hl. rewrite Hl.
    assert (Hg0 : Qeq_bool g 0 = false) by (apply Qeq_bool_false; lra).
    rewrite Hg0. apply Qltb_lt in Hg. now rewrite Hg. }
  unfold rsi_entry. rewrite E. reflexivity.
Qed.

Lemma rsi_entry_no_loss_no_gain (g l : Q) :
  l == 0 -> g == 0 -> rsi_entry (Fin g) (Fin l) = 0.
Proof.
  intros Hl Hg.
  assert (E : fdiv (Fin g) (Fin l) = NaN).
  { simpl. apply Qeq_bool_iff in Hl. rewrite Hl.
    apply Qeq_bool_iff in Hg. now rewrite Hg. }
  unfold rsi_entry. rewrite E. reflexivity.
Qed.

(** Averages of gains are never negative. *)
Lemma alpha_bounds (period : nat) :
  0 <= 1 / inject_Z (Z.of_nat period) /\ 1 / inject_Z (Z.of_nat period) <= 1.
Proof.
  destruct period as [|n].
  - split; unfold Qle; simpl; lia.
  - split; unfold Qle, Qdiv, Qmult, Qinv, inject_Z; simpl; lia.
Qed.

Lemma ewm_from_nonneg (alpha prev : Q) (xs : list Q) :
  0 <= alpha -> alpha <= 1 -> 0 <= prev -> Forall (Qle 0) xs ->
  Forall (Qle 0) (ewm_from alpha prev xs).
Proof.
  intros Ha0 Ha1 Hp H. revert prev Hp.
  induction H as [|x xs Hx Hxs IH]; intros prev Hp; simpl; constructor.
  - assert (0 <= (1 - alpha) * prev) by (apply Qmult_le_0_compat; lra).
    assert (0 <= alpha * x) by (apply Qmult_le_0_compat; lra).
    lra.
  - apply IH.
    assert (0 <= (1 - alpha) * prev) by (apply Qmult_le_0_compat; lra).
    assert (0 <= alpha * x) by (apply Qmult_le_0_compat; lra).
    lra.
Qed.

Lemma mask_from_nonneg (i min_periods : nat) (ys : list Q) :
  Forall (Qle 0) ys -> Forall nonneg (mask_from i min_periods ys).
Proof.
  intros H. revert i.
  induction H as [|y ys Hy Hys IH]; intros i; simpl; constructor.
  - destruct (S i <? min_periods)%nat; simpl; auto.
  - apply IH.
Qed.

Lemma wilder_nonneg (period : nat) (xs : list Q) :
  Forall (Qle 0) xs -> Forall nonneg (wilder period xs).
Proof.
  intros H. unfold wilder. apply mask_from_nonneg.
  destruct (alpha_bounds period) as [Ha0 Ha1].
  destruct H as [|x xs Hx Hxs]; simpl; constructor; [exact Hx|].
  now apply ewm_from_nonneg.
Qed.

Lemma gain_of_nonneg (d : fval) : 0 <= gain_of d.
Proof.
  destruct d as [q| | |]; simpl; try lra.
  destruct (Qltb 0 q) eqn:E; [apply Qltb_lt in E|]; lra.
Qed.

Lemma avg_gain_nonneg (closes : list Q) (period i : nat) (g : Q) :
  nth_error (avg_gain closes period) i = Some (Fin g) -> 0 <= g.
Proof.
  intros H. apply nth_error_In in H.
  assert (F : Forall nonneg (avg_gain closes period)).
  { apply wilder_nonneg. apply List.Forall_forall.
    intros x Hx. apply in_map_iff in Hx. destruct Hx as [d [<- _]].
    apply gain_of_nonneg. }
  rewrite List.Forall_forall in F. exact (F _ H).
Qed.

(** C7, on a flat series: fifteen equal closes, period 14.  The average
    loss of the last bar is zero and its RSI is 0, not 100. *)
Lemma rsi_flat_series_counterexample :
  let closes := repeat (2000 : Q) 15 in
  (exists l, nth_error (avg_loss closes 14) 14 = Some (Fin l) /\ l == 0)
  /\ (exists r, calculate_rsi closes 14 = Some r
                /\ nth_error r 14 = Some 0 /\ ~ 0 == 100).
Proof.
  split.
  - eexists. split; [vm_compute; reflexivity|reflexivity].
  - eexists. split; [vm_compute; reflexivity|].
    split; [reflexivity|discriminate].
Qed.

(** C7, as the code has it.  On a series long enough for
    [calculate_rsi], at a bar where the smoothed average loss is zero:
    the RSI is 100 when the smoothed average gain is not zero, and 0 when
    it is zero as well. *)
Theorem rsi_zero_average_loss (closes : list Q) (period i : nat)
    (g l : Q) (r : list Q) :
  calculate_rsi closes period = Some r ->
  nth_error (avg_gain closes period) i = Some (Fin g) ->
  nth_error (avg_loss closes period) i = Some (Fin l) ->
  l == 0 ->
  (~ g == 0 -> nth_error r i = Some 100)
  /\ (g == 0 -> nth_error r i = Some 0).
Proof.
  unfold calculate_rsi. intros Hr Hg Hl Hz.
  destruct (length closes <? period + 1)%nat; [discriminate|].
  injection Hr as <-.
  rewrite nth_error_zip_with, Hg, Hl.
  pose proof (avg_gain_nonneg _ _ _ _ Hg) as Hpos.
  split; intros Hg0.
  - f_equal. apply rsi_entry_no_loss_gain; [exact Hz|].
    destruct (Qlt_le_dec 0 g) as [H|H]; [exact H|].
    exfalso. apply Hg0. lra.
  - f_equal. now apply rsi_entry_no_loss_no_gain.
Qed.

(** A rising series for the theorem above: the closes 1, 2, ..., 15. *)
Lemma rsi_zero_average_loss_witness :
  let closes := map (fun n => inject_Z (Z.of_nat n)) (seq 1 15) in
  exists g l r,
    calculate_rsi closes 14 = Some r
    /\ nth_error (avg_gain closes 14) 14 = Some (Fin g)
    /\ nth_error (avg_loss closes 14) 14 = Some (Fin l)
    /\ l == 0
    /\ (~ g == 0 -> nth_error r 14 = Some 100)
    /\ (g == 0 -> nth_error r 14 = Some 0).
Proof.
  eexists _, _, _.
  assert (Hr : calculate_rsi (map (fun n => inject_Z (Z.of_nat n)) (seq 1 15)) 14
               = Some (zip_with rsi_entry
                         (avg_gain (map (fun n => inject_Z (Z.of_nat n)) (seq 1 15)) 14)
                         (avg_loss (map (fun n => inject_Z (Z.of_nat n)) (seq 1 15)) 14)))
    by reflexivity.
  split; [exact Hr|].
  split; [vm_compute; reflexivity|].
  split; [vm_compute; reflexivity|].
  split; [reflexivity|].
  eapply rsi_zero_average_loss;
    [exact Hr|vm_compute; reflexivity|vm_compute; reflexivity|reflexivity].
Defined.

End IndicatorsFacts.

(** ** Configuration file *)

Module ConfigFacts.
Import Config.

Lemma load_takes_risk_as_written (s : Settings) (config : gmap string Q) (v : Q) :
  config !! "RISK_PERCENT_PER_TRADE" = Some v ->
  RISK_PERCENT_PER_TRADE (fst (load_config_from_file s (Object config))) = v.
Proof. intros H. simpl. unfold get. now rewrite H. Qed.

(** C6.  A file asking for half the equity per trade: the bot's loader
    takes 0.5 as it is, at start-up and on the periodic reload, while the
    loader of the repository's other bot caps the same entry at 0.015. *)
Theorem load_config_does_not_clamp_risk :
  RISK_PERCENT_PER_TRADE
    (fst (load_config_from_file class_settings Scenario.half_equity_file))
  = 1 # 2
  /\ snd (load_config_from_file class_settings Scenario.half_equity_file) = true
  /\ RISK_PERCENT_PER_TRADE
       (fst (reload_if_due class_settings 0 30 Scenario.half_equity_file))
     = 1 # 2
  /\ Ultra.U_RISK_PERCENT_PER_TRADE
       (Ultra.load_configuration Ultra.ultra_defaults Scenario.half_equity_file)
     = 15 # 1000.
Proof.
  assert (L : ({[ "RISK_PERCENT_PER_TRADE" := 1 # 2 ]} : gmap string Q)
                !! "RISK_PERCENT_PER_TRADE" = Some (1 # 2))
    by apply lookup_singleton_eq.
  split; [|split; [|split]].
  - now apply load_takes_risk_as_written.
  - reflexivity.
  - unfold reload_if_due.
    replace (Qgeb (30 - 0) 30) with true by reflexivity.
    now apply load_takes_risk_as_written.
  - unfold Scenario.half_equity_file, Ultra.load_configuration.
    rewrite L. reflexivity.
Qed.

End ConfigFacts.

(** ** Entry signals *)

Module StrategyFacts.
Import Strategy.

Ltac split_andb H :=
  repeat (let H' := fresh "C" in
          apply andb_prop in H; destruct H as [H H']).

Lemma buy_order_some (s : Settings) (sym : SymbolInfo) (x : Snapshot)
    (c : string) (o : Order) :
  buy_order s sym x c = Some o ->
  order_type o = ORDER_TYPE_BUY
  /\ price o = live_ask_price x
  /\ tp o = price o + dynamic_tp_points s (current_atr x) * point_value sym
  /\ comment o = c.
Proof.
  unfold buy_order. destruct (Qle_bool _ 0); [discriminate|].
  intros [= <-]. simpl. auto.
Qed.

Lemma sell_order_some (s : Settings) (sym : SymbolInfo) (x : Snapshot)
    (c : string) (o : Order) :
  sell_order s sym x c = Some o ->
  order_type o = ORDER_TYPE_SELL
  /\ price o = live_bid_price x
  /\ tp o = price o - dynamic_tp_points s (current_atr x) * point_value sym
  /\ comment o = c.
Proof.
  unfold sell_order. destruct (Qle_bool _ 0); [discriminate|].
  intros [= <-]. simpl. auto.
Qed.

(** An order comes from one of the four rules. *)
Lemma new_entry_cases (s : Settings) (sym : SymbolInfo) (t : Timers)
    (x : Snapshot) (o : Order) :
  new_entry s sym t x = Some o ->
  exists ma c,
    m5_ma x = Some ma
    /\ (((dip_buy s ma t x = true \/ continuation_buy s ma t x = true)
         /\ buy_order s sym x c = Some o)
        \/ ((rally_sell s ma t x = true \/ continuation_sell s ma t x = true)
            /\ sell_order s sym x c = Some o)).
Proof.
  unfold new_entry.
  destruct (Qltb (now x - _) _); [discriminate|].
  destruct (Qltb (MAX_SPREAD_POINTS s) _); [discriminate|].
  destruct (m5_ma x) as [ma|]; [|discriminate].
  destruct (dip_buy s ma t x) eqn:E1; [eauto 8|].
  destruct (continuation_buy s ma t x) eqn:E2; [eauto 8|].
  destruct (rally_sell s ma t x) eqn:E3; [eauto 8|].
  destruct (continuation_sell s ma t x) eqn:E4; [eauto 8|discriminate].
Qed.

Lemma buy_rules_cross (s : Settings) (ma : Q) (t : Timers) (x : Snapshot) :
  dip_buy s ma t x = true \/ continuation_buy s ma t x = true ->
  current_percent_d x < current_percent_k x
  /\ prev_percent_k x <= prev_percent_d x.
Proof.
  intros [H|H]; [unfold dip_buy in H|unfold continuation_buy in H];
    split_andb H;
    match goal with
    | K : Qltb (current_percent_d x) (current_percent_k x) = true,
      P : Qle_bool (prev_percent_k x) (prev_percent_d x) = true |- _ =>
        apply Qltb_lt in K; apply Qle_bool_iff in P; auto
    end.
Qed.

Lemma sell_rules_cross (s : Settings) (ma : Q) (t : Timers) (x : Snapshot) :
  rally_sell s ma t x = true \/ continuation_sell s ma t x = true ->
  current_percent_k x < current_percent_d x
  /\ prev_percent_d x <= prev_percent_k x.
Proof.
  intros [H|H]; [unfold rally_sell in H|unfold continuation_sell in H];
    split_andb H;
    match goal with
    | K : Qltb (current_percent_k x) (current_percent_d x) = true,
      P : Qle_bool (prev_percent_d x) (prev_percent_k x) = true |- _ =>
        apply Qltb_lt in K; apply Qle_bool_iff in P; auto
    end.
Qed.

(** C8, on a snapshot whose previous bar has %K = %D = 20: the dip-buy
    rule takes it as a cross and the loop sends a buy order. *)
Lemma equal_previous_bar_counterexample :
  prev_percent_k Scenario.touching_cross
    == prev_percent_d Scenario.touching_cross
  /\ exists o,
       new_entry class_settings Scenario.gold Scenario.idle_timers
                 Scenario.touching_cross = Some o
       /\ order_type o = ORDER_TYPE_BUY
       /\ comment o = "RSI+Stoch+MA_DipBuy_TrendGOLD"%string.
Proof.
  split; [reflexivity|].
  eexists. split; [vm_compute; reflexivity|]. split; reflexivity.
Qed.

(** C8, as the code has it.  Every order the entry rules send saw %K
    strictly on the new side of %D on the current bar and on the old side
    of it or equal to it on the previous bar: above then at-or-below for a
    buy, below then at-or-above for a sell. *)
Theorem entry_cross_rule (s : Settings) (sym : SymbolInfo) (t : Timers)
    (x : Snapshot) (o : Order) :
  new_entry s sym t x = Some o ->
  match order_type o with
  | ORDER_TYPE_BUY =>
      current_percent_d x < current_percent_k x
      /\ prev_percent_k x <= prev_percent_d x
  | ORDER_TYPE_SELL =>
      current_percent_k x < current_percent_d x
      /\ prev_percent_d x <= prev_percent_k x
  end.
Proof.
  intros H. apply new_entry_cases in H.
  destruct H as (ma & c & _ & [[Hrule Ho]|[Hrule Ho]]).
  - apply buy_order_some in Ho. destruct Ho as (-> & _).
    eapply buy_rules_cross; eassumption.
  - apply sell_order_some in Ho. destruct Ho as (-> & _).
    eapply sell_rules_cross; eassumption.
Qed.

Lemma entry_cross_rule_witness :
  exists o,
    new_entry class_settings Scenario.gold Scenario.idle_timers
              Scenario.touching_cross = Some o
    /\ match order_type o with
       | ORDER_TYPE_BUY =>
           current_percent_d Scenario.touching_cross
             < current_percent_k Scenario.touching_cross
           /\ prev_percent_k Scenario.touching_cross
                <= prev_percent_d Scenario.touching_cross
       | ORDER_TYPE_SELL =>
           current_percent_k Scenario.touching_cross
             < current_percent_d Scenario.touching_cross
           /\ prev_percent_d Scenario.touching_cross
                <= prev_percent_k Scenario.touching_cross
       end.
Proof.
  eexists. split; [vm_compute; reflexivity|].
  apply (entry_cross_rule class_settings Scenario.gold Scenario.idle_timers
           Scenario.touching_cross).
  vm_compute; reflexivity.
Defined.

(** The take-profit distance is the requested one inside the band and
    the nearer end of the band outside it. *)
Lemma dynamic_tp_points_clamped (s : Settings) (atr : Q) :
  let wanted := atr * Const.DYNAMIC_TP_ATR_MULTIPLIER in
  let d := dynamic_tp_points s (Some atr) in
  Const.MIN_DYNAMIC_TP_POINTS <= d
  /\ d <= Const.MAX_DYNAMIC_TP_POINTS
  /\ (Const.MIN_DYNAMIC_TP_POINTS <= wanted ->
      wanted <= Const.MAX_DYNAMIC_TP_POINTS -> d == wanted)
  /\ (wanted < Const.MIN_DYNAMIC_TP_POINTS ->
      d == Const.MIN_DYNAMIC_TP_POINTS)
  /\ (Const.MAX_DYNAMIC_TP_POINTS < wanted ->
      d == Const.MAX_DYNAMIC_TP_POINTS).
Proof.
  intros wanted d. subst d. unfold dynamic_tp_points. fold wanted.
  unfold pymax, pymin, Const.MIN_DYNAMIC_TP_POINTS, Const.MAX_DYNAMIC_TP_POINTS.
  destruct (Qltb wanted 1000) eqn:E1;
    [apply Qltb_lt in E1|apply Qltb_ge in E1].
  - destruct (Qltb 50 wanted) eqn:E2;
      [apply Qltb_lt in E2|apply Qltb_ge in E2];
      repeat split; intros; lra.
  - replace (Qltb 50 1000) with true by reflexivity.
    repeat split; intros; lra.
Qed.

(** C10.  Every order the entry rules send is priced at the ask (buy)
    or the bid (sell) and carries, as take-profit, that price plus (buy)
    or minus (sell) a distance in points times the point value; the
    distance is TP_POINTS without an ATR, and otherwise ATR times
    DYNAMIC_TP_ATR_MULTIPLIER brought into the band from
    MIN_DYNAMIC_TP_POINTS to MAX_DYNAMIC_TP_POINTS. *)
Theorem entry_take_profit (s : Settings) (sym : SymbolInfo) (t : Timers)
    (x : Snapshot) (o : Order) :
  new_entry s sym t x = Some o ->
  exists d : Q,
    match current_atr x with
    | None => d = TP_POINTS s
    | Some atr =>
        let wanted := atr * Const.DYNAMIC_TP_ATR_MULTIPLIER in
        Const.MIN_DYNAMIC_TP_POINTS <= d
        /\ d <= Const.MAX_DYNAMIC_TP_POINTS
        /\ (Const.MIN_DYNAMIC_TP_POINTS <= wanted ->
            wanted <= Const.MAX_DYNAMIC_TP_POINTS -> d == wanted)
        /\ (wanted < Const.MIN_DYNAMIC_TP_POINTS ->
            d == Const.MIN_DYNAMIC_TP_POINTS)
        /\ (Const.MAX_DYNAMIC_TP_POINTS < wanted ->
            d == Const.MAX_DYNAMIC_TP_POINTS)
    end
    /\ match order_type o with
       | ORDER_TYPE_BUY =>
           price o = live_ask_price x
           /\ tp o = price o + d * point_value sym
       | ORDER_TYPE_SELL =>
           price o = live_bid_price x
           /\ tp o = price o - d * point_value sym
       end.
Proof.
  intros H. exists (dynamic_tp_points s (current_atr x)). split.
  - destruct (current_atr x) as [atr|]; [|reflexivity].
    apply dynamic_tp_points_clamped.
  - apply new_entry_cases in H.
    destruct H as (ma & c & _ & [[_ Ho]|[_ Ho]]).
    + apply buy_order_some in Ho. destruct Ho as (-> & Hp & Ht & _). auto.
    + apply sell_order_some in Ho. destruct Ho as (-> & Hp & Ht & _). auto.
Qed.

Lemma entry_take_profit_witness :
  exists o,
    new_entry class_settings Scenario.gold Scenario.idle_timers
              Scenario.touching_cross = Some o
    /\ exists d : Q,
         match current_atr Scenario.touching_cross with
         | None => d = TP_POINTS class_settings
         | Some atr =>
             let wanted := atr * Const.DYNAMIC_TP_ATR_MULTIPLIER in
             Const.MIN_DYNAMIC_TP_POINTS <= d
             /\ d <= Const.MAX_DYNAMIC_TP_POINTS
             /\ (Const.MIN_DYNAMIC_TP_POINTS <= wanted ->
                 wanted <= Const.MAX_DYNAMIC_TP_POINTS -> d == wanted)
             /\ (wanted < Const.MIN_DYNAMIC_TP_POINTS ->
                 d == Const.MIN_DYNAMIC_TP_POINTS)
             /\ (Const.MAX_DYNAMIC_TP_POINTS < wanted ->
                 d == Const.MAX_DYNAMIC_TP_POINTS)
         end
         /\ match order_type o with
            | ORDER_TYPE_BUY =>
                price o = live_ask_price Scenario.touching_cross
                /\ tp o = price o + d * point_value Scenario.gold
            | ORDER_TYPE_SELL =>
                price o = live_bid_price Scenario.touching_cross
                /\ tp o = price o - d * point_value Scenario.gold
            end.
Proof.
  eexists. split; [vm_compute; reflexivity|].
  apply (entry_take_profit class_settings Scenario.gold Scenario.idle_timers
           Scenario.touching_cross).
  vm_compute; reflexivity.
Defined.

End StrategyFacts.

(** ** Position management *)

Module RiskFacts.
Import Risk.

Lemma profit_is_minus_adverse (sym : SymbolInfo) (p : Position) (bid ask : Q) :
  profit_points sym p bid ask
    == - current_adverse_excursion_points sym p bid ask.
Proof.
  unfold profit_points, current_adverse_excursion_points, Qdiv.
  destruct (type_ p); ring.
Qed.

Lemma better_stop_buy (new current : Q) :
  better_stop ORDER_TYPE_BUY new current = true <-> current < new.
Proof. apply Qltb_lt. Qed.

Lemma better_stop_sell (new current : Q) :
  better_stop ORDER_TYPE_SELL new current = true <-> new < current.
Proof. apply Qltb_lt. Qed.

(** The stop rules only modify stops. *)
Lemma stop_rules_move_stops (s : Settings) (sym : SymbolInfo) (m : Market)
    (p : Position) (profit adverse bid ask : Q) :
  Forall (fun c => moves_stop c = true)
         (stop_rules s sym m p profit adverse bid ask).
Proof.
  unfold stop_rules. apply Forall_app. split.
  - destruct (Qltb profit 0 && Qgeb adverse _).
    + unfold aggressive_rule. destruct (momentum_confirmed _ _ m p); [|constructor].
      destruct (match type_ p with
                | ORDER_TYPE_BUY => _
                | ORDER_TYPE_SELL => _
                end); repeat constructor.
    + destruct (Qgeb profit _); [|constructor].
      unfold break_even_rule. destruct (better_stop _ _ _); repeat constructor.
  - unfold trailing_rule. destruct (current_atr m); [|constructor].
    destruct (Qltb _ profit); [|constructor].
    destruct (_ && _); repeat constructor.
Qed.

(** The partial-profit step comes first in what the body does, and
    nothing after it closes a part of the position. *)
Lemma manage_position_starts_with_partial (s : Settings) (sym : SymbolInfo)
    (m : Market) (tr : option Tracked) (v : Venue) (p : Position) (bid ask : Q) :
  symbol_info_tick v = Some (bid, ask) ->
  let taken := match tr with
               | Some t => partial_profit_taken t
               | None => false
               end in
  exists rest,
    calls (manage_position s sym m tr v p)
    = calls (partial_profit_step sym taken (partial_close v) p
               (profit_points sym p bid ask)) ++ rest
    /\ Forall (fun c => closes_part c = false) rest.
Proof.
  intros Ht taken. unfold manage_position. rewrite Ht. fold taken.
  destruct (raised (partial_profit_step sym taken _ p _)).
  - exists []. split; [now rewrite app_nil_r|constructor].
  - destruct (time_exit_fires s _ _ _);
      [eexists; split; [reflexivity|repeat constructor]|].
    destruct (kill_switch_fires _);
      [eexists; split; [reflexivity|repeat constructor]|].
    eexists; split; [reflexivity|].
    eapply List.Forall_impl; [|apply stop_rules_move_stops].
    intros [t o r|t a b]; simpl; [discriminate|reflexivity].
Qed.

(** *** The kill switch (C2) *)




(** *** Partial profit (C4) *)

(** On 0.15 lots at a venue whose minimum is 0.10 and step 0.01, at a
    profit of exactly 150 points: half the volume rounded down to the
    step is 0.07, and the manager closes nothing; its only call is the
    break-even move. *)
Lemma partial_skipped_counterexample :
  let p := Scenario.long_at_trigger (15 # 100) in
  let sym := Scenario.gold_min_tenth in
  profit_points sym p (200150 # 100) (200160 # 100)
    == Const.PARTIAL_PROFIT_TRIGGER_POINTS
  /\ volume_min sym < volume p
  /\ floordiv (volume p * Const.PARTIAL_PROFIT_PERCENTAGE) (volume_step sym)
       * volume_step sym == 7 # 100
  /\ partial_profit_step sym false (close_done true) p
       (profit_points sym p (200150 # 100) (200160 # 100))
     = mkOutcome [] false false
  /\ calls (manage_position class_settings sym Scenario.no_market
              (Some (mkTracked 2000 (199850 # 100) ORDER_TYPE_BUY 2005 0 false))
              (mkVenue (Some (200150 # 100, 200160 # 100)) 60 (close_done true))
              p)
     = [modify_position_sl_tp 3 (be_level sym p) 2005].
Proof.
  repeat split; vm_compute; reflexivity.
Qed.

(** The partial close as the code has it.  At a profit equal to the
    trigger, with no partial taken and more than the venue minimum held,
    the amount is what [volume_to_close] works out.  If what would
    remain is at least the venue minimum, or less than half a step, the
    manager asks to close that amount, before anything else it does for
    the position; otherwise it asks for no partial close.  The stop
    goes to the entry price plus (long) or minus (short) the break-even
    buffer when the close was done and that stop is strictly better
    than the one in place, and not otherwise.  Nothing else the manager
    does for the position in that pass closes a part of it. *)
Lemma partial_profit_take (s : Settings) (sym : SymbolInfo) (m : Market)
    (tr : option Tracked) (v : Venue) (p : Position) (bid ask : Q) :
  symbol_info_tick v = Some (bid, ask) ->
  profit_points sym p bid ask == Const.PARTIAL_PROFIT_TRIGGER_POINTS ->
  match tr with Some t => partial_profit_taken t | None => false end = false ->
  volume_min sym < volume p ->
  let amount := volume_to_close sym (volume p) in
  let remainder := volume p - amount in
  let target :=
    match type_ p with
    | ORDER_TYPE_BUY =>
        price_open p + Const.BREAK_EVEN_BUFFER_POINTS * point_value sym
    | ORDER_TYPE_SELL =>
        price_open p - Const.BREAK_EVEN_BUFFER_POINTS * point_value sym
    end in
  let better :=
    match type_ p with
    | ORDER_TYPE_BUY => sl p < target
    | ORDER_TYPE_SELL => target < sl p
    end in
  let closing := close_position (ticket p) (Some amount) "PARTIAL PROFIT" in
  exists first rest,
    calls (manage_position s sym m tr v p) = first ++ rest
    /\ Forall (fun c => closes_part c = false) rest
    /\ (remainder < volume_min sym -> volume_step sym / 2 <= remainder ->
        first = [])
    /\ (volume_min sym <= remainder \/ remainder < volume_step sym / 2 ->
        (partial_close v = close_done true -> better ->
         first = [closing; modify_position_sl_tp (ticket p) target (tp p)])
        /\ (partial_close v = close_done true -> ~ better ->
            first = [closing])
        /\ (partial_close v <> close_done true -> first = [closing])).
Proof.
  intros Ht Hp Htaken Hv amount remainder target better closing.
  destruct (manage_position_starts_with_partial s sym m tr v p bid ask Ht)
    as [rest [Hrest Hnone]].
  rewrite Htaken in Hrest.
  exists (calls (partial_profit_step sym false (partial_close v) p
                   (profit_points sym p bid ask))), rest.
  split; [exact Hrest|]. split; [exact Hnone|].
  unfold partial_profit_step, partial_trigger.
  assert (E1 : Qgeb (profit_points sym p bid ask)
                    Const.PARTIAL_PROFIT_TRIGGER_POINTS = true)
    by (apply Qgeb_le; lra).
  assert (E2 : Qltb (volume_min sym) (volume p) = true)
    by now apply Qltb_lt.
  rewrite E1, E2. simpl negb. simpl andb.
  fold amount. fold remainder.
  unfold remainder_valid. fold remainder.
  change (new_sl_after_partial sym p) with target. fold closing.
  assert (Hbetter : better_stop (type_ p) target (sl p) = true <-> better).
  { unfold better_stop, better. destruct (type_ p); split; intros H;
      first [now apply Qltb_lt in H | now apply Qltb_lt]. }
  assert (Hdone : (partial_close v = close_done true -> better ->
                   calls (match partial_close v with
                          | close_failed => mkOutcome [closing] false false
                          | close_done false => mkOutcome [closing] false true
                          | close_done true =>
                              if better_stop (type_ p) target (sl p)
                              then mkOutcome
                                     [closing;
                                      modify_position_sl_tp (ticket p) target
                                                            (tp p)]
                                     true false
                              else mkOutcome [closing] true false
                          end)
                   = [closing; modify_position_sl_tp (ticket p) target (tp p)])
                  /\ (partial_close v = close_done true -> ~ better ->
                      calls (match partial_close v with
                             | close_failed => mkOutcome [closing] false false
                             | close_done false => mkOutcome [closing] false true
                             | close_done true =>
                                 if better_stop (type_ p) target (sl p)
                                 then mkOutcome
                                        [closing;
                                         modify_position_sl_tp (ticket p)
                                                               target (tp p)]
                                        true false
                                 else mkOutcome [closing] true false
                             end)
                      = [closing])
                  /\ (partial_close v <> close_done true ->
                      calls (match partial_close v with
                             | close_failed => mkOutcome [closing] false false
                             | close_done false => mkOutcome [closing] false true
                             | close_done true =>
                                 if better_stop (type_ p) target (sl p)
                                 then mkOutcome
                                        [closing;
                                         modify_position_sl_tp (ticket p)
                                                               target (tp p)]
                                        true false
                                 else mkOutcome [closing] true false
                             end)
                      = [closing])).
  { split; [|split].
    - intros -> Hb. apply Hbetter in Hb. now rewrite Hb.
    - intros -> Hb.
      destruct (better_stop (type_ p) target (sl p)) eqn:B; [|reflexivity].
      exfalso. apply Hb, Hbetter. reflexivity.
    - intros Hn. destruct (partial_close v) as [|[|]]; try reflexivity.
      congruence. }
  destruct (Qgeb remainder (volume_min sym)) eqn:G;
    [apply Qgeb_le in G|apply Qle_bool_false in G].
  - simpl orb. cbv iota. split; [intros Hlt; lra|]. intros _. exact Hdone.
  - simpl orb.
    assert (E3 : Qltb remainder (volume_min sym) = true) by now apply Qltb_lt.
    rewrite E3. simpl andb.
    destruct (Qltb remainder (volume_step sym / 2)) eqn:H2;
      [apply Qltb_lt in H2|apply Qltb_ge in H2].
    + split; [intros _ Hge; lra|]. intros _. exact Hdone.
    + split; [reflexivity|]. intros [Hge|Hlt]; lra.
Qed.

(** C4, on a long of 1.00 lots from 2000.00, at a venue whose volume
    step and minimum are 0.01, with the bid at 2001.50: a profit of
    exactly 150 points, the trigger.  Half the volume is 0.50, a
    multiple of the step already.  The code rounds with a floor division
    of floats; the binary64 number for 0.01 is a little more than 0.01,
    the division gives 49 steps and not 50, and the manager asks to
    close 0.49 lots.  The stop then goes to 2000.22, by the partial
    close and once more by the break-even rule, which reads the stop as
    it was. *)
Theorem partial_close_takes_a_step_less :
  let p := Scenario.long_at_trigger 1 in
  let sym := Scenario.gold in
  let half := volume p * Const.PARTIAL_PROFIT_PERCENTAGE in
  profit_points sym p (200150 # 100) (200160 # 100)
    == Const.PARTIAL_PROFIT_TRIGGER_POINTS
  /\ volume_min sym < volume p
  /\ half == 50 # 100
  /\ floordiv half (volume_step sym) * volume_step sym == 50 # 100
  /\ volume_step sym < double (volume_step sym)
  /\ float_floordiv half (volume_step sym) == 49
  /\ exists amount new_sl again,
       fst (manage_positions class_settings (Some sym)
              (Bars.all_custom_bars (Scenario.falling_window 200181))
              (Scenario.venue_at (200150 # 100) (200160 # 100) 60)
              (Scenario.tracked_since 0 p) [p])
       = [close_position 3 (Some amount) "PARTIAL PROFIT";
          modify_position_sl_tp 3 new_sl 2005;
          modify_position_sl_tp 3 again 2005]
       /\ amount == 49 # 100
       /\ amount < floordiv half (volume_step sym) * volume_step sym
       /\ new_sl == 200022 # 100
       /\ again == 200022 # 100
       /\ sl p < new_sl.
Proof.
  cbv zeta. split; [reflexivity|]. split; [reflexivity|].
  split; [reflexivity|]. split; [reflexivity|].
  split; [vm_compute; reflexivity|]. split; [vm_compute; reflexivity|].
  eexists _, _, _. split; [vm_compute; reflexivity|].
  repeat split; vm_compute; reflexivity.
Qed.

(** *** The trailing stop (C9) *)

(** C9, on a long from 2000.00, 100 points in profit at a bid of
    2001.00, its stop at break-even (2000.22), over a window of 66 bars
    that each range over 0.50.  The ATR of the window is 0.50, a price
    range: 50 points.  The trailing rule multiplies it by the point
    value as if it were a number of points, and the stop sent is
    2000.995, half a point under the bid and between two prices of the
    venue, where the bid less ATR times ATR_MULTIPLIER is 2000.50. *)
Theorem trailing_stop_takes_price_range_as_points :
  let bars := Bars.all_custom_bars Scenario.ranging_window in
  let p := Scenario.long_in_profit in
  let sym := Scenario.gold in
  length bars = 66%nat
  /\ Forall (fun b => Bars.high b - Bars.low b == 1 # 2) bars
  /\ exists atr new_sl,
       current_atr (market_of bars) = Some atr
       /\ atr == 1 # 2
       /\ atr / point_value sym == 50
       /\ fst (manage_positions class_settings (Some sym) bars
                 (Scenario.venue_at 2001 (200110 # 100) 60)
                 (Scenario.tracked_since 0 p) [p])
          = [modify_position_sl_tp 4 new_sl 2005]
       /\ new_sl == 2000995 # 1000
       /\ 2001 - new_sl == atr * ATR_MULTIPLIER class_settings * point_value sym
       /\ (2001 - new_sl) / point_value sym == 1 # 2
       /\ 2001 - point_value sym < new_sl
       /\ new_sl < 2001
       /\ 2001 - atr * ATR_MULTIPLIER class_settings == 200050 # 100.
Proof.
  cbv zeta. split; [vm_compute; reflexivity|].
  split.
  - apply Forall_forall. intros b Hb.
    revert b Hb. apply Forall_forall.
    vm_compute. repeat constructor.
  - eexists _, _. split; [vm_compute; reflexivity|].
    split; [vm_compute; reflexivity|]. split; [vm_compute; reflexivity|].
    split; [vm_compute; reflexivity|].
    repeat split; vm_compute; reflexivity.
Qed.


(** The rule alone, on a long 100 points in profit at a bid of 2001.00
    with an ATR of 0.50: the stop sent is 2000.995, the bid less ATR
    times the multiplier times the point value, not 2000.50. *)
Lemma trailing_distance_counterexample :
  exists new_sl,
    trailing_rule class_settings Scenario.gold (Scenario.market_with_atr (1 # 2))
                  Scenario.long_in_profit 100 2001 (200110 # 100)
    = [modify_position_sl_tp 4 new_sl 2005]
    /\ new_sl == 2000995 # 1000
    /\ ~ new_sl == 2001 - (1 # 2) * ATR_MULTIPLIER class_settings.
Proof.
  eexists. split; [vm_compute; reflexivity|].
  split; [reflexivity|discriminate].
Qed.

(** The trailing rule as the code has it.  With the profit above the
    break-even threshold and an ATR at hand, the trailing rule proposes the bid less
    ATR times ATR_MULTIPLIER times the point value for a long (the ask
    plus as much for a short), and sends it exactly when it is strictly
    past both the stop in place and the break-even level. *)
Theorem trailing_stop_rule (s : Settings) (sym : SymbolInfo) (m : Market)
    (p : Position) (profit bid ask atr : Q) :
  current_atr m = Some atr ->
  BREAK_EVEN_PROFIT_POINTS s < profit ->
  let distance := atr * ATR_MULTIPLIER s * point_value sym in
  let sent := trailing_rule s sym m p profit bid ask in
  match type_ p with
  | ORDER_TYPE_BUY =>
      let proposed := bid - distance in
      let break_even :=
        price_open p + Const.BREAK_EVEN_BUFFER_POINTS * point_value sym in
      (sl p < proposed /\ break_even < proposed ->
       sent = [modify_position_sl_tp (ticket p) proposed (tp p)])
      /\ (~ (sl p < proposed /\ break_even < proposed) -> sent = [])
  | ORDER_TYPE_SELL =>
      let proposed := ask + distance in
      let break_even :=
        price_open p - Const.BREAK_EVEN_BUFFER_POINTS * point_value sym in
      (proposed < sl p /\ proposed < break_even ->
       sent = [modify_position_sl_tp (ticket p) proposed (tp p)])
      /\ (~ (proposed < sl p /\ proposed < break_even) -> sent = [])
  end.
Proof.
  intros Ha Hp distance sent. subst sent. unfold trailing_rule.
  rewrite Ha. apply Qltb_lt in Hp. rewrite Hp.
  unfold new_ts_sl, be_level, new_sl_after_partial, better_stop.
  fold distance.
  destruct (type_ p); simpl.
  - destruct (Qltb (sl p) (bid - distance)) eqn:E1;
      [apply Qltb_lt in E1|apply Qltb_ge in E1];
      (destruct (Qltb (price_open p
                       + Const.BREAK_EVEN_BUFFER_POINTS * point_value sym)
                      (bid - distance)) eqn:E2;
       [apply Qltb_lt in E2|apply Qltb_ge in E2]);
      simpl; split; try reflexivity; intros H;
      try (exfalso; lra); try (exfalso; apply H; split; assumption).
  - destruct (Qltb (ask + distance) (sl p)) eqn:E1;
      [apply Qltb_lt in E1|apply Qltb_ge in E1];
      (destruct (Qltb (ask + distance)
                      (price_open p
                       - Const.BREAK_EVEN_BUFFER_POINTS * point_value sym))
         eqn:E2;
       [apply Qltb_lt in E2|apply Qltb_ge in E2]);
      simpl; split; try reflexivity; intros H;
      try (exfalso; lra); try (exfalso; apply H; split; assumption).
Qed.

Lemma trailing_stop_rule_witness :
  let s := class_settings in
  let sym := Scenario.gold in
  let p := Scenario.long_in_profit in
  let distance := (1 # 2) * ATR_MULTIPLIER s * point_value sym in
  let sent := trailing_rule s sym (Scenario.market_with_atr (1 # 2)) p
                            100 2001 (200110 # 100) in
  let proposed := 2001 - distance in
  let break_even :=
    price_open p + Const.BREAK_EVEN_BUFFER_POINTS * point_value sym in
  (sl p < proposed /\ break_even < proposed ->
   sent = [modify_position_sl_tp (ticket p) proposed (tp p)])
  /\ (~ (sl p < proposed /\ break_even < proposed) -> sent = []).
Proof.
  apply (trailing_stop_rule class_settings Scenario.gold
           (Scenario.market_with_atr (1 # 2)) Scenario.long_in_profit
           100 2001 (200110 # 100) (1 # 2));
    reflexivity.
Defined.

(** *** Direction of the stop moves (C1) *)

(** Break-even and the trailing stop only send a stop that is strictly
    nearer the profit side than the stop in place. *)
Lemma break_even_and_trailing_tighten (s : Settings) (sym : SymbolInfo)
    (m : Market) (p : Position) (profit bid ask : Q) (t : Z) (new_sl new_tp : Q) :
  In (modify_position_sl_tp t new_sl new_tp)
     (break_even_rule sym p ++ trailing_rule s sym m p profit bid ask) ->
  match type_ p with
  | ORDER_TYPE_BUY => sl p < new_sl
  | ORDER_TYPE_SELL => new_sl < sl p
  end.
Proof.
  intros H. apply in_app_or in H. destruct H as [H|H].
  - unfold break_even_rule in H.
    destruct (better_stop (type_ p) (be_level sym p) (sl p)) eqn:B;
      [|contradiction].
    destruct H as [[= _ <- _]|[]].
    destruct (type_ p); now apply Qltb_lt in B.
  - unfold trailing_rule in H.
    destruct (current_atr m) as [atr|]; [|contradiction].
    destruct (Qltb _ profit); [|contradiction].
    destruct (better_stop (type_ p) _ (sl p)) eqn:B; [|contradiction].
    simpl in H. destruct (better_stop (type_ p) _ (be_level sym p));
      [|contradiction].
    destruct H as [[= _ <- _]|[]].
    destruct (type_ p); now apply Qltb_lt in B.
Qed.

Lemma break_even_and_trailing_tighten_witness :
  sl Scenario.long_in_profit < 400199 # 200.
Proof.
  apply (break_even_and_trailing_tighten class_settings Scenario.gold
           (Scenario.market_with_atr (1 # 2)) Scenario.long_in_profit
           100 2001 (200110 # 100) 4 (400199 # 200) 2005).
  vm_compute. left. reflexivity.
Defined.

(** The loss limiter only sends a stop that is strictly farther on the
    loss side than the stop in place. *)
Lemma aggressive_rule_loosens (s : Settings) (sym : SymbolInfo) (m : Market)
    (p : Position) (bid ask : Q) (t : Z) (new_sl new_tp : Q) :
  In (modify_position_sl_tp t new_sl new_tp) (aggressive_rule s sym m p bid ask) ->
  match type_ p with
  | ORDER_TYPE_BUY => new_sl < sl p
  | ORDER_TYPE_SELL => sl p < new_sl
  end.
Proof.
  unfold aggressive_rule. intros H.
  destruct (momentum_confirmed s sym m p); [|contradiction].
  destruct (type_ p) eqn:T.
  - destruct (Qltb _ (sl p)) eqn:B; [|contradiction].
    destruct H as [[= _ <- _]|[]]. now apply Qltb_lt in B.
  - destruct (Qltb (sl p) _) eqn:B; [|contradiction].
    destruct H as [[= _ <- _]|[]]. now apply Qltb_lt in B.
Qed.

(** C1, on a long from 2000.00 with its original stop at 1998.50 (150
    points), never yet in profit, over windows of 32 falling bars.  The
    bid falls to 1998.52 and the last bar closes at 1998.55: the loss
    limiter moves the stop down to 1998.47, below the original stop.  The
    venue takes the new stop, the bid falls to 1998.49 and the last bar
    closes at 1998.50: the limiter moves the stop down again, to
    1998.44. *)
Theorem aggressive_limiter_lowers_long_stop :
  sl Scenario.long_near_stop
  == price_open Scenario.long_near_stop
     - SL_POINTS class_settings * point_value Scenario.gold
  /\ (exists new_sl,
        fst (manage_positions class_settings (Some Scenario.gold)
               (Bars.all_custom_bars (Scenario.falling_window 199886))
               (Scenario.venue_at (199852 # 100) (199860 # 100) 60)
               (Scenario.tracked_since 0 Scenario.long_near_stop)
               [Scenario.long_near_stop])
        = [modify_position_sl_tp 1 new_sl 2005]
        /\ new_sl == 199847 # 100
        /\ new_sl < sl Scenario.long_near_stop)
  /\ (exists new_sl,
        fst (manage_positions class_settings (Some Scenario.gold)
               (Bars.all_custom_bars (Scenario.falling_window 199881))
               (Scenario.venue_at (199849 # 100) (199857 # 100) 61)
               (Scenario.tracked_since 0 Scenario.long_stop_moved)
               [Scenario.long_stop_moved])
        = [modify_position_sl_tp 1 new_sl 2005]
        /\ new_sl == 199844 # 100
        /\ new_sl < sl Scenario.long_stop_moved).
Proof.
  split; [reflexivity|].
  split; eexists; (split; [vm_compute; reflexivity|]);
    split; reflexivity.
Qed.

End RiskFacts.

(** ** Reversal watch *)

Module ReversalFacts.
Import Reversal.

Lemma confirms_test (direction : OrderType) (ma c : Q) :
  confirms direction ma c ->
  match direction with
  | ORDER_TYPE_BUY => Qltb c ma
  | ORDER_TYPE_SELL => Qltb ma c
  end = true.
Proof. destruct direction; apply Qltb_lt. Qed.

(** One evaluation on the confirming side, below the threshold: the
    count goes up by one. *)
Lemma confirming_evaluation_counts (n : Z) (w : Watch) (d : OrderType)
    (ma c : Q) :
  sl_hit_active w = true -> sl_hit_direction w = Some d ->
  confirms d ma c ->
  (sl_hit_confirmation_count w + 1 < n)%Z ->
  reversal_confirmation n w (Some ma) c = count_one w.
Proof.
  intros Ha Hd Hc Hn. unfold reversal_confirmation, counted. rewrite Ha, Hd.
  apply confirms_test in Hc.
  destruct d; rewrite Hc; simpl; rewrite Ha; simpl;
    destruct (Z.leb_spec n (sl_hit_confirmation_count w + 1)); (lia || reflexivity).
Qed.

(** One evaluation on the confirming side that reaches the threshold:
    with an MA level on record the watch is cleared and so is the
    cooldown timestamp; with none the message raises, and the watch
    stays as counted. *)
Lemma confirming_evaluation_confirms (n : Z) (w : Watch) (d : OrderType)
    (ma c : Q) :
  sl_hit_active w = true -> sl_hit_direction w = Some d ->
  confirms d ma c ->
  (n <= sl_hit_confirmation_count w + 1)%Z ->
  reversal_confirmation n w (Some ma) c
  = match sl_hit_ma_level w with
    | Some _ => mkWatch false None 0 None 0
    | None => count_one w
    end
  /\ confirmation_raises n w (Some ma) c
     = negb (bool_decide (is_Some (sl_hit_ma_level w))).
Proof.
  intros Ha Hd Hc Hn.
  unfold reversal_confirmation, confirmation_raises, counted. rewrite Ha, Hd.
  apply confirms_test in Hc.
  destruct d; rewrite Hc; simpl; rewrite Ha; simpl;
    (destruct (Z.leb_spec n (sl_hit_confirmation_count w + 1)); [|lia]);
    split; reflexivity.
Qed.

(** One evaluation on the other side: the count is back to zero and the
    watch is off; the cooldown stays. *)
Lemma other_side_resets (n : Z) (w : Watch) (d : OrderType) (ma c : Q) :
  sl_hit_active w = true -> sl_hit_direction w = Some d ->
  ~ confirms d ma c ->
  reversal_confirmation n w (Some ma) c = deactivate w.
Proof.
  intros Ha Hd Hc. unfold reversal_confirmation, counted. rewrite Ha, Hd.
  assert (E : match d with
              | ORDER_TYPE_BUY => Qltb c ma
              | ORDER_TYPE_SELL => Qltb ma c
              end = false).
  { destruct d; simpl in Hc; apply Qltb_ge;
      apply Qnot_lt_le; exact Hc. }
  destruct d; rewrite E; reflexivity.
Qed.

(** Fewer confirming evaluations than the threshold leave the watch on,
    with as many counted. *)
Lemma confirming_evaluations_below (n : Z) (d : OrderType) (ma : Q)
    (closes : list Q) (w : Watch) :
  sl_hit_active w = true -> sl_hit_direction w = Some d ->
  Forall (confirms d ma) closes ->
  (sl_hit_confirmation_count w + Z.of_nat (length closes) < n)%Z ->
  evaluate n ma w closes
  = mkWatch true (Some d)
            (sl_hit_confirmation_count w + Z.of_nat (length closes))
            (sl_hit_ma_level w) (last_trade_closed_timestamp w).
Proof.
  intros Ha Hd Hall. revert w Ha Hd.
  induction Hall as [|c closes Hc Hall IH]; intros w Ha Hd Hn.
  - simpl. rewrite Z.add_0_r. destruct w; simpl in *. now subst.
  - cbn [evaluate fold_left]. cbn [length] in Hn.
    rewrite (confirming_evaluation_counts n w d ma c Ha Hd Hc) by lia.
    fold (evaluate n ma (count_one w) closes).
    rewrite IH; [|exact Ha|exact Hd|simpl; lia].
    simpl. f_equal. lia.
Qed.

Lemma evaluate_app (n : Z) (ma : Q) (w : Watch) (xs ys : list Q) :
  evaluate n ma w (xs ++ ys) = evaluate n ma (evaluate n ma w xs) ys.
Proof. unfold evaluate. apply fold_left_app. Qed.

(** Evaluations of the block that all see a close on the confirming
    side, starting from a watch that has counted nothing: the watch stays
    on, cooldown untouched, through the first [n - 1] of them.  The
    [n]-th clears the watch and the cooldown timestamp when the watch
    holds the MA level of the stop-loss; when it holds none, the [n]-th
    raises, and leaves the watch on with [n] counted and the cooldown
    untouched. *)
Theorem confirmation_at_nth_evaluation (n : Z) (d : OrderType) (ma : Q)
    (closes : list Q) (last_close : Q) (w : Watch) :
  sl_hit_active w = true -> sl_hit_direction w = Some d ->
  sl_hit_confirmation_count w = 0%Z ->
  Forall (confirms d ma) closes -> confirms d ma last_close ->
  (Z.of_nat (length closes) + 1 = n)%Z ->
  (forall k : nat, (k <= length closes)%nat ->
     evaluate n ma w (firstn k closes)
     = mkWatch true (Some d) (Z.of_nat k) (sl_hit_ma_level w)
               (last_trade_closed_timestamp w))
  /\ evaluate n ma w (closes ++ [last_close])
     = match sl_hit_ma_level w with
       | Some _ => mkWatch false None 0 None 0
       | None => mkWatch true (Some d) n None (last_trade_closed_timestamp w)
       end
  /\ confirmation_raises n (evaluate n ma w closes) (Some ma) last_close
     = negb (bool_decide (is_Some (sl_hit_ma_level w))).
Proof.
  intros Ha Hd H0 Hall Hlast Hn.
  assert (Below : forall k : nat, (k <= length closes)%nat ->
            evaluate n ma w (firstn k closes)
            = mkWatch true (Some d) (Z.of_nat k) (sl_hit_ma_level w)
                      (last_trade_closed_timestamp w)).
  { intros k Hk.
    rewrite (confirming_evaluations_below n d ma (firstn k closes) w Ha Hd).
    - rewrite H0, length_firstn, Nat.min_l by exact Hk. reflexivity.
    - now apply Forall_take.
    - rewrite H0, length_firstn, Nat.min_l by exact Hk. lia. }
  split; [exact Below|].
  rewrite evaluate_app.
  specialize (Below (length closes) (Nat.le_refl _)).
  rewrite firstn_all in Below. rewrite Below.
  cbn [evaluate fold_left].
  destruct (confirming_evaluation_confirms n
              (mkWatch true (Some d) (Z.of_nat (length closes))
                       (sl_hit_ma_level w) (last_trade_closed_timestamp w))
              d ma last_close) as [E1 E2];
    [reflexivity|reflexivity|exact Hlast|simpl; lia|].
  rewrite E1, E2. cbn [sl_hit_ma_level]. split; [|reflexivity].
  destruct (sl_hit_ma_level w); [reflexivity|].
  unfold count_one. simpl. f_equal. lia.
Qed.

Lemma confirmation_at_nth_evaluation_witness :
  (forall k : nat, (k <= 2)%nat ->
     evaluate 3 2000 Scenario.watching_long (firstn k [1999; 1998])
     = mkWatch true (Some ORDER_TYPE_BUY) (Z.of_nat k) (Some 2000) 1000)
  /\ evaluate 3 2000 Scenario.watching_long ([1999; 1998] ++ [1997])
     = mkWatch false None 0 None 0
  /\ confirmation_raises 3
       (evaluate 3 2000 Scenario.watching_long [1999; 1998]) (Some 2000) 1997
     = false.
Proof.
  apply (confirmation_at_nth_evaluation 3 ORDER_TYPE_BUY 2000 [1999; 1998]
           1997 Scenario.watching_long);
    try reflexivity.
  repeat constructor.
Defined.

(** A close on the original side, at any count, puts the count back to
    zero and turns the watch off, and leaves the cooldown timestamp as it
    was. *)
Theorem original_side_deactivates (n : Z) (w : Watch) (d : OrderType)
    (ma c : Q) :
  sl_hit_active w = true -> sl_hit_direction w = Some d ->
  ~ confirms d ma c ->
  let w' := reversal_confirmation n w (Some ma) c in
  sl_hit_active w' = false
  /\ sl_hit_confirmation_count w' = 0%Z
  /\ last_trade_closed_timestamp w' = last_trade_closed_timestamp w.
Proof.
  intros Ha Hd Hc w'. subst w'.
  rewrite (other_side_resets n w d ma c Ha Hd Hc). repeat split.
Qed.

Lemma original_side_deactivates_witness :
  let w' := reversal_confirmation 3 (count_one Scenario.watching_long)
              (Some 2000) 2001 in
  sl_hit_active w' = false
  /\ sl_hit_confirmation_count w' = 0%Z
  /\ last_trade_closed_timestamp w' = 1000.
Proof.
  apply (original_side_deactivates 3 (count_one Scenario.watching_long)
           ORDER_TYPE_BUY 2000 2001);
    [reflexivity|reflexivity|].
  simpl. apply Qle_not_lt. discriminate.
Defined.

(** C3, on the threshold as shipped (1) and on a threshold of 2, over a
    window of 32 bars that no poll adds a bar to.  As shipped: the poll
    that finds the stopped-out long starts the watch and, in the same
    pass, confirms the reversal on the bar that was already there, so
    that the cooldown timestamp it had just set to 1000 is 0 again.  With
    a threshold of 2: two polls on the same last bar count it twice and
    confirm. *)
Theorem reversal_counts_polls_not_bars :
  let before := mkLoopState Scenario.primed initial_watch in
  let found := poll Const.REVERSAL_CONFIRMATION_BARS before
                    (Scenario.quiet_poll [Scenario.stopped_out_long] 1000) in
  let watching := mkLoopState Scenario.primed Scenario.watching_long in
  let once := run 2 watching [Scenario.quiet_poll [] 1001] in
  let twice := run 2 watching
                   [Scenario.quiet_poll [] 1001; Scenario.quiet_poll [] 1002] in
  length (Bars.all_custom_bars Scenario.primed) = 32%nat
  /\ on_closure 1000 (Some 2000) initial_watch Scenario.stopped_out_long
     = mkWatch true (Some ORDER_TYPE_BUY) 0 (Some 2000) 1000
  /\ window found = Scenario.primed
  /\ watch found = mkWatch false None 0 None 0
  /\ window once = Scenario.primed
  /\ watch once = mkWatch true (Some ORDER_TYPE_BUY) 1 (Some 2000) 1000
  /\ window twice = Scenario.primed
  /\ watch twice = mkWatch false None 0 None 0.
Proof.
  repeat split; vm_compute; reflexivity.
Qed.

End ReversalFacts.

(** ** More on tick bars *)

Module BarsMore.
Import Bars Measure.

Lemma agg_tick_times (P : Z -> Prop) (bt : Z) (t : Tick) (groups : list Bar) :
  P bt -> Forall (fun b => P (time b)) groups ->
  Forall (fun b => P (time b)) (agg_tick bt t groups).
Proof.
  intros Hbt. induction 1 as [|b rest Hb Hrest IH]; simpl.
  - constructor; [exact Hbt|constructor].
  - destruct (bt <? time b)%Z; [|destruct (bt =? time b)%Z].
    + constructor; [exact Hbt|]. constructor; assumption.
    + constructor; [exact Hb|assumption].
    + constructor; assumption.
Qed.

Lemma fetch_times (P : Z -> Prop) (interval_seconds : Z) (ticks : list Tick) :
  Forall (fun t => P (bar_time interval_seconds t)) ticks ->
  Forall (fun b => P (time b))
         (get_custom_bars_from_ticks interval_seconds ticks).
Proof.
  unfold get_custom_bars_from_ticks. intros H.
  assert (G : forall groups,
             Forall (fun b => P (time b)) groups ->
             Forall (fun b => P (time b))
               (fold_left
                  (fun g t => agg_tick (bar_time interval_seconds t) t g)
                  ticks groups)).
  { induction H as [|t ticks Ht Hts IH]; intros groups Hg; simpl.
    - exact Hg.
    - apply IH. now apply agg_tick_times. }
  apply G. constructor.
Qed.

Lemma agg_tick_volume (bt : Z) (t : Tick) (groups : list Bar) :
  bar_volume (agg_tick bt t groups) == bar_volume groups + volume_real t.
Proof.
  induction groups as [|b rest IH]; simpl.
  - lra.
  - destruct (bt <? time b)%Z; [|destruct (bt =? time b)%Z]; simpl.
    + lra.
    + lra.
    + rewrite IH. lra.
Qed.

(** Volume is conserved: the volumes of the bars built from a fetch add
    up to the volumes of its ticks. *)
Theorem fetch_keeps_volume (interval_seconds : Z) (ticks : list Tick) :
  bar_volume (get_custom_bars_from_ticks interval_seconds ticks)
  == tick_volume ticks.
Proof.
  unfold get_custom_bars_from_ticks.
  assert (G : forall groups,
             bar_volume
               (fold_left
                  (fun g t => agg_tick (bar_time interval_seconds t) t g)
                  ticks groups)
             == bar_volume groups + tick_volume ticks).
  { induction ticks as [|t ticks IH]; intros groups; simpl.
    - lra.
    - rewrite IH, agg_tick_volume. lra. }
  rewrite G. simpl. lra.
Qed.

Lemma agg_tick_other_bucket (T bt : Z) (t : Tick) (P : Bar -> Prop)
    (groups : list Bar) :
  bt <> T -> has_bar T P groups -> has_bar T P (agg_tick bt t groups).
Proof.
  intros Hne (b & Hin & Ht & HP).
  exists b. split; [|auto].
  induction groups as [|c rest IH]; [contradiction|]. simpl.
  destruct (bt <? time c)%Z; [right; exact Hin|].
  destruct (Z.eqb_spec bt (time c)) as [Heq|Hn].
  - destruct Hin as [<-|Hin]; [congruence|right; exact Hin].
  - destruct Hin as [<-|Hin]; [left; reflexivity|right; now apply IH].
Qed.

Lemma agg_tick_same_bucket (T : Z) (t : Tick) (P : Bar -> Prop)
    (groups : list Bar) :
  (forall b, P b -> P (next_row b t)) ->
  has_bar T P groups -> has_bar T P (agg_tick T t groups).
Proof.
  intros Hnext (b & Hin & Ht & HP).
  induction groups as [|c rest IH]; [contradiction|]. simpl.
  destruct (T <? time c)%Z eqn:E1.
  - exists b. split; [right; exact Hin|auto].
  - destruct (Z.eqb_spec T (time c)) as [Heq|Hn].
    + destruct Hin as [<-|Hin].
      * exists (next_row c t). split; [left; reflexivity|]. split; auto.
      * exists b. split; [right; exact Hin|auto].
    + destruct Hin as [<-|Hin]; [congruence|].
      destruct (IH Hin) as (b' & Hin' & Ht' & HP').
      exists b'. split; [right; exact Hin'|auto].
Qed.

Lemma agg_tick_kept (T bt : Z) (t : Tick) (P : Bar -> Prop) (groups : list Bar) :
  (forall b, P b -> P (next_row b t)) ->
  has_bar T P groups -> has_bar T P (agg_tick bt t groups).
Proof.
  intros Hnext H. destruct (Z.eq_dec bt T) as [->|Hne].
  - now apply agg_tick_same_bucket.
  - now apply agg_tick_other_bucket.
Qed.

(** A new bucket's bar is the tick itself; a tick always ends up inside
    the range of its bucket's bar and is its latest close. *)
Lemma agg_tick_new_bucket (bt : Z) (t : Tick) (groups : list Bar) :
  Forall (fun b => time b <> bt) groups ->
  In (first_row bt t) (agg_tick bt t groups).
Proof.
  induction 1 as [|c rest Hc Hrest IH]; simpl; [left; reflexivity|].
  destruct (bt <? time c)%Z; [left; reflexivity|].
  destruct (Z.eqb_spec bt (time c)) as [Heq|Hn]; [congruence|].
  right. exact IH.
Qed.

Lemma agg_tick_lands (bt : Z) (t : Tick) (groups : list Bar) :
  has_bar bt (fun b => close b = bid_ask_avg t
                       /\ low b <= bid_ask_avg t <= high b)
          (agg_tick bt t groups).
Proof.
  induction groups as [|c rest IH]; simpl.
  - exists (first_row bt t). simpl. repeat split; auto using Qle_refl.
  - destruct (bt <? time c)%Z.
    + exists (first_row bt t). simpl. repeat split; auto using Qle_refl.
    + destruct (Z.eqb_spec bt (time c)) as [Heq|Hn].
      * exists (next_row c t). simpl.
        repeat split; auto using pymin_le_r, pymax_ge_r.
      * destruct IH as (b & Hin & Ht & HP).
        exists b. split; [right; exact Hin|auto].
Qed.

Section OneFetch.

Variable interval_seconds : Z.

Let step (g : list Bar) (t : Tick) : list Bar :=
  agg_tick (bar_time interval_seconds t) t g.

Lemma fold_kept (T : Z) (P : Bar -> Prop) (ticks : list Tick) (groups : list Bar) :
  Forall (fun u => bar_time interval_seconds u = T ->
                   forall b, P b -> P (next_row b u)) ticks ->
  has_bar T P groups -> has_bar T P (fold_left step ticks groups).
Proof.
  intros H. revert groups.
  induction H as [|u ticks Hu Hus IH]; intros groups Hg; simpl; [exact Hg|].
  apply IH. unfold step.
  destruct (Z.eq_dec (bar_time interval_seconds u) T) as [E|Hne].
  - rewrite E. apply agg_tick_same_bucket; auto.
  - now apply agg_tick_other_bucket.
Qed.

(** Open is the first tick of the bucket, close the last, and every tick
    of the bucket is between the bar's low and high. *)
Theorem bar_first_last_range (pre post : list Tick) (t : Tick) :
  let bars := get_custom_bars_from_ticks interval_seconds (pre ++ t :: post) in
  let T := bar_time interval_seconds t in
  (Forall (fun u => bar_time interval_seconds u <> T) pre ->
   exists b, In b bars /\ time b = T /\ open b = bid_ask_avg t)
  /\ (Forall (fun u => bar_time interval_seconds u <> T) post ->
      exists b, In b bars /\ time b = T /\ close b = bid_ask_avg t)
  /\ exists b, In b bars /\ time b = T
               /\ low b <= bid_ask_avg t /\ bid_ask_avg t <= high b.
Proof.
  intros bars T. subst bars. unfold get_custom_bars_from_ticks.
  fold step. rewrite fold_left_app. cbn [fold_left].
  set (before := fold_left step pre []).
  split; [|split].
  - intros Hpre.
    assert (Hnew : Forall (fun b => time b <> T) before).
    { apply (fetch_times (fun z => z <> T) interval_seconds pre Hpre). }
    apply (fold_kept T (fun b => open b = bid_ask_avg t)).
    + apply List.Forall_forall. intros u _ _ b Hb. exact Hb.
    + exists (first_row T t). split; [|split; reflexivity].
      unfold step. fold T. now apply agg_tick_new_bucket.
  - intros Hpost.
    apply (fold_kept T (fun b => close b = bid_ask_avg t)).
    + eapply List.Forall_impl; [|exact Hpost].
      intros u Hne E. contradiction.
    + destruct (agg_tick_lands T t before) as (b & Hin & Ht & Hc & _).
      exists b. auto.
  - apply (fold_kept T (fun b => low b <= bid_ask_avg t
                                 /\ bid_ask_avg t <= high b)).
    + apply List.Forall_forall. intros u _ _ b [Hl Hh]. simpl.
      pose proof (pymin_le_l (low b) (bid_ask_avg u)).
      pose proof (pymax_ge_l (high b) (bid_ask_avg u)).
      split; lra.
    + destruct (agg_tick_lands T t before) as (b & Hin & Ht & _ & Hr).
      exists b. auto.
Qed.

End OneFetch.

(** *** The window *)

Lemma assign_columns_length (rows : list Bar) (cols : list Columns) :
  length (assign_columns rows cols) = length rows.
Proof.
  revert cols. induction rows as [|b rows IH]; intros cols; simpl.
  - destruct cols; reflexivity.
  - destruct cols as [|c cols]; simpl; [reflexivity|]. now rewrite IH.
Qed.

Lemma merge_new_bars_bounded (w : Window) (new_bars : list Bar) :
  (length (all_custom_bars w) <= Const.bars_needed)%nat ->
  (length (all_custom_bars (merge_new_bars w new_bars)) <= Const.bars_needed)%nat.
Proof.
  intros Hw. unfold merge_new_bars.
  destruct new_bars as [|n0 rest]; [exact Hw|].
  destruct (List.filter _ _) as [|f0 fresh]; [exact Hw|].
  cbn [all_custom_bars].
  set (merged := sort_index _).
  destruct (Nat.ltb_spec Const.bars_needed (length merged)) as [Hlt|Hge];
    [|exact Hge].
  unfold iloc_last. rewrite length_skipn. lia.
Qed.

(** The window never holds more than [bars_needed] (67) bars. *)
Theorem window_is_bounded (ps : list Pass) :
  (length (all_custom_bars (run_passes initial_window ps)) <= Const.bars_needed)%nat.
Proof.
  unfold run_passes.
  assert (G : forall w,
             (length (all_custom_bars w) <= Const.bars_needed)%nat ->
             (length (all_custom_bars (fold_left pass ps w))
              <= Const.bars_needed)%nat).
  { induction ps as [|p ps IH]; intros w Hw; simpl; [exact Hw|].
    apply IH. unfold pass, ingest.
    pose proof (merge_new_bars_bounded w
                  (get_custom_bars_from_ticks Const.TICK_BAR_INTERVAL_SECONDS
                     (fetched p)) Hw) as Hm.
    destruct (computed p) as [cols|]; [|exact Hm].
    cbn [all_custom_bars]. now rewrite assign_columns_length. }
  apply G. simpl. lia.
Qed.

(** A fetch whose ticks all belong to buckets not after
    [last_processed_bar_time] changes nothing. *)
Theorem stale_fetch_is_ignored (w : Window) (ts : Z) (ticks : list Tick) :
  last_processed_bar_time w = Some ts ->
  Forall (fun t => (bar_time Const.TICK_BAR_INTERVAL_SECONDS t <= ts)%Z) ticks ->
  ingest w ticks = w.
Proof.
  intros Hl Hall. unfold ingest, merge_new_bars.
  pose proof (fetch_times (fun z => (z <= ts)%Z) _ ticks Hall) as Hb.
  set (new_bars := get_custom_bars_from_ticks _ ticks) in *.
  destruct new_bars as [|n0 rest] eqn:E; [reflexivity|]. rewrite <- E in *.
  assert (F : List.filter (after (last_processed_bar_time w)) new_bars = []).
  { rewrite Hl.
    clear E. induction Hb as [|b bs Hb0 Hbs IH]; simpl; [reflexivity|].
    destruct (Z.ltb_spec ts (time b)); [lia|exact IH]. }
  now rewrite F.
Qed.

Lemma stale_fetch_is_ignored_witness :
  ingest Scenario.primed (Scenario.falling_ticks 199000) = Scenario.primed.
Proof.
  apply (stale_fetch_is_ignored Scenario.primed 155000000000).
  - vm_compute. reflexivity.
  - unfold Scenario.falling_ticks. apply List.Forall_forall.
    intros t Ht. apply in_map_iff in Ht. destruct Ht as [i [<- Hi]].
    apply in_seq in Hi. unfold bar_time, time_msc, Const.TICK_BAR_INTERVAL_SECONDS.
    assert (Z.of_nat i * 5000 * 10 ^ 6 / (5 * 10 ^ 9) = Z.of_nat i)%Z as ->.
    { replace (Z.of_nat i * 5000 * 10 ^ 6)%Z
        with (Z.of_nat i * (5 * 10 ^ 9))%Z by lia.
      apply Z.div_mul. lia. }
    lia.
Defined.

Lemma mid_equal (t1 t2 : Tick) :
  bid t1 == bid t2 -> ask t1 == ask t2 ->
  Qeq_bool (bid_ask_avg t2) (bid_ask_avg t1) = true.
Proof.
  intros Hb Ha. apply Qeq_bool_iff. unfold bid_ask_avg.
  rewrite Hb, Ha. reflexivity.
Qed.

(** Two ticks in two different buckets, with the same bid, ask and
    volume, fetched at start-up: the second bar has the same column
    values as the first, [drop_duplicates] removes it, and the window
    and [last_processed_bar_time] stop at the first bucket. *)
Theorem equal_bars_are_dropped (t1 t2 : Tick) :
  (bar_time Const.TICK_BAR_INTERVAL_SECONDS t1
   < bar_time Const.TICK_BAR_INTERVAL_SECONDS t2)%Z ->
  bid t1 == bid t2 -> ask t1 == ask t2 -> volume_real t1 == volume_real t2 ->
  ingest initial_window [t1; t2]
  = mkWindow [first_row (bar_time Const.TICK_BAR_INTERVAL_SECONDS t1) t1]
             (Some (bar_time Const.TICK_BAR_INTERVAL_SECONDS t1)).
Proof.
  intros Hlt Hb Ha Hv.
  unfold ingest, get_custom_bars_from_ticks. cbn [fold_left agg_tick].
  set (T1 := bar_time Const.TICK_BAR_INTERVAL_SECONDS t1) in *.
  set (T2 := bar_time Const.TICK_BAR_INTERVAL_SECONDS t2) in *.
  cbn [time first_row].
  destruct (Z.ltb_spec T2 T1) as [H|_]; [lia|].
  destruct (Z.eqb_spec T2 T1) as [H|_]; [lia|].
  unfold merge_new_bars. cbn [initial_window last_processed_bar_time
                              all_custom_bars List.filter after app].
  unfold drop_duplicates. cbn [drop_from existsb].
  assert (S : same_row (first_row T2 t2) (first_row T1 t1) = true).
  { unfold same_row, first_row. cbn [open high low close real_volume rsi
                                      pct_k pct_d opt_eqb].
    rewrite (mid_equal t1 t2 Hb Ha).
    assert (Qeq_bool (volume_real t2) (volume_real t1) = true) as ->
      by (apply Qeq_bool_iff; now symmetry).
    reflexivity. }
  rewrite S. cbn [orb drop_from sort_index fold_right insert_row index_max
                  fold_left time first_row length].
  reflexivity.
Qed.

Lemma equal_bars_are_dropped_witness :
  ingest initial_window [mkTick 1000 10 12 3; mkTick 6000 10 12 3]
  = mkWindow
      [first_row (bar_time Const.TICK_BAR_INTERVAL_SECONDS (mkTick 1000 10 12 3))
                 (mkTick 1000 10 12 3)]
      (Some (bar_time Const.TICK_BAR_INTERVAL_SECONDS (mkTick 1000 10 12 3))).
Proof.
  apply (equal_bars_are_dropped (mkTick 1000 10 12 3) (mkTick 6000 10 12 3));
    reflexivity.
Defined.

End BarsMore.

(** ** More on the indicators *)

Module IndicatorsMore.
Import Indicators Measure.

Lemma diff_from_length (prev : Q) (xs : list Q) :
  length (diff_from prev xs) = length xs.
Proof.
  revert prev. induction xs as [|x xs IH]; intros prev; simpl; [reflexivity|].
  now rewrite IH.
Qed.

Lemma diff_length (xs : list Q) : length (diff xs) = length xs.
Proof. destruct xs; simpl; [reflexivity|]. now rewrite diff_from_length. Qed.

Lemma ewm_from_length (alpha prev : Q) (xs : list Q) :
  length (ewm_from alpha prev xs) = length xs.
Proof.
  revert prev. induction xs as [|x xs IH]; intros prev; simpl; [reflexivity|].
  now rewrite IH.
Qed.

Lemma mask_from_length (i p : nat) (ys : list Q) :
  length (mask_from i p ys) = length ys.
Proof.
  revert i. induction ys as [|y ys IH]; intros i; simpl; [reflexivity|].
  now rewrite IH.
Qed.

Lemma wilder_length (period : nat) (xs : list Q) :
  length (wilder period xs) = length xs.
Proof.
  unfold wilder. rewrite mask_from_length.
  destruct xs; simpl; [reflexivity|]. now rewrite ewm_from_length.
Qed.

Lemma zip_with_length {A B C : Type} (f : A -> B -> C) (xs : list A)
    (ys : list B) :
  length xs = length ys -> length (zip_with f xs ys) = length xs.
Proof.
  revert ys. induction xs as [|x xs IH]; intros [|y ys] H; simpl in *;
    try reflexivity; try discriminate.
  f_equal. apply IH. now injection H.
Qed.

Lemma zip_with_Forall {A B C : Type} (f : A -> B -> C) (P : C -> Prop)
    (xs : list A) (ys : list B) :
  (forall x y, P (f x y)) -> Forall P (zip_with f xs ys).
Proof.
  intros H. revert ys. induction xs as [|x xs IH]; intros [|y ys]; simpl;
    constructor; auto.
Qed.

Lemma clip_is_percent (x : Q) : percent (pymin (pymax x 0) 100).
Proof.
  unfold percent, pymin, pymax.
  destruct (Qltb x 0) eqn:E1; [apply Qltb_lt in E1|apply Qltb_ge in E1].
  - replace (Qltb 100 0) with false by reflexivity. split; lra.
  - destruct (Qltb 100 x) eqn:E2; [apply Qltb_lt in E2|apply Qltb_ge in E2];
      split; lra.
Qed.

(** For a period of at least 1 (pandas refuses the smoothing otherwise),
    [calculate_rsi] gives nothing on fewer than [period + 1] closes, and
    otherwise one value per close, each between 0 and 100. *)
Theorem rsi_series_shape (closes : list Q) (period : nat) :
  (1 <= period)%nat ->
  match calculate_rsi closes period with
  | None => (length closes < period + 1)%nat
  | Some r =>
      (period + 1 <= length closes)%nat
      /\ length r = length closes
      /\ Forall percent r
  end.
Proof.
  intros _. unfold calculate_rsi.
  destruct (Nat.ltb_spec (length closes) (period + 1)) as [H|H]; [exact H|].
  split; [exact H|]. split.
  - rewrite zip_with_length.
    + unfold avg_gain. now rewrite wilder_length, length_map, diff_length.
    + unfold avg_gain, avg_loss.
      now rewrite !wilder_length, !length_map.
  - apply zip_with_Forall. intros g l. apply clip_is_percent.
Qed.

Lemma mask_from_nth (j p : nat) (ys : list Q) (i : nat) :
  nth_error (mask_from j p ys) i
  = option_map (fun y => if (S (j + i) <? p)%nat then NaN else Fin y)
               (nth_error ys i).
Proof.
  revert j i. induction ys as [|y ys IH]; intros j i; simpl.
  - destruct i; reflexivity.
  - destruct i as [|i]; simpl.
    + now rewrite Nat.add_0_r.
    + rewrite IH. now replace (S j + i)%nat with (j + S i)%nat by lia.
Qed.

Lemma wilder_warm_up (period : nat) (xs : list Q) (i : nat) :
  (S i < period)%nat -> (i < length xs)%nat ->
  nth_error (wilder period xs) i = Some NaN.
Proof.
  intros Hi Hlen. unfold wilder. rewrite mask_from_nth. simpl.
  destruct (nth_error _ i) as [y|] eqn:E.
  - simpl. destruct (Nat.ltb_spec (S i) period); [reflexivity|lia].
  - apply nth_error_None in E.
    assert (length (ewm_raw (1 / inject_Z (Z.of_nat period)) xs) = length xs).
    { destruct xs; simpl; [reflexivity|]. now rewrite ewm_from_length. }
    lia.
Qed.

Lemma rsi_entry_missing_gain (l : fval) : rsi_entry NaN l = 0.
Proof. destruct l; reflexivity. Qed.

Lemma rsi_series_shape_witness :
  match calculate_rsi (repeat (2000 : Q) 15) 14 with
  | None => (length (repeat (2000 : Q) 15) < 14 + 1)%nat
  | Some r =>
      (14 + 1 <= length (repeat (2000 : Q) 15))%nat
      /\ length r = length (repeat (2000 : Q) 15)
      /\ Forall percent r
  end.
Proof. apply (rsi_series_shape (repeat (2000 : Q) 15) 14). lia. Defined.

(** Where the smoothing has fewer than [period] observations the RSI
    column holds 0, not a missing value. *)
Theorem rsi_warm_up_is_zero (closes : list Q) (period i : nat) (r : list Q) :
  calculate_rsi closes period = Some r ->
  (S i < period)%nat ->
  nth_error r i = Some 0.
Proof.
  unfold calculate_rsi. intros Hr Hi.
  destruct (Nat.ltb_spec (length closes) (period + 1)) as [H|H];
    [discriminate|].
  injection Hr as <-. rewrite IndicatorsFacts.nth_error_zip_with.
  unfold avg_gain, avg_loss.
  rewrite !wilder_warm_up by (rewrite ?length_map, ?diff_length; lia).
  reflexivity.
Qed.

Lemma rsi_warm_up_is_zero_witness :
  exists r,
    calculate_rsi (map (fun n => inject_Z (Z.of_nat n)) (seq 1 15)) 14 = Some r
    /\ nth_error r 5 = Some 0.
Proof.
  eexists. split; [reflexivity|].
  apply (rsi_warm_up_is_zero
           (map (fun n => inject_Z (Z.of_nat n)) (seq 1 15)) 14 5);
    [reflexivity|lia].
Defined.

(** *** A rising series *)

Lemma rising_diffs (prev : Q) (xs : list Q) :
  Sorted Qlt (prev :: xs) ->
  Forall (fun d => 0 < gain_of d /\ loss_of d = 0) (diff_from prev xs).
Proof.
  revert prev. induction xs as [|x xs IH]; intros prev H; simpl;
    constructor.
  - inversion H as [|? ? Hs Hh]; subst. inversion Hh as [|? ? Hlt]; subst.
    simpl.
    assert (E1 : Qltb 0 (x - prev) = true) by (apply Qltb_lt; lra).
    assert (E2 : Qltb (x - prev) 0 = false) by (apply Qltb_ge; lra).
    rewrite E1, E2. split; [lra|reflexivity].
  - apply IH. now inversion H.
Qed.

Lemma ewm_from_positive (alpha prev : Q) (xs : list Q) :
  0 < alpha -> alpha <= 1 -> 0 <= prev -> Forall (Qlt 0) xs ->
  Forall (Qlt 0) (ewm_from alpha prev xs).
Proof.
  intros Ha0 Ha1 Hp H. revert prev Hp.
  induction H as [|x xs Hx Hxs IH]; intros prev Hp; simpl; constructor.
  - assert (0 <= (1 - alpha) * prev) by (apply Qmult_le_0_compat; lra).
    assert (0 < alpha * x) by (apply Qmult_lt_0_compat; lra).
    lra.
  - apply IH.
    assert (0 <= (1 - alpha) * prev) by (apply Qmult_le_0_compat; lra).
    assert (0 < alpha * x) by (apply Qmult_lt_0_compat; lra).
    lra.
Qed.

Lemma ewm_from_zero (alpha prev : Q) (xs : list Q) :
  prev == 0 -> Forall (Qeq 0) xs ->
  Forall (Qeq 0) (ewm_from alpha prev xs).
Proof.
  intros Hp H. revert prev Hp.
  induction H as [|x xs Hx Hxs IH]; intros prev Hp; simpl; constructor.
  - rewrite Hp, <- Hx. ring.
  - apply IH. rewrite Hp, <- Hx. ring.
Qed.

Lemma alpha_positive (period : nat) :
  (1 <= period)%nat -> 0 < 1 / inject_Z (Z.of_nat period).
Proof.
  intros H. destruct period as [|n]; [lia|].
  unfold Qlt, Qdiv, Qmult, Qinv, inject_Z; simpl; lia.
Qed.

(** On strictly rising closes the RSI is 100 at every bar but the first,
    once [period] observations are in. *)
Theorem rsi_of_rising_series (closes : list Q) (period i : nat) (r : list Q) :
  rising closes ->
  calculate_rsi closes period = Some r ->
  (1 <= period)%nat ->
  (1 <= i)%nat -> (period <= S i)%nat -> (i < length closes)%nat ->
  nth_error r i = Some 100.
Proof.
  unfold rising, calculate_rsi. intros Hrise Hr Hper H1 Hp Hlen.
  destruct (Nat.ltb_spec (length closes) (period + 1)) as [H|H];
    [discriminate|].
  injection Hr as <-. rewrite IndicatorsFacts.nth_error_zip_with.
  destruct closes as [|c0 rest]; [simpl in Hlen; lia|].
  pose proof (rising_diffs c0 rest Hrise) as Hd.
  destruct i as [|j]; [lia|].
  simpl in Hlen.
  destruct (nth_error (diff_from c0 rest) j) as [d|] eqn:Ed;
    [|apply nth_error_None in Ed; rewrite diff_from_length in Ed; lia].
  set (alpha := 1 / inject_Z (Z.of_nat period)).
  assert (Hgain : exists g,
             nth_error (avg_gain (c0 :: rest) period) (S j) = Some (Fin g)
             /\ (0 < alpha -> 0 < g)).
  { unfold avg_gain, wilder. rewrite mask_from_nth. fold alpha.
    cbn [diff map ewm_raw nth_error].
    destruct (nth_error (ewm_from alpha (gain_of NaN)
                           (map gain_of (diff_from c0 rest))) j) as [g|] eqn:Eg.
    - exists g. split.
      + simpl. destruct (Nat.ltb_spec (S (S j)) period); [lia|reflexivity].
      + intros Ha. apply nth_error_In in Eg.
        assert (F : Forall (Qlt 0)
                      (ewm_from alpha (gain_of NaN)
                         (map gain_of (diff_from c0 rest)))).
        { apply ewm_from_positive;
            [exact Ha|apply IndicatorsFacts.alpha_bounds|simpl; lra|].
          apply List.Forall_forall. intros x Hx.
          apply in_map_iff in Hx. destruct Hx as [e [<- He]].
          rewrite List.Forall_forall in Hd. now apply Hd. }
        rewrite List.Forall_forall in F. now apply F.
    - apply nth_error_None in Eg.
      rewrite ewm_from_length, length_map, diff_from_length in Eg. lia. }
  assert (Hloss : exists l,
             nth_error (avg_loss (c0 :: rest) period) (S j) = Some (Fin l)
             /\ l == 0).
  { unfold avg_loss, wilder. rewrite mask_from_nth. fold alpha.
    cbn [diff map ewm_raw nth_error].
    destruct (nth_error (ewm_from alpha (loss_of NaN)
                           (map loss_of (diff_from c0 rest))) j) as [l|] eqn:El.
    - exists l. split.
      + simpl. destruct (Nat.ltb_spec (S (S j)) period); [lia|reflexivity].
      + apply nth_error_In in El.
        assert (F : Forall (Qeq 0)
                      (ewm_from alpha (loss_of NaN)
                         (map loss_of (diff_from c0 rest)))).
        { apply ewm_from_zero; [reflexivity|].
          apply List.Forall_forall. intros x Hx.
          apply in_map_iff in Hx. destruct Hx as [e [<- He]].
          rewrite List.Forall_forall in Hd.
          destruct (Hd e He) as [_ ->]. reflexivity. }
        rewrite List.Forall_forall in F. symmetry. now apply F.
    - apply nth_error_None in El.
      rewrite ewm_from_length, length_map, diff_from_length in El. lia. }
  destruct Hgain as (g & -> & Hg). destruct Hloss as (l & -> & Hl).
  f_equal. apply IndicatorsFacts.rsi_entry_no_loss_gain; [exact Hl|].
  apply Hg. now apply alpha_positive.
Qed.

Lemma rsi_of_rising_series_witness :
  exists r,
    calculate_rsi (map (fun n => inject_Z (Z.of_nat n)) (seq 1 20)) 14 = Some r
    /\ nth_error r 19 = Some 100.
Proof.
  eexists. split; [reflexivity|].
  apply (rsi_of_rising_series
           (map (fun n => inject_Z (Z.of_nat n)) (seq 1 20)) 14 19);
    [|reflexivity|lia|lia|lia|simpl; lia].
  unfold rising. simpl. repeat constructor.
Defined.

End IndicatorsMore.

(** ** ATR and the stochastic oscillator *)

Module OscillatorFacts.
Import Indicators Stochastic Measure.

(** *** ATR *)

Lemma true_range_row_nonneg (prev_close : option Q) (b : Bars.Bar) :
  Bars.ohlc_ok b -> 0 <= true_range_row prev_close b.
Proof.
  intros (Hlo & Hoh & _). unfold true_range_row.
  destruct prev_close as [pc|]; [|lra].
  pose proof (pymax_ge_r
                (pymax (Bars.high b - Bars.low b) (Qabs (Bars.high b - pc)))
                (Qabs (Bars.low b - pc))).
  pose proof (Qabs_nonneg (Bars.low b - pc)). lra.
Qed.

Lemma true_range_from_nonneg (prev_close : option Q) (bars : list Bars.Bar) :
  Forall Bars.ohlc_ok bars -> Forall (Qle 0) (true_range_from prev_close bars).
Proof.
  intros H. revert prev_close.
  induction H as [|b bars Hb Hbs IH]; intros prev_close; simpl; constructor.
  - now apply true_range_row_nonneg.
  - apply IH.
Qed.

Lemma ewm_raw_nonneg (alpha : Q) (xs : list Q) :
  0 <= alpha -> alpha <= 1 -> Forall (Qle 0) xs ->
  Forall (Qle 0) (ewm_raw alpha xs).
Proof.
  intros Ha0 Ha1 H. destruct H as [|x xs Hx Hxs]; simpl; constructor;
    [exact Hx|]. now apply IndicatorsFacts.ewm_from_nonneg.
Qed.

Lemma ewm_raw_length (alpha : Q) (xs : list Q) :
  length (ewm_raw alpha xs) = length xs.
Proof.
  destruct xs; simpl; [reflexivity|].
  now rewrite IndicatorsMore.ewm_from_length.
Qed.

Lemma true_range_from_length (prev_close : option Q) (bars : list Bars.Bar) :
  length (true_range_from prev_close bars) = length bars.
Proof.
  revert prev_close. induction bars as [|b bars IH]; intros pc; simpl;
    [reflexivity|]. now rewrite IH.
Qed.

Lemma last_of_mask (j p : nat) (ys : list Q) :
  ys <> [] -> (p <= j + length ys)%nat ->
  exists y, List.last (mask_from j p ys) NaN = Fin y /\ In y ys.
Proof.
  revert j. induction ys as [|y ys IH]; intros j Hne Hp; [contradiction|].
  destruct ys as [|z zs].
  - exists y. simpl in *. split; [|left; reflexivity].
    destruct (Nat.ltb_spec (S j) p); [lia|reflexivity].
  - destruct (IH (S j)) as (y' & Hl & Hin); [discriminate|simpl in *; lia|].
    exists y'. split; [|right; exact Hin].
    change (mask_from j p (y :: z :: zs))
      with ((if (S j <? p)%nat then NaN else Fin y)
              :: mask_from (S j) p (z :: zs)).
    simpl mask_from in *. exact Hl.
Qed.

(** For well-formed bars and a period of at least 1: the ATR read by the
    loop and by [manage_positions] is missing on fewer than [period]
    bars, and is a number that is not negative otherwise. *)
Theorem atr_is_there_and_not_negative (bars : list Bars.Bar) (period : nat) :
  (1 <= period)%nat -> Forall Bars.ohlc_ok bars ->
  ((length bars < period)%nat -> current_atr_of bars period = None)
  /\ ((period <= length bars)%nat ->
      exists a, current_atr_of bars period = Some a /\ 0 <= a).
Proof.
  intros Hp Hok. unfold current_atr_of, calculate_atr. split; intros Hlen.
  - destruct (Nat.ltb_spec (length bars) period); [reflexivity|lia].
  - destruct (Nat.ltb_spec (length bars) period); [lia|].
    unfold wilder.
    set (ys := ewm_raw (1 / inject_Z (Z.of_nat period))
                       (true_range_from None bars)).
    assert (Hlen_ys : length ys = length bars).
    { unfold ys. now rewrite ewm_raw_length, true_range_from_length. }
    destruct (last_of_mask 0 period ys) as (a & -> & Hin).
    + intros E. rewrite E in Hlen_ys. simpl in Hlen_ys. lia.
    + lia.
    + exists a. split; [reflexivity|].
      assert (F : Forall (Qle 0) ys).
      { apply ewm_raw_nonneg; try apply IndicatorsFacts.alpha_bounds.
        now apply true_range_from_nonneg. }
      rewrite List.Forall_forall in F. now apply F.
Qed.

Lemma atr_is_there_and_not_negative_witness :
  let bars := Bars.all_custom_bars (Scenario.falling_window 199886) in
  ((length bars < 14)%nat -> current_atr_of bars 14 = None)
  /\ ((14 <= length bars)%nat ->
      exists a, current_atr_of bars 14 = Some a /\ 0 <= a).
Proof.
  apply (atr_is_there_and_not_negative
           (Bars.all_custom_bars (Scenario.falling_window 199886)) 14);
    [lia|].
  apply (BarsFacts.merge_new_bars_ok Bars.initial_window);
    [apply BarsFacts.initial_window_ok
    |apply BarsFacts.fetch_ok|apply BarsFacts.fetch_ok].
Defined.

(** *** %K and %D *)

Lemma rolling_length (agg : list Q -> option Q) (w : nat) (xs : list Q) :
  length (rolling agg w xs) = length xs.
Proof. unfold rolling. now rewrite length_map, length_seq. Qed.

Lemma rolling_nth (agg : list Q -> option Q) (w : nat) (xs : list Q) (i : nat) :
  (i < length xs)%nat ->
  nth_error (rolling agg w xs) i
  = Some (if (S i <? w)%nat then None else agg (window_at w i xs)).
Proof.
  intros H. unfold rolling. rewrite nth_error_map, nth_error_seq.
  destruct (Nat.ltb_spec i (length xs)); [reflexivity|lia].
Qed.

Lemma zip3_length (cs : list Q) (los his : list (option Q)) :
  length los = length cs -> length his = length cs ->
  length (zip3 cs los his) = length cs.
Proof.
  revert los his. induction cs as [|c cs IH]; intros [|lo los] [|hi his] H1 H2;
    simpl in *; try reflexivity; try discriminate.
  f_equal. apply IH; congruence.
Qed.

Lemma zip3_nth (cs : list Q) (los his : list (option Q)) (i : nat)
    (c : Q) (lo hi : option Q) :
  nth_error cs i = Some c -> nth_error los i = Some lo ->
  nth_error his i = Some hi ->
  nth_error (zip3 cs los his) i = Some (raw_percent_k c lo hi).
Proof.
  revert los his i. induction cs as [|c0 cs IH]; intros [|l0 los] [|h0 his] [|i];
    simpl; try discriminate.
  - now intros [= ->] [= ->] [= ->].
  - apply IH.
Qed.

Lemma ffill_length (last : option Q) (xs : list (option Q)) :
  length (ffill last xs) = length xs.
Proof.
  revert last. induction xs as [|x xs IH]; intros last; simpl; [reflexivity|].
  now rewrite IH.
Qed.

(** Nothing to carry forward while every entry so far is missing. *)
Lemma ffill_nothing_yet (xs : list (option Q)) (i : nat) :
  (forall j, (j <= i)%nat -> nth_error xs j = Some None) ->
  nth_error (ffill None xs) i = Some None.
Proof.
  revert i. induction xs as [|x xs IH]; intros i H.
  - specialize (H 0%nat (Nat.le_0_l i)). discriminate.
  - assert (x = None) as ->.
    { specialize (H 0%nat (Nat.le_0_l i)). simpl in H. congruence. }
    destruct i as [|i]; simpl; [reflexivity|].
    apply IH. intros j Hj. apply (H (S j)). lia.
Qed.

(** A missing entry repeats the entry before it. *)
Lemma ffill_repeats (last : option Q) (xs : list (option Q)) (i : nat) :
  nth_error xs (S i) = Some None ->
  nth_error (ffill last xs) (S i) = nth_error (ffill last xs) i.
Proof.
  revert last i. induction xs as [|x xs IH]; intros last i H; [discriminate|].
  destruct i as [|i].
  - destruct xs as [|y ys]; [discriminate|]. simpl in H.
    injection H as ->. reflexivity.
  - simpl. apply IH. exact H.
Qed.

Lemma mean_is_percent (xs : list Q) (m : Q) :
  Forall percent xs -> mean xs = Some m -> percent m.
Proof.
  intros H Hm. destruct xs as [|x rest]; [discriminate|].
  injection Hm as <-.
  assert (B : 0 <= fold_right Qplus 0 (x :: rest)
              /\ fold_right Qplus 0 (x :: rest)
                 <= 100 * inject_Z (Z.of_nat (length (x :: rest)))).
  { induction H as [|y ys [Hy0 Hy1] Hys IH].
    - simpl. split; [lra|]. unfold Qle; simpl; lia.
    - destruct IH as [I0 I1].
      change (fold_right Qplus 0 (y :: ys)) with (y + fold_right Qplus 0 ys).
      assert (E : inject_Z (Z.of_nat (length (y :: ys)))
                  == 1 + inject_Z (Z.of_nat (length ys))).
      { cbn [length]. rewrite Nat2Z.inj_succ. unfold Z.succ.
        rewrite inject_Z_plus. ring. }
      rewrite E. split; lra. }
  assert (Hn : 0 < inject_Z (Z.of_nat (length (x :: rest)))).
  { unfold Qlt; simpl; lia. }
  destruct B as [B0 B1]. cbn [fold_right length] in B0, B1, Hn |- *. split.
  - apply Qle_shift_div_l; [exact Hn|lra].
  - apply Qle_shift_div_r; [exact Hn|exact B1].
Qed.

Lemma percent_k_series_length (bars : list Bars.Bar) (k_period : nat) :
  length (percent_k_series bars k_period) = length bars.
Proof.
  unfold percent_k_series.
  rewrite length_map, ffill_length, zip3_length;
    rewrite ?rolling_length, ?length_map; reflexivity.
Qed.

Lemma percent_k_series_range (bars : list Bars.Bar) (k_period : nat) :
  Forall percent (percent_k_series bars k_period).
Proof.
  unfold percent_k_series. apply List.Forall_forall. intros x Hx.
  apply in_map_iff in Hx. destruct Hx as [v [<- _]].
  apply IndicatorsMore.clip_is_percent.
Qed.

(** [calculate_stochastic] gives nothing on fewer than [k_period +
    d_period] bars; otherwise %K and %D have one entry per bar, every %K
    is between 0 and 100, and so is every %D that is not missing. *)
Theorem stochastic_shape (bars : list Bars.Bar) (k_period d_period : nat) :
  match calculate_stochastic bars k_period d_period with
  | None => (length bars < k_period + d_period)%nat
  | Some (percent_k, percent_d) =>
      (k_period + d_period <= length bars)%nat
      /\ length percent_k = length bars
      /\ length percent_d = length bars
      /\ Forall percent percent_k
      /\ Forall percent_or_missing percent_d
  end.
Proof.
  unfold calculate_stochastic.
  destruct (Nat.ltb_spec (length bars) (k_period + d_period)) as [H|H];
    [exact H|].
  split; [exact H|].
  split; [apply percent_k_series_length|].
  split; [now rewrite rolling_length, percent_k_series_length|].
  split; [apply percent_k_series_range|].
  unfold rolling. apply List.Forall_forall. intros x Hx.
  apply in_map_iff in Hx. destruct Hx as [i [<- _]].
  destruct (S i <? d_period)%nat; [exact I|].
  destruct (mean (window_at d_period i (percent_k_series bars k_period)))
    as [m|] eqn:Em; [|exact I].
  simpl. eapply mean_is_percent; [|exact Em].
  unfold window_at. apply Forall_take, Forall_drop.
  apply percent_k_series_range.
Qed.

Lemma bar_columns_nth (bars : list Bars.Bar) (i : nat) :
  (i < length bars)%nat ->
  exists b, nth_error bars i = Some b
            /\ nth_error (map Bars.close bars) i = Some (Bars.close b).
Proof.
  intros H. destruct (nth_error bars i) as [b|] eqn:E.
  - exists b. split; [reflexivity|]. now rewrite nth_error_map, E.
  - apply nth_error_None in E. lia.
Qed.

(** While fewer than [k_period] bars are in, %K is 50. *)
Theorem percent_k_warm_up_is_fifty (bars : list Bars.Bar)
    (k_period d_period i : nat) (percent_k : list Q)
    (percent_d : list (option Q)) :
  calculate_stochastic bars k_period d_period = Some (percent_k, percent_d) ->
  (S i < k_period)%nat ->
  nth_error percent_k i = Some 50.
Proof.
  unfold calculate_stochastic. intros Hs Hi.
  destruct (Nat.ltb_spec (length bars) (k_period + d_period)) as [H|H];
    [discriminate|].
  injection Hs as <- _. unfold percent_k_series.
  rewrite nth_error_map, ffill_nothing_yet; [reflexivity|].
  intros j Hj.
  destruct (bar_columns_nth bars j) as (b & _ & Hc); [lia|].
  rewrite (zip3_nth _ _ _ j (Bars.close b) None None Hc).
  - reflexivity.
  - rewrite rolling_nth by (rewrite length_map; lia).
    destruct (Nat.ltb_spec (S j) k_period); [reflexivity|lia].
  - rewrite rolling_nth by (rewrite length_map; lia).
    destruct (Nat.ltb_spec (S j) k_period); [reflexivity|lia].
Qed.

Lemma percent_k_warm_up_is_fifty_witness :
  exists percent_k percent_d,
    calculate_stochastic (Bars.all_custom_bars (Scenario.falling_window 199886))
                         14 3 = Some (percent_k, percent_d)
    /\ nth_error percent_k 12 = Some 50.
Proof.
  eexists _, _. split; [vm_compute; reflexivity|].
  eapply (percent_k_warm_up_is_fifty
            (Bars.all_custom_bars (Scenario.falling_window 199886)) 14 3 12);
    [vm_compute; reflexivity|lia].
Defined.

(** Where the highest high of the window equals its lowest low, %K
    repeats its value of the bar before, whatever that was. *)
Theorem percent_k_flat_range_repeats (bars : list Bars.Bar)
    (k_period d_period i : nat) (lo hi : Q) (percent_k : list Q)
    (percent_d : list (option Q)) :
  calculate_stochastic bars k_period d_period = Some (percent_k, percent_d) ->
  nth_error (rolling Risk.column_min k_period (map Bars.low bars)) (S i)
    = Some (Some lo) ->
  nth_error (rolling Risk.column_max k_period (map Bars.high bars)) (S i)
    = Some (Some hi) ->
  hi == lo ->
  nth_error percent_k (S i) = nth_error percent_k i.
Proof.
  unfold calculate_stochastic. intros Hs Hlo Hhi Heq.
  destruct (Nat.ltb_spec (length bars) (k_period + d_period)) as [H|H];
    [discriminate|].
  injection Hs as <- _. unfold percent_k_series.
  rewrite !nth_error_map. f_equal. apply ffill_repeats.
  assert (Hlen : (S i < length bars)%nat).
  { assert (nth_error (rolling Risk.column_min k_period (map Bars.low bars)) (S i)
            <> None) as Hn by congruence.
    apply nth_error_Some in Hn. now rewrite rolling_length, length_map in Hn. }
  destruct (bar_columns_nth bars (S i) Hlen) as (b & _ & Hc).
  rewrite (zip3_nth _ _ _ (S i) (Bars.close b) (Some lo) (Some hi) Hc Hlo Hhi).
  unfold raw_percent_k.
  assert (Qeq_bool (hi - lo) 0 = true) as -> by (apply Qeq_bool_iff; lra).
  reflexivity.
Qed.

Lemma percent_k_flat_range_repeats_witness :
  exists percent_k percent_d,
    calculate_stochastic
      [Bars.mkBar 0 2000 2001 2000 (20005 # 10) 3 None None None;
       Bars.mkBar 5 2002 2002 2002 2002 1 None None None] 1 1
    = Some (percent_k, percent_d)
    /\ nth_error percent_k 1 = nth_error percent_k 0.
Proof.
  eexists _, _. split; [vm_compute; reflexivity|].
  eapply (percent_k_flat_range_repeats
            [Bars.mkBar 0 2000 2001 2000 (20005 # 10) 3 None None None;
             Bars.mkBar 5 2002 2002 2002 2002 1 None None None] 1 1 0
            2002 2002);
    [vm_compute; reflexivity|reflexivity|reflexivity|reflexivity].
Defined.

End OscillatorFacts.

(** ** Lot size and the orders of the entry rules *)

Module OrderFacts.
Import Strategy.

Lemma lot_bounds (sym : SymbolInfo) (equity : option Q)
    (risk_percent stop_loss_points : Q) :
  volume_min sym <= volume_max sym ->
  volume_min sym
    <= calculate_dynamic_lot_size sym equity risk_percent stop_loss_points
  /\ calculate_dynamic_lot_size sym equity risk_percent stop_loss_points
     <= volume_max sym.
Proof.
  intros Hb. unfold calculate_dynamic_lot_size.
  destruct equity as [e|]; [|split; lra].
  destruct (Qle_bool _ 0); [split; lra|].
  set (fl := floordiv _ _ * volume_step sym).
  pose proof (pymax_ge_l (volume_min sym) fl).
  pose proof (pymin_le_l (volume_max sym) (pymax (volume_min sym) fl)).
  split; [|exact H0].
  unfold pymin. destruct (Qltb (pymax (volume_min sym) fl) (volume_max sym));
    lra.
Qed.

(** The lot size is within the venue's volume bounds, whatever the
    account, the risk and the stop distance; without account
    information it is the venue minimum. *)
Theorem lot_size_within_venue_bounds (sym : SymbolInfo) (equity : option Q)
    (risk_percent stop_loss_points : Q) :
  volume_min sym <= volume_max sym ->
  volume_min sym
    <= calculate_dynamic_lot_size sym equity risk_percent stop_loss_points
  /\ calculate_dynamic_lot_size sym equity risk_percent stop_loss_points
     <= volume_max sym
  /\ calculate_dynamic_lot_size sym None risk_percent stop_loss_points
     = volume_min sym.
Proof.
  intros Hb. destruct (lot_bounds sym equity risk_percent stop_loss_points Hb).
  repeat split; assumption.
Qed.

Lemma lot_size_within_venue_bounds_witness :
  volume_min Scenario.gold
    <= calculate_dynamic_lot_size Scenario.gold (Some 10000) (3 # 100) 150
  /\ calculate_dynamic_lot_size Scenario.gold (Some 10000) (3 # 100) 150
     <= volume_max Scenario.gold
  /\ calculate_dynamic_lot_size Scenario.gold None (3 # 100) 150
     = volume_min Scenario.gold.
Proof.
  apply (lot_size_within_venue_bounds Scenario.gold (Some 10000) (3 # 100) 150).
  discriminate.
Defined.

Lemma floordiv_below (a b : Q) : 0 < b -> floordiv a b * b <= a.
Proof.
  intros Hb. unfold floordiv.
  pose proof (Qfloor_le (a / b)) as Hf.
  assert (E : a / b * b == a) by (field; lra).
  rewrite <- E at 2.
  apply Qmult_le_compat_r; [exact Hf|lra].
Qed.

(** A lot size above the venue minimum never risks more than the given
    share of the equity over the stop distance: the loss at the stop,
    lots times points times value of a point per lot, is at most
    equity times risk percent. *)
Theorem lot_size_respects_risk (sym : SymbolInfo) (account_equity
    risk_percent stop_loss_points : Q) :
  0 < volume_step sym ->
  let lots := calculate_dynamic_lot_size sym (Some account_equity)
                risk_percent stop_loss_points in
  let loss_per_lot :=
    stop_loss_points * (trade_contract_size sym * point_value sym) in
  volume_min sym < lots ->
  lots * loss_per_lot <= account_equity * risk_percent.
Proof.
  intros Hstep lots loss_per_lot Hlots. subst lots.
  unfold calculate_dynamic_lot_size in *. fold loss_per_lot in Hlots |- *.
  destruct (Qle_bool loss_per_lot 0) eqn:Er; [lra|].
  apply Qle_bool_false in Er.
  set (calc := account_equity * risk_percent / loss_per_lot) in *.
  set (fl := floordiv calc (volume_step sym) * volume_step sym) in *.
  pose proof (floordiv_below calc (volume_step sym) Hstep) as Hfl.
  fold fl in Hfl.
  assert (Hle : pymin (volume_max sym) (pymax (volume_min sym) fl) <= calc).
  { pose proof (pymin_le_r (volume_max sym) (pymax (volume_min sym) fl)) as H1.
    unfold pymax in *. destruct (Qltb (volume_min sym) fl); lra. }
  assert (E : calc * loss_per_lot == account_equity * risk_percent)
    by (unfold calc; field; lra).
  rewrite <- E. apply Qmult_le_compat_r; [exact Hle|lra].
Qed.

Lemma lot_size_respects_risk_witness :
  calculate_dynamic_lot_size Scenario.gold (Some 10000) (3 # 100) 150
    * (150 * (trade_contract_size Scenario.gold * point_value Scenario.gold))
  <= 10000 * (3 # 100).
Proof.
  apply (lot_size_respects_risk Scenario.gold 10000 (3 # 100) 150);
    reflexivity.
Defined.

Lemma buy_order_fields (s : Settings) (sym : SymbolInfo) (x : Snapshot)
    (c : string) (o : Order) :
  buy_order s sym x c = Some o ->
  order_type o = ORDER_TYPE_BUY
  /\ sl o = price o - SL_POINTS s * point_value sym
  /\ volume o = calculate_dynamic_lot_size sym (account_equity x)
                  (RISK_PERCENT_PER_TRADE s) (SL_POINTS s)
  /\ 0 < volume o.
Proof.
  unfold buy_order. destruct (Qle_bool _ 0) eqn:E; [discriminate|].
  intros [= <-]. simpl. apply Qle_bool_false in E. auto.
Qed.

Lemma sell_order_fields (s : Settings) (sym : SymbolInfo) (x : Snapshot)
    (c : string) (o : Order) :
  sell_order s sym x c = Some o ->
  order_type o = ORDER_TYPE_SELL
  /\ sl o = price o + SL_POINTS s * point_value sym
  /\ volume o = calculate_dynamic_lot_size sym (account_equity x)
                  (RISK_PERCENT_PER_TRADE s) (SL_POINTS s)
  /\ 0 < volume o.
Proof.
  unfold sell_order. destruct (Qle_bool _ 0) eqn:E; [discriminate|].
  intros [= <-]. simpl. apply Qle_bool_false in E. auto.
Qed.

(** Every order of the entry rules has its stop SL_POINTS points on the
    loss side of its price, and a volume that is positive and within the
    venue's bounds. *)
Theorem entry_stop_and_volume (s : Settings) (sym : SymbolInfo) (t : Timers)
    (x : Snapshot) (o : Order) :
  new_entry s sym t x = Some o ->
  volume_min sym <= volume_max sym ->
  match order_type o with
  | ORDER_TYPE_BUY => sl o = price o - SL_POINTS s * point_value sym
  | ORDER_TYPE_SELL => sl o = price o + SL_POINTS s * point_value sym
  end
  /\ 0 < volume o
  /\ volume_min sym <= volume o
  /\ volume o <= volume_max sym.
Proof.
  intros H Hb. apply StrategyFacts.new_entry_cases in H.
  destruct H as (ma & c & _ & [[_ Ho]|[_ Ho]]).
  - apply buy_order_fields in Ho. destruct Ho as (-> & Hs & Hv & Hp).
    rewrite Hv in *. split; [exact Hs|]. split; [exact Hp|].
    now apply lot_bounds.
  - apply sell_order_fields in Ho. destruct Ho as (-> & Hs & Hv & Hp).
    rewrite Hv in *. split; [exact Hs|]. split; [exact Hp|].
    now apply lot_bounds.
Qed.

Lemma entry_stop_and_volume_witness :
  exists o,
    new_entry class_settings Scenario.gold Scenario.idle_timers
              Scenario.touching_cross = Some o
    /\ match order_type o with
       | ORDER_TYPE_BUY =>
           sl o = price o - SL_POINTS class_settings * point_value Scenario.gold
       | ORDER_TYPE_SELL =>
           sl o = price o + SL_POINTS class_settings * point_value Scenario.gold
       end
    /\ 0 < volume o
    /\ volume_min Scenario.gold <= volume o
    /\ volume o <= volume_max Scenario.gold.
Proof.
  eexists. split; [vm_compute; reflexivity|].
  apply (entry_stop_and_volume class_settings Scenario.gold
           Scenario.idle_timers Scenario.touching_cross);
    [vm_compute; reflexivity|discriminate].
Defined.

Ltac split_all H :=
  repeat (let H' := fresh "G" in
          apply andb_prop in H; destruct H as [H H']).

Lemma is_up_true (x : Slope) : is_up x = true -> x = UP.
Proof. destruct x; simpl; congruence. Qed.

Lemma is_down_true (x : Slope) : is_down x = true -> x = DOWN.
Proof. destruct x; simpl; congruence. Qed.

Lemma buy_rules_gates (s : Settings) (ma : Q) (t : Timers) (x : Snapshot) :
  dip_buy s ma t x = true \/ continuation_buy s ma t x = true ->
  m5_ma_slope x = UP
  /\ ma < live_mid_price x
  /\ inject_Z (num_open_positions x) < NUM_CONCURRENT_TRADES s
  /\ Const.TRADE_ENTRY_COOLDOWN_SECONDS < now x - last_buy_entry_timestamp t.
Proof.
  intros [H|H]; [unfold dip_buy in H|unfold continuation_buy in H];
    split_all H;
    match goal with
    | U : is_up _ = true, M : Qltb ma (live_mid_price x) = true,
      F : free_slot s x = true, C : buy_cooldown_over t x = true |- _ =>
        apply is_up_true in U; apply Qltb_lt in M;
        apply Qltb_lt in F; apply Qltb_lt in C; auto
    end.
Qed.

Lemma sell_rules_gates (s : Settings) (ma : Q) (t : Timers) (x : Snapshot) :
  rally_sell s ma t x = true \/ continuation_sell s ma t x = true ->
  m5_ma_slope x = DOWN
  /\ live_mid_price x < ma
  /\ inject_Z (num_open_positions x) < NUM_CONCURRENT_TRADES s
  /\ Const.TRADE_ENTRY_COOLDOWN_SECONDS < now x - last_sell_entry_timestamp t.
Proof.
  intros [H|H]; [unfold rally_sell in H|unfold continuation_sell in H];
    split_all H;
    match goal with
    | U : is_down _ = true, M : Qltb (live_mid_price x) ma = true,
      F : free_slot s x = true, C : sell_cooldown_over t x = true |- _ =>
        apply is_down_true in U; apply Qltb_lt in M;
        apply Qltb_lt in F; apply Qltb_lt in C; auto
    end.
Qed.

(** No order is sent unless every gate is open: the cooldown after a
    loss has run out, the spread is at most MAX_SPREAD_POINTS, there is a
    trend MA, fewer positions are open than NUM_CONCURRENT_TRADES, the
    last entry of the same side is more than
    TRADE_ENTRY_COOLDOWN_SECONDS ago, and the order goes with the trend:
    a buy on a rising MA with the mid price above it, a sell on a falling
    MA with the mid price below it. *)
Theorem entry_passes_every_gate (s : Settings) (sym : SymbolInfo) (t : Timers)
    (x : Snapshot) (o : Order) :
  new_entry s sym t x = Some o ->
  COOLDOWN_AFTER_TRADE_SECONDS s <= now x - last_trade_closed_timestamp t
  /\ (live_ask_price x - live_bid_price x) / point_value sym
     <= MAX_SPREAD_POINTS s
  /\ inject_Z (num_open_positions x) < NUM_CONCURRENT_TRADES s
  /\ exists ma,
       m5_ma x = Some ma
       /\ match order_type o with
          | ORDER_TYPE_BUY =>
              m5_ma_slope x = UP /\ ma < live_mid_price x
              /\ Const.TRADE_ENTRY_COOLDOWN_SECONDS
                 < now x - last_buy_entry_timestamp t
          | ORDER_TYPE_SELL =>
              m5_ma_slope x = DOWN /\ live_mid_price x < ma
              /\ Const.TRADE_ENTRY_COOLDOWN_SECONDS
                 < now x - last_sell_entry_timestamp t
          end.
Proof.
  intros H.
  assert (Hcases := StrategyFacts.new_entry_cases s sym t x o H).
  unfold new_entry in H.
  destruct (Qltb (now x - _) _) eqn:E1; [discriminate|].
  destruct (Qltb (MAX_SPREAD_POINTS s) _) eqn:E2; [discriminate|].
  apply Qltb_ge in E1. apply Qltb_ge in E2.
  destruct Hcases as (ma & c & Hma & [[Hrule Ho]|[Hrule Ho]]).
  - apply buy_order_fields in Ho. destruct Ho as (Ht & _).
    destruct (buy_rules_gates s ma t x Hrule) as (Hu & Hm & Hf & Hc).
    repeat split; try assumption. exists ma. rewrite Ht. auto.
  - apply sell_order_fields in Ho. destruct Ho as (Ht & _).
    destruct (sell_rules_gates s ma t x Hrule) as (Hu & Hm & Hf & Hc).
    repeat split; try assumption. exists ma. rewrite Ht. auto.
Qed.

Lemma entry_passes_every_gate_witness :
  exists o,
    new_entry class_settings Scenario.gold Scenario.idle_timers
              Scenario.touching_cross = Some o
    /\ COOLDOWN_AFTER_TRADE_SECONDS class_settings
       <= now Scenario.touching_cross
          - last_trade_closed_timestamp Scenario.idle_timers
    /\ (live_ask_price Scenario.touching_cross
        - live_bid_price Scenario.touching_cross) / point_value Scenario.gold
       <= MAX_SPREAD_POINTS class_settings
    /\ inject_Z (num_open_positions Scenario.touching_cross)
       < NUM_CONCURRENT_TRADES class_settings
    /\ exists ma,
         m5_ma Scenario.touching_cross = Some ma
         /\ match order_type o with
            | ORDER_TYPE_BUY =>
                m5_ma_slope Scenario.touching_cross = UP
                /\ ma < live_mid_price Scenario.touching_cross
                /\ Const.TRADE_ENTRY_COOLDOWN_SECONDS
                   < now Scenario.touching_cross
                     - last_buy_entry_timestamp Scenario.idle_timers
            | ORDER_TYPE_SELL =>
                m5_ma_slope Scenario.touching_cross = DOWN
                /\ live_mid_price Scenario.touching_cross < ma
                /\ Const.TRADE_ENTRY_COOLDOWN_SECONDS
                   < now Scenario.touching_cross
                     - last_sell_entry_timestamp Scenario.idle_timers
            end.
Proof.
  eexists. split; [vm_compute; reflexivity|].
  apply (entry_passes_every_gate class_settings Scenario.gold
           Scenario.idle_timers Scenario.touching_cross).
  vm_compute; reflexivity.
Defined.

End OrderFacts.

(** ** Configuration files, both loaders *)

Module ConfigMore.
Import Config.

Lemma get_get (config : gmap string Q) (key : string) (d : Q) :
  get config key (get config key d) = get config key d.
Proof. unfold get. now destruct (config !! key). Qed.

(** Loading the same file again changes nothing more, and the result
    does not depend on how often the 30-second reload has run. *)
Theorem load_config_twice (s : Settings) (f : ConfigFile) :
  fst (load_config_from_file (fst (load_config_from_file s f)) f)
  = fst (load_config_from_file s f).
Proof.
  destruct f as [| |config]; simpl; [reflexivity|reflexivity|].
  now rewrite !get_get.
Qed.

(** An object with none of the eleven keys leaves every setting as it
    was, and still counts as loaded. *)
Theorem load_config_without_keys (s : Settings) (config : gmap string Q) :
  (forall key,
     In key ["MAX_SPREAD_POINTS"; "RSI_OVERSOLD"; "RSI_OVERBOUGHT";
             "RISK_PERCENT_PER_TRADE"; "SL_POINTS"; "TP_POINTS";
             "MAX_HOLD_TIME_SECONDS"; "NUM_CONCURRENT_TRADES";
             "BREAK_EVEN_PROFIT_POINTS"; "ATR_MULTIPLIER";
             "COOLDOWN_AFTER_TRADE_SECONDS"]%string ->
     config !! key = None) ->
  load_config_from_file s (Object config) = (s, true).
Proof.
  intros H. simpl. unfold get.
  rewrite !H by (simpl; tauto).
  destruct s; reflexivity.
Qed.

Lemma load_config_without_keys_witness :
  load_config_from_file class_settings (Object {[ "SYMBOL" := 1 ]})
  = (class_settings, true).
Proof.
  apply (load_config_without_keys class_settings).
  intros key Hin. apply lookup_singleton_ne.
  simpl in Hin. intuition (subst; discriminate).
Defined.

Lemma float_min_capped (v : Indicators.fval) (cap : Q) :
  v <> Indicators.NaN ->
  Terms.at_most (Ultra.float_min v (Indicators.Fin cap)) cap.
Proof.
  intros Hv. unfold Ultra.float_min, Ultra.flt.
  destruct v as [q| | |]; simpl; try lra; try tauto; try congruence.
  destruct (Qltb cap q) eqn:E; simpl; [lra|]. now apply Qltb_ge in E.
Qed.

Lemma float_max_floored (v : Indicators.fval) (floor : Q) :
  v <> Indicators.NaN ->
  Terms.at_least (Ultra.float_max v (Indicators.Fin floor)) floor.
Proof.
  intros Hv. unfold Ultra.float_max, Ultra.flt.
  destruct v as [q| | |]; simpl; try lra; try tauto; try congruence.
  destruct (Qltb q floor) eqn:E; simpl; [lra|]. now apply Qltb_ge in E.
Qed.

Lemma load_values_capped (u : Ultra.UltraValues) (f : Ultra.JsonFile) :
  Ultra.capped_keys_not_nan f -> Terms.within_caps u ->
  Terms.within_caps (Ultra.load_values u f).
Proof.
  intros (N1 & N2 & N3) (H1 & H2 & H3).
  destruct f as [| |config]; [split; auto|split; auto|].
  unfold Ultra.not_nan in N1, N2, N3. unfold Ultra.load_values.
  assert (C1 : forall v, config !! "RISK_PERCENT_PER_TRADE"
                         = Some (Ultra.Number v) ->
               Terms.at_most (Ultra.float_min v (Indicators.Fin (15 # 1000)))
                             (15 # 1000)).
  { intros v E. apply float_min_capped. intros ->. now apply N1. }
  assert (C2 : forall v, config !! "RSI_OVERSOLD" = Some (Ultra.Number v) ->
               Terms.at_least (Ultra.float_max v (Indicators.Fin 25)) 25).
  { intros v E. apply float_max_floored. intros ->. now apply N2. }
  assert (C3 : forall v, config !! "RSI_OVERBOUGHT" = Some (Ultra.Number v) ->
               Terms.at_most (Ultra.float_min v (Indicators.Fin 75)) 75).
  { intros v E. apply float_min_capped. intros ->. now apply N3. }
  destruct (config !! "RISK_PERCENT_PER_TRADE") as [[r|]|];
    destruct (config !! "RSI_OVERSOLD") as [[o|]|];
    destruct (config !! "RSI_OVERBOUGHT") as [[b|]|];
    unfold Terms.within_caps; simpl; repeat split; auto.
Qed.

(** The loader on files of finite numbers is [load_values] on them. *)
Lemma load_values_of_numbers (u : Ultra.UltraSettings) (f : ConfigFile) :
  Ultra.load_values (Ultra.values_of u) (Ultra.json_of f)
  = Ultra.values_of (Ultra.load_configuration u f).
Proof.
  destruct f as [| |config]; [reflexivity|reflexivity|].
  unfold Ultra.load_values, Ultra.json_of, Ultra.load_configuration,
    Ultra.values_of, get.
  rewrite !lookup_fmap.
  destruct (config !! "RISK_PERCENT_PER_TRADE"),
           (config !! "MAX_SPREAD_POINTS"),
           (config !! "RSI_OVERSOLD"),
           (config !! "RSI_OVERBOUGHT"); simpl;
    unfold Ultra.float_min, Ultra.float_max, Ultra.flt, pymin, pymax;
    repeat match goal with |- context [Qltb ?a ?b] => destruct (Qltb a b) end;
    reflexivity.
Qed.

(** [ULTRA_bot.load_configuration] keeps its settings within the caps
    (risk at most 1.5 percent, RSI oversold at least 25, RSI overbought
    at most 75) from its defaults on and over any sequence of loads, as
    long as no file gives NaN for one of the three keys: strings, lists,
    infinities and numbers of any size are all caught or capped.  A NaN
    goes through [min] and [max] as it is and becomes the setting. *)
Theorem ultra_stays_within_caps (files : list Ultra.JsonFile) :
  Forall Ultra.capped_keys_not_nan files ->
  Terms.within_caps
    (fold_left Ultra.load_values files (Ultra.values_of Ultra.ultra_defaults))
  /\ (forall u config,
        config !! "RISK_PERCENT_PER_TRADE" = Some (Ultra.Number Indicators.NaN) ->
        Ultra.V_RISK_PERCENT_PER_TRADE
          (Ultra.load_values u (Ultra.JsonObject config))
        = Indicators.NaN)
  /\ (forall u config,
        config !! "RISK_PERCENT_PER_TRADE" = None ->
        config !! "RSI_OVERSOLD" = Some (Ultra.Number Indicators.NaN) ->
        Ultra.V_RSI_OVERSOLD (Ultra.load_values u (Ultra.JsonObject config))
        = Indicators.NaN).
Proof.
  intros Hall. split; [|split].
  - assert (G : forall u, Terms.within_caps u ->
               Terms.within_caps (fold_left Ultra.load_values files u)).
    { induction Hall as [|f files Hf Hall IH]; intros u Hu; simpl; [exact Hu|].
      apply IH. now apply load_values_capped. }
    apply G. unfold Terms.within_caps. simpl. repeat split; discriminate.
  - intros u config E. unfold Ultra.load_values. rewrite E.
    destruct (config !! "RSI_OVERSOLD") as [[o|]|];
      destruct (config !! "RSI_OVERBOUGHT") as [[b|]|]; reflexivity.
  - intros u config E1 E2. unfold Ultra.load_values. rewrite E1, E2.
    destruct (config !! "RSI_OVERBOUGHT") as [[b|]|]; reflexivity.
Qed.

Lemma ultra_stays_within_caps_witness :
  Terms.within_caps
    (fold_left Ultra.load_values
       [Ultra.JsonObject
          (<[ "RISK_PERCENT_PER_TRADE" := Ultra.Number (Indicators.Fin (1 # 2)) ]>
             (<[ "RSI_OVERSOLD" := Ultra.Number Indicators.NegInf ]>
                (<[ "RSI_OVERBOUGHT" := Ultra.NotNumber ]> ∅)));
        Ultra.NoObject]
       (Ultra.values_of Ultra.ultra_defaults)).
Proof.
  apply (ultra_stays_within_caps
           [Ultra.JsonObject
              (<[ "RISK_PERCENT_PER_TRADE"
                  := Ultra.Number (Indicators.Fin (1 # 2)) ]>
                 (<[ "RSI_OVERSOLD" := Ultra.Number Indicators.NegInf ]>
                    (<[ "RSI_OVERBOUGHT" := Ultra.NotNumber ]> ∅)));
            Ultra.NoObject]).
  repeat constructor; unfold Ultra.not_nan; vm_compute; discriminate.
Defined.

End ConfigMore.

(** ** More on position management *)

Module RiskMore.
Import Risk Terms.

(** What the partial-profit step can have called. *)
Lemma partial_step_calls (sym : SymbolInfo) (taken : bool)
    (answer : CloseResult) (p : Position) (profit : Q) :
  let closing :=
    close_position (ticket p) (Some (volume_to_close sym (volume p)))
                   "PARTIAL PROFIT" in
  let out := calls (partial_profit_step sym taken answer p profit) in
  out = []
  \/ (partial_trigger sym taken p profit = true
      /\ remainder_valid sym (volume p) (volume_to_close sym (volume p)) = true
      /\ (out = [closing]
          \/ out = [closing;
                    modify_position_sl_tp (ticket p) (new_sl_after_partial sym p)
                                          (tp p)])).
Proof.
  intros closing out. subst out. unfold partial_profit_step.
  destruct (partial_trigger sym taken p profit); [|left; reflexivity].
  destruct (remainder_valid sym _ _); [|left; reflexivity].
  right. split; [reflexivity|]. split; [reflexivity|].
  destruct answer as [|[|]]; simpl; auto.
  destruct (better_stop _ _ _); simpl; auto.
Qed.

Lemma manage_position_shape (s : Settings) (sym : SymbolInfo) (m : Market)
    (tr : option Tracked) (v : Venue) (p : Position) (bid ask : Q) :
  symbol_info_tick v = Some (bid, ask) ->
  let profit := profit_points sym p bid ask in
  let adverse := current_adverse_excursion_points sym p bid ask in
  let taken := match tr with
               | Some t => partial_profit_taken t
               | None => false
               end in
  let first := calls (partial_profit_step sym taken (partial_close v) p profit) in
  exists rest,
    calls (manage_position s sym m tr v p) = first ++ rest
    /\ (rest = []
        \/ (exists reason,
              rest = [close_position (ticket p) None reason]
              /\ (profit <= 0))
        \/ rest = stop_rules s sym m p profit adverse bid ask).
Proof.
  intros Ht profit adverse taken first.
  unfold manage_position. rewrite Ht. fold profit adverse taken.
  destruct (raised (partial_profit_step sym taken _ p profit)).
  - exists []. split; [now rewrite app_nil_r|left; reflexivity].
  - destruct (time_exit_fires s _ _ profit) eqn:Et.
    + eexists. split; [reflexivity|]. right. left. eexists. split; [reflexivity|].
      unfold time_exit_fires in Et. destruct (option_map open_time tr);
        [|discriminate].
      apply andb_prop in Et. destruct Et as [_ Et].
      now apply Qle_bool_iff in Et.
    + destruct (kill_switch_fires adverse) eqn:Ek.
      * eexists. split; [reflexivity|]. right. left. eexists.
        split; [reflexivity|].
        pose proof (RiskFacts.profit_is_minus_adverse sym p bid ask) as Hp.
        fold profit adverse in Hp.
        unfold kill_switch_fires, Const.MAX_ADVERSE_EXCURSION_CLOSE_POINTS in Ek.
        apply Qgeb_le in Ek. lra.
      * eexists. split; [reflexivity|]. right. right. reflexivity.
Qed.

(** The manager never closes in full a position that is in profit: a
    close of the whole position, by the time exit or by the kill switch,
    comes only at a profit in points of zero or less. *)
Theorem full_close_only_without_profit (s : Settings) (sym : SymbolInfo)
    (m : Market) (tr : option Tracked) (v : Venue) (p : Position)
    (bid ask : Q) (t : Z) (reason : string) :
  symbol_info_tick v = Some (bid, ask) ->
  In (close_position t None reason) (calls (manage_position s sym m tr v p)) ->
  profit_points sym p bid ask <= 0.
Proof.
  intros Ht Hin.
  destruct (manage_position_shape s sym m tr v p bid ask Ht)
    as (rest & E0 & Hrest).
  rewrite E0 in Hin. apply in_app_or in Hin. destruct Hin as [Hin|Hin].
  - destruct (partial_step_calls sym
                (match tr with Some t0 => partial_profit_taken t0 | None => false end)
                (partial_close v) p (profit_points sym p bid ask))
      as [E|(_ & _ & [E|E])]; rewrite E in Hin; simpl in Hin;
      intuition discriminate.
  - destruct Hrest as [->|[(r & -> & Hp)| ->]].
    + contradiction.
    + exact Hp.
    + pose proof (RiskFacts.stop_rules_move_stops s sym m p
                    (profit_points sym p bid ask)
                    (current_adverse_excursion_points sym p bid ask) bid ask)
        as F.
      rewrite List.Forall_forall in F. specialize (F _ Hin). discriminate.
Qed.

Lemma full_close_only_without_profit_witness :
  profit_points Scenario.gold Scenario.long_at_ceiling 1998 (199820 # 100) <= 0.
Proof.
  apply (full_close_only_without_profit Scenario.wide_stop_settings
           Scenario.gold Scenario.no_market
           (Some (mkTracked 2000 1997 ORDER_TYPE_BUY 2005 0 false))
           (mkVenue (Some (1998, 199820 # 100)) 121 close_failed)
           Scenario.long_at_ceiling 1998 (199820 # 100) 2
           "TIME-BASED EXIT (UNPROFITABLE)");
    [reflexivity|vm_compute; left; reflexivity].
Defined.

Lemma stop_rules_on_position (s : Settings) (sym : SymbolInfo) (m : Market)
    (p : Position) (profit adverse bid ask : Q) :
  Forall (fun c => call_ticket c = ticket p /\ keeps_target p c)
         (stop_rules s sym m p profit adverse bid ask).
Proof.
  unfold stop_rules. apply Forall_app. split.
  - destruct (Qltb profit 0 && Qgeb adverse _).
    + unfold aggressive_rule. destruct (momentum_confirmed _ _ m p);
        [|constructor].
      destruct (match type_ p with
                | ORDER_TYPE_BUY => _
                | ORDER_TYPE_SELL => _
                end); repeat constructor.
    + destruct (Qgeb profit _); [|constructor].
      unfold break_even_rule. destruct (better_stop _ _ _); repeat constructor.
  - unfold trailing_rule. destruct (current_atr m); [|constructor].
    destruct (Qltb _ profit); [|constructor].
    destruct (_ && _); repeat constructor.
Qed.

Lemma calls_on_position (s : Settings) (sym : SymbolInfo) (m : Market)
    (tr : option Tracked) (v : Venue) (p : Position) :
  Forall (fun c => call_ticket c = ticket p /\ keeps_target p c)
         (calls (manage_position s sym m tr v p)).
Proof.
  destruct (symbol_info_tick v) as [[bid ask]|] eqn:Ht.
  - destruct (manage_position_shape s sym m tr v p bid ask Ht)
      as (rest & -> & Hrest).
    apply Forall_app. split.
    + destruct (partial_step_calls sym
                  (match tr with Some t0 => partial_profit_taken t0 | None => false end)
                  (partial_close v) p (profit_points sym p bid ask))
        as [E|(_ & _ & [E|E])]; rewrite E; repeat constructor.
    + destruct Hrest as [->|[(r & -> & _)| ->]].
      * constructor.
      * repeat constructor.
      * apply stop_rules_on_position.
  - unfold manage_position. rewrite Ht. constructor.
Qed.

(** Whatever is called while the positions are managed is called on the
    ticket of one of them, and no modification changes the take-profit
    of the position it is made for. *)
Theorem calls_stay_on_position (s : Settings) (sym : SymbolInfo) (m : Market)
    (tr : option Tracked) (v : Venue) (venue : Z -> Venue)
    (tracked : gmap Z Tracked) (p : Position) (positions : list Position) :
  Forall (fun c => call_ticket c = ticket p /\ keeps_target p c)
         (calls (manage_position s sym m tr v p))
  /\ Forall (fun c => In (call_ticket c) (map ticket positions))
            (fst (manage_list s sym m venue tracked positions)).
Proof.
  split; [apply calls_on_position|].
  revert tracked. induction positions as [|q rest IH]; intros tracked; simpl.
  - constructor.
  - set (o := manage_position s sym m (tracked !! ticket q) (venue (ticket q)) q).
    assert (Ho : Forall (fun c => In (call_ticket c) (ticket q :: map ticket rest))
                        (calls o)).
    { eapply List.Forall_impl; [|apply (calls_on_position s sym m _ _ q)].
      intros c [-> _]. left. reflexivity. }
    destruct (raised o); [exact Ho|].
    set (tracked' := if flag_set o then _ else _).
    specialize (IH tracked').
    destruct (manage_list s sym m venue tracked' rest) as [later tr''].
    simpl in *. apply Forall_app. split; [exact Ho|].
    eapply List.Forall_impl; [|exact IH]. intros c Hc. right. exact Hc.
Qed.

Lemma volume_to_close_valid (sym : SymbolInfo) (lots : Q) :
  0 < volume_step sym -> 0 <= volume_min sym -> volume_min sym < lots ->
  volume_min sym <= volume_to_close sym lots
  /\ volume_to_close sym lots < lots.
Proof.
  intros Hs Hm Hl. unfold volume_to_close.
  set (fl := float_floordiv _ _ * volume_step sym).
  assert (Hhalf : lots * Const.PARTIAL_PROFIT_PERCENTAGE == lots * (1 # 2)).
  { unfold Const.PARTIAL_PROFIT_PERCENTAGE. ring. }
  assert (Hfl : fl <= lots * Const.PARTIAL_PROFIT_PERCENTAGE
                      * (9007199254740993 # 9007199254740991)).
  { apply float_floordiv_below; [|exact Hs]. lra. }
  pose proof (pymax_ge_r fl (volume_min sym)).
  split; [assumption|].
  unfold pymax. destruct (Qltb fl (volume_min sym)); lra.
Qed.

(** A partial close asks for at least the venue minimum and for less
    than the position holds. *)
Theorem partial_close_volume_is_valid (s : Settings) (sym : SymbolInfo)
    (m : Market) (tr : option Tracked) (v : Venue) (p : Position)
    (t : Z) (amount : Q) (reason : string) :
  0 < volume_step sym -> 0 <= volume_min sym ->
  In (close_position t (Some amount) reason)
     (calls (manage_position s sym m tr v p)) ->
  volume_min sym <= amount /\ amount < volume p.
Proof.
  intros Hs Hm Hin.
  destruct (symbol_info_tick v) as [[bid ask]|] eqn:Ht;
    [|unfold manage_position in Hin; rewrite Ht in Hin; contradiction].
  destruct (RiskFacts.manage_position_starts_with_partial s sym m tr v p bid ask Ht)
    as (rest & E & Hnone).
  rewrite E in Hin. apply in_app_or in Hin. destruct Hin as [Hin|Hin].
  - destruct (partial_step_calls sym
                (match tr with Some t0 => partial_profit_taken t0 | None => false end)
                (partial_close v) p (profit_points sym p bid ask))
      as [E'|(Htrig & _ & E')].
    + rewrite E' in Hin. contradiction.
    + assert (Hvol : volume_min sym < volume p).
      { unfold partial_trigger in Htrig. apply andb_prop in Htrig.
        destruct Htrig as [_ Hv]. now apply Qltb_lt in Hv. }
      assert (amount = volume_to_close sym (volume p)) as ->.
      { destruct E' as [E'|E']; rewrite E' in Hin; simpl in Hin;
          intuition congruence. }
      now apply volume_to_close_valid.
  - rewrite List.Forall_forall in Hnone. specialize (Hnone _ Hin).
    discriminate.
Qed.

Lemma partial_close_volume_is_valid_witness :
  volume_min Scenario.gold <= 5 # 100
  /\ 5 # 100 < volume (Scenario.long_at_trigger (10 # 100)).
Proof.
  apply (partial_close_volume_is_valid class_settings Scenario.gold
           Scenario.no_market
           (Some (mkTracked 2000 (199850 # 100) ORDER_TYPE_BUY 2005 0 false))
           (mkVenue (Some (200150 # 100, 200160 # 100)) 60 (close_done true))
           (Scenario.long_at_trigger (10 # 100)) 3 (5 # 100) "PARTIAL PROFIT");
    [reflexivity|discriminate|].
  vm_compute. left. reflexivity.
Defined.

(** Once [partial_profit_taken] is set for a position, no part of it is
    closed again. *)
Theorem partial_is_taken_once (s : Settings) (sym : SymbolInfo) (m : Market)
    (t : Tracked) (v : Venue) (p : Position) :
  partial_profit_taken t = true ->
  Forall (fun c => closes_part c = false)
         (calls (manage_position s sym m (Some t) v p)).
Proof.
  intros Htaken.
  destruct (symbol_info_tick v) as [[bid ask]|] eqn:Ht;
    [|unfold manage_position; rewrite Ht; constructor].
  destruct (RiskFacts.manage_position_starts_with_partial s sym m (Some t) v p
              bid ask Ht) as (rest & -> & Hnone).
  rewrite Htaken. apply Forall_app. split; [|exact Hnone].
  unfold partial_profit_step, partial_trigger. simpl. constructor.
Qed.

Lemma partial_is_taken_once_witness :
  Forall (fun c => closes_part c = false)
    (calls (manage_position class_settings Scenario.gold Scenario.no_market
              (Some (mkTracked 2000 (199850 # 100) ORDER_TYPE_BUY 2005 0 true))
              (mkVenue (Some (200150 # 100, 200160 # 100)) 60 (close_done true))
              (Scenario.long_at_trigger (10 # 100)))).
Proof.
  apply (partial_is_taken_once class_settings Scenario.gold Scenario.no_market
           (mkTracked 2000 (199850 # 100) ORDER_TYPE_BUY 2005 0 true)).
  reflexivity.
Defined.

End RiskMore.


(** ** The venue methods *)

Module VenueFacts.
Import Venue.

Ltac conjuncts := repeat match goal with |- _ /\ _ => split end.

Lemma same_level_refl_near (a b : Q) :
  Qabs (a - b) < 1 # 1000000000 -> same_level a b = true.
Proof.
  intros H. unfold same_level, Qltb.
  destruct (Qle_bool (1 # 1000000000) (Qabs (a - b))) eqn:E; [|reflexivity].
  apply Qle_bool_iff in E. lra.
Qed.

(** Two modifications with the same levels, the first one done and the
    venue then showing the requested levels to within 1e-9: together
    they send one request at most, the second sends none and leaves the
    bot as the first left it, and a tracked ticket holds the requested
    levels with its other fields unchanged. *)
Theorem modify_twice_sends_once (b : Bot) (before after : Risk.Position)
    (order : Z) (a : Answer) (ticket : Z) (new_sl new_tp : Q) :
  Qabs (Risk.sl after - new_sl) < 1 # 1000000000 ->
  Qabs (Risk.tp after - new_tp) < 1 # 1000000000 ->
  match modify_position_sl_tp b (Some before) (retcode_done order)
                              ticket new_sl new_tp with
  | (b1, sent1, ok1) =>
      modify_position_sl_tp b1 (Some after) a ticket new_sl new_tp
      = (b1, [], true)
      /\ (length sent1 <= 1)%nat
      /\ ok1 = true
      /\ (sent1 = [] -> b1 = b)
      /\ (sent1 <> [] ->
          forall t, tracked_positions b !! ticket = Some t ->
            tracked_positions b1 !! ticket
            = Some (Risk.mkTracked (Risk.entry_price t) new_sl
                      (Risk.tracked_type t) new_tp (Risk.open_time t)
                      (Risk.partial_profit_taken t)))
  end.
Proof.
  intros Hsl Htp.
  assert (Hagain : forall b1,
             modify_position_sl_tp b1 (Some after) a ticket new_sl new_tp
             = (b1, [], true)).
  { intros b1. unfold modify_position_sl_tp.
    now rewrite (same_level_refl_near _ _ Hsl), (same_level_refl_near _ _ Htp). }
  unfold modify_position_sl_tp at 1.
  destruct (same_level (Risk.sl before) new_sl
            && same_level (Risk.tp before) new_tp).
  - split; [apply Hagain|]. simpl. repeat split; auto. congruence.
  - split; [apply Hagain|]. simpl. repeat split; auto; [discriminate|].
    intros _ t Ht. rewrite lookup_alter_eq, Ht. reflexivity.
Qed.

Lemma modify_twice_sends_once_witness :
  match modify_position_sl_tp
          (mkBot {[ 7%Z := Risk.mkTracked 2000 1998 ORDER_TYPE_BUY 2005 0 false ]}
                 Reversal.initial_watch 0 0)
          (Some (Risk.mkPosition 7 2000 1998 2005 ORDER_TYPE_BUY (10 # 100)))
          (retcode_done 0) 7 (200002 # 100) 2005 with
  | (b1, sent1, ok1) =>
      modify_position_sl_tp b1
        (Some (Risk.mkPosition 7 2000 (200002 # 100) 2005 ORDER_TYPE_BUY
                               (10 # 100)))
        retcode_other 7 (200002 # 100) 2005
      = (b1, [], true)
      /\ (length sent1 <= 1)%nat
      /\ ok1 = true
      /\ (sent1 = [] ->
          b1 = mkBot {[ 7%Z := Risk.mkTracked 2000 1998 ORDER_TYPE_BUY 2005 0
                                              false ]}
                     Reversal.initial_watch 0 0)
      /\ (sent1 <> [] ->
          forall t,
            tracked_positions
              (mkBot {[ 7%Z := Risk.mkTracked 2000 1998 ORDER_TYPE_BUY 2005 0
                                              false ]}
                     Reversal.initial_watch 0 0) !! 7%Z = Some t ->
            tracked_positions b1 !! 7%Z
            = Some (Risk.mkTracked (Risk.entry_price t) (200002 # 100)
                      (Risk.tracked_type t) 2005 (Risk.open_time t)
                      (Risk.partial_profit_taken t)))
  end.
Proof.
  apply (modify_twice_sends_once
           (mkBot {[ 7%Z := Risk.mkTracked 2000 1998 ORDER_TYPE_BUY 2005 0
                                           false ]}
                  Reversal.initial_watch 0 0)
           (Risk.mkPosition 7 2000 1998 2005 ORDER_TYPE_BUY (10 # 100))
           (Risk.mkPosition 7 2000 (200002 # 100) 2005 ORDER_TYPE_BUY
                            (10 # 100))
           0 retcode_other 7 (200002 # 100) 2005);
    vm_compute; reflexivity.
Defined.

(** What [close_position] sends and what it does to the tracking, for a
    venue minimum that is positive.  It sends one request at most, never
    for a volume of zero or less, always on the side opposite to the
    position, and nothing when the venue no longer has the position.
    Only the ticket closed can leave [tracked_positions], and nothing
    else of the bot changes.  The ticket leaves when the venue no longer
    has the position and when a close of the whole position is done; it
    stays when the close is not done, and when a partial close leaves at
    least the venue minimum. *)
Theorem close_position_request_and_tracking (sym : SymbolInfo) (b : Bot)
    (position_data : option Risk.Position) (tick : option (Q * Q))
    (a : Answer) (ticket : Z) (volume_to_close : option Q) (reason : string) :
  0 < volume_min sym ->
  match close_position sym b position_data tick a ticket volume_to_close
                       reason with
  | (b', sent, result) =>
      (length sent <= 1)%nat
      /\ (forall position type price volume comment,
            In (close_deal position type price volume comment) sent ->
            position = ticket /\ 0 < volume
            /\ exists p, position_data = Some p
                 /\ type = opposite (Risk.type_ p)
                 /\ volume = default (Risk.volume p) volume_to_close)
      /\ (forall position sl tp, ~ In (set_sltp position sl tp) sent)
      /\ (result = Some true -> sent <> [])
      /\ (forall k, k <> ticket ->
            tracked_positions b' !! k = tracked_positions b !! k)
      /\ watch b' = watch b
      /\ last_buy_entry_timestamp b' = last_buy_entry_timestamp b
      /\ last_sell_entry_timestamp b' = last_sell_entry_timestamp b
      /\ (position_data = None -> tracked_positions b' !! ticket = None)
      /\ (volume_to_close = None -> result = Some true ->
          tracked_positions b' !! ticket = None)
      /\ (result <> Some true -> position_data <> None -> b' = b)
      /\ (forall p v, position_data = Some p -> volume_to_close = Some v ->
            volume_min sym <= Risk.volume p - v -> b' = b)
  end.
Proof.
  intros Hmin. unfold close_position.
  destruct position_data as [p|].
  2:{ cbn. conjuncts; try (simpl; lia); try congruence.
      - intros k Hk. now rewrite lookup_delete_ne.
      - intros _. apply lookup_delete_eq. }
  set (volume := match volume_to_close with Some v => v | None => Risk.volume p end).
  assert (Hvol : volume = default (Risk.volume p) volume_to_close)
    by (unfold volume; now destruct volume_to_close).
  assert (Hnone : forall position type price v comment,
             In (close_deal position type price v comment) [] ->
             position = ticket /\ 0 < v
             /\ exists p0, Some p = Some p0
                  /\ type = opposite (Risk.type_ p0)
                  /\ v = default (Risk.volume p0) volume_to_close)
    by (intros ? ? ? ? ? []).
  assert (Hnone' : forall position sl tp, ~ In (set_sltp position sl tp) [])
    by (intros ? ? ? []).
  destruct (Qle_bool volume 0) eqn:Ez.
  { cbn. conjuncts; try (simpl; lia); try congruence; auto. }
  apply Qle_bool_false in Ez.
  destruct tick as [[bid ask]|].
  2:{ cbn. conjuncts; try (simpl; lia); try congruence; auto. }
  set (request := close_deal _ _ _ _ _).
  assert (Hreq : forall position type price v comment,
             In (close_deal position type price v comment) [request] ->
             position = ticket /\ 0 < v
             /\ exists p0, Some p = Some p0
                  /\ type = opposite (Risk.type_ p0)
                  /\ v = default (Risk.volume p0) volume_to_close).
  { intros position type price v comment [E|[]]. unfold request in E.
    injection E as <- <- _ <- _. repeat split; auto. exists p. auto. }
  assert (Hno : forall position sl tp, ~ In (set_sltp position sl tp) [request]).
  { intros position sl tp [E|[]]. discriminate. }
  destruct a as [| |order].
  - cbn. conjuncts; try (simpl; lia); try congruence; auto.
  - cbn. conjuncts; try (simpl; lia); try congruence; auto.
  - destruct (Qle_bool (Risk.volume p - volume) (volume_min sym / 2)) eqn:Er.
    + apply Qle_bool_iff in Er.
      assert (Hhalf : volume_min sym / 2 < volume_min sym).
      { apply Qlt_shift_div_r; lra. }
      cbn. conjuncts; try (simpl; lia); try congruence; auto.
      * intros k Hk. now rewrite lookup_delete_ne.
      * intros _ _. apply lookup_delete_eq.
      * intros p0 v E1 E2 Hle. injection E1 as <-. subst volume_to_close.
        simpl in Hvol. subst volume. lra.
    + apply Qle_bool_false in Er.
      cbn. conjuncts; try (simpl; lia); try congruence; auto.
      intros E _. subst volume_to_close. simpl in Hvol. subst volume.
      assert (Risk.volume p - Risk.volume p == 0) by ring.
      assert (0 < volume_min sym / 2) by (apply Qlt_shift_div_l; lra).
      lra.
Qed.

Lemma close_position_request_and_tracking_witness :
  match close_position Scenario.gold
          (mkBot {[ 7%Z := Risk.mkTracked 2000 1998 ORDER_TYPE_BUY 2005 0 false ]}
                 Reversal.initial_watch 0 0)
          (Some (Risk.mkPosition 7 2000 1998 2005 ORDER_TYPE_BUY (10 # 100)))
          (Some (2001, 200110 # 100)) (retcode_done 0) 7 None
          "MAX ADVERSE EXCURSION" with
  | (b', sent, result) =>
      (length sent <= 1)%nat
      /\ (forall position type price volume comment,
            In (close_deal position type price volume comment) sent ->
            position = 7%Z /\ 0 < volume
            /\ exists p,
                 (Some (Risk.mkPosition 7 2000 1998 2005 ORDER_TYPE_BUY (10 # 100))) = Some p
                 /\ type = opposite (Risk.type_ p)
                 /\ volume = default (Risk.volume p) None)
      /\ (forall position sl tp, ~ In (set_sltp position sl tp) sent)
      /\ (result = Some true -> sent <> [])
      /\ (forall k, k <> 7%Z ->
            tracked_positions b' !! k
            = tracked_positions
                (mkBot {[ 7%Z := Risk.mkTracked 2000 1998 ORDER_TYPE_BUY 2005 0 false ]}
                 Reversal.initial_watch 0 0) !! k)
      /\ watch b'
         = watch (mkBot {[ 7%Z := Risk.mkTracked 2000 1998 ORDER_TYPE_BUY 2005 0 false ]}
                 Reversal.initial_watch 0 0)
      /\ last_buy_entry_timestamp b'
         = last_buy_entry_timestamp
             (mkBot {[ 7%Z := Risk.mkTracked 2000 1998 ORDER_TYPE_BUY 2005 0 false ]}
                 Reversal.initial_watch 0 0)
      /\ last_sell_entry_timestamp b'
         = last_sell_entry_timestamp
             (mkBot {[ 7%Z := Risk.mkTracked 2000 1998 ORDER_TYPE_BUY 2005 0 false ]}
                 Reversal.initial_watch 0 0)
      /\ ((Some (Risk.mkPosition 7 2000 1998 2005 ORDER_TYPE_BUY (10 # 100))) = None ->
          tracked_positions b' !! 7%Z = None)
      /\ (@None Q = None -> result = Some true ->
          tracked_positions b' !! 7%Z = None)
      /\ (result <> Some true ->
          (Some (Risk.mkPosition 7 2000 1998 2005 ORDER_TYPE_BUY (10 # 100))) <> None ->
          b' = (mkBot {[ 7%Z := Risk.mkTracked 2000 1998 ORDER_TYPE_BUY 2005 0 false ]}
                 Reversal.initial_watch 0 0))
      /\ (forall p v,
            (Some (Risk.mkPosition 7 2000 1998 2005 ORDER_TYPE_BUY (10 # 100))) = Some p ->
            None = Some v ->
            volume_min Scenario.gold <= Risk.volume p - v ->
            b' = (mkBot {[ 7%Z := Risk.mkTracked 2000 1998 ORDER_TYPE_BUY 2005 0 false ]}
                 Reversal.initial_watch 0 0))
  end.
Proof.
  apply (close_position_request_and_tracking Scenario.gold
           (mkBot {[ 7%Z := Risk.mkTracked 2000 1998 ORDER_TYPE_BUY 2005 0 false ]}
                 Reversal.initial_watch 0 0)
           (Some (Risk.mkPosition 7 2000 1998 2005 ORDER_TYPE_BUY (10 # 100)))
           (Some (2001, 200110 # 100)) (retcode_done 0) 7 None
           "MAX ADVERSE EXCURSION").
  vm_compute; reflexivity.
Defined.

End VenueFacts.


(** ** Reconciliation with the venue *)

Module SyncFacts.
Import Venue Sync.

Lemma same_trade_refl (t : Risk.Tracked) : same_trade t t.
Proof. repeat split. Qed.

Lemma same_trade_trans (t1 t2 t3 : Risk.Tracked) :
  same_trade t1 t2 -> same_trade t2 t3 -> same_trade t1 t3.
Proof. unfold same_trade. intuition congruence. Qed.

(** *** The tickets that left the venue *)

Lemma process_closed_tracked (point_value : Q) (clock : Z -> Q)
    (m5_ma : option Q) (deals : list Deal) (b : Bot) (t : Z) :
  (forall k, k <> t ->
     tracked_positions (fst (process_closed point_value clock m5_ma deals b t)) !! k
     = tracked_positions b !! k)
  /\ (snd (process_closed point_value clock m5_ma deals b t) = false ->
      tracked_positions (fst (process_closed point_value clock m5_ma deals b t)) !! t
      = None).
Proof.
  unfold process_closed.
  destruct (tracked_positions b !! t) as [info|] eqn:E; [|now split].
  destruct (_ && _ && _); simpl.
  - split; [reflexivity|discriminate].
  - split; [intros k Hk; now rewrite lookup_delete_ne|].
    intros _. apply lookup_delete_eq.
Qed.

Lemma process_all_tracked (point_value : Q) (clock : Z -> Q)
    (m5_ma : option Q) (deals : Z -> list Deal) (tickets : list Z) (b : Bot) :
  (forall k, ~ In k tickets ->
     tracked_positions (fst (process_all point_value clock m5_ma deals b tickets)) !! k
     = tracked_positions b !! k)
  /\ (snd (process_all point_value clock m5_ma deals b tickets) = false ->
      forall k, In k tickets ->
        tracked_positions
          (fst (process_all point_value clock m5_ma deals b tickets)) !! k
        = None).
Proof.
  revert b. induction tickets as [|t rest IH]; intros b.
  - split; [reflexivity|]. intros _ k [].
  - cbn [process_all].
    destruct (process_closed_tracked point_value clock m5_ma (deals t) b t)
      as [Hother Hgone].
    destruct (process_closed point_value clock m5_ma (deals t) b t)
      as [b1 raised]. simpl in Hother, Hgone.
    destruct raised; simpl.
    + split; [|discriminate]. intros k Hk. apply Hother. intros ->.
      apply Hk. now left.
    + destruct (IH b1) as [IH1 IH2]. split.
      * intros k Hk. rewrite IH1 by (intros Hin; apply Hk; now right).
        apply Hother. intros ->. apply Hk. now left.
      * intros Hr k Hin. destruct (in_dec Z.eq_dec k rest) as [Hrest|Hrest].
        -- now apply IH2.
        -- destruct Hin as [->|Hin]; [|contradiction].
           rewrite IH1 by exact Hrest. now apply Hgone.
Qed.

(** *** The positions the venue lists *)

Lemma track_other (clock : Z -> Q) (b : Bot) (pos : Risk.Position) (k : Z) :
  k <> Risk.ticket pos ->
  tracked_positions (fst (track clock b pos)) !! k = tracked_positions b !! k.
Proof.
  intros Hk. unfold track.
  destruct (tracked_positions b !! Risk.ticket pos) as [t|].
  - destruct (Qeq_bool (Risk.current_sl t) (Risk.sl pos)),
             (Qeq_bool (Risk.tracked_tp t) (Risk.tp pos)); simpl;
      try reflexivity; now rewrite lookup_insert_ne.
  - simpl. now rewrite lookup_insert_ne.
Qed.

Lemma track_same (clock : Z -> Q) (b : Bot) (pos : Risk.Position) :
  exists t',
    tracked_positions (fst (track clock b pos)) !! Risk.ticket pos = Some t'
    /\ Risk.current_sl t' == Risk.sl pos
    /\ (snd (track clock b pos) = false -> Risk.tracked_tp t' == Risk.tp pos)
    /\ match tracked_positions b !! Risk.ticket pos with
       | Some t =>
           same_trade t t'
           /\ snd (track clock b pos)
              = negb (Qeq_bool (Risk.tracked_tp t) (Risk.tp pos))
       | None =>
           Risk.open_time t' = clock (Risk.ticket pos)
           /\ Risk.partial_profit_taken t' = false
       end.
Proof.
  unfold track.
  destruct (tracked_positions b !! Risk.ticket pos) as [t|] eqn:E.
  - destruct (Qeq_bool (Risk.current_sl t) (Risk.sl pos)) eqn:Es,
             (Qeq_bool (Risk.tracked_tp t) (Risk.tp pos)) eqn:Et; simpl.
    + exists t. apply Qeq_bool_iff in Es, Et.
      repeat split; auto.
    + exists t. apply Qeq_bool_iff in Es.
      repeat split; auto. discriminate.
    + exists (with_stop (Risk.sl pos) t). rewrite lookup_insert_eq.
      apply Qeq_bool_iff in Et. repeat split; auto; simpl; reflexivity.
    + exists (with_stop (Risk.sl pos) t). rewrite lookup_insert_eq.
      repeat split; auto; simpl; try reflexivity. discriminate.
  - simpl. rewrite lookup_insert_eq. eexists. split; [reflexivity|].
    simpl. repeat split; reflexivity.
Qed.

Lemma track_keeps (clock : Z -> Q) (b : Bot) (pos : Risk.Position) (k : Z)
    (t : Risk.Tracked) :
  tracked_positions b !! k = Some t ->
  exists t', tracked_positions (fst (track clock b pos)) !! k = Some t'
             /\ same_trade t t'.
Proof.
  intros Ht. destruct (decide (k = Risk.ticket pos)) as [->|Hk].
  - destruct (track_same clock b pos) as (t' & E & _ & _ & H).
    rewrite Ht in H. exists t'. tauto.
  - exists t. rewrite track_other by exact Hk. split; [exact Ht|].
    apply same_trade_refl.
Qed.

Lemma track_all_tracked (clock : Z -> Q) (positions : list Risk.Position)
    (b : Bot) :
  (forall k, ~ In k (map Risk.ticket positions) ->
     tracked_positions (fst (track_all clock b positions)) !! k
     = tracked_positions b !! k)
  /\ (forall k t, tracked_positions b !! k = Some t ->
        exists t',
          tracked_positions (fst (track_all clock b positions)) !! k = Some t'
          /\ same_trade t t')
  /\ (forall k t', tracked_positions b !! k = None ->
        tracked_positions (fst (track_all clock b positions)) !! k = Some t' ->
        Risk.open_time t' = clock k /\ Risk.partial_profit_taken t' = false)
  /\ (snd (track_all clock b positions) = false ->
      forall k, In k (map Risk.ticket positions) ->
        exists pos t',
          In pos positions /\ Risk.ticket pos = k
          /\ tracked_positions (fst (track_all clock b positions)) !! k = Some t'
          /\ Risk.current_sl t' == Risk.sl pos
          /\ Risk.tracked_tp t' == Risk.tp pos).
Proof.
  revert b. induction positions as [|pos rest IH]; intros b.
  - simpl. split; [reflexivity|]. split; [|split].
    + intros k t Ht. exists t. split; [exact Ht|apply same_trade_refl].
    + intros k t' E1 E2. congruence.
    + intros _ k [].
  - cbn [track_all map].
    pose proof (track_other clock b pos) as Hother.
    pose proof (track_same clock b pos) as Hsame.
    pose proof (track_keeps clock b pos) as Hkeeps.
    destruct (track clock b pos) as [b1 raised]. simpl in Hother, Hsame, Hkeeps.
    assert (Hnew : forall k t', tracked_positions b !! k = None ->
                     tracked_positions b1 !! k = Some t' ->
                     Risk.open_time t' = clock k
                     /\ Risk.partial_profit_taken t' = false).
    { intros k t' E1 E2. destruct (decide (k = Risk.ticket pos)) as [->|Hk].
      - destruct Hsame as (t1 & F & _ & _ & H). rewrite E1 in H.
        assert (t1 = t') as -> by congruence. exact H.
      - rewrite Hother in E2 by exact Hk. congruence. }
    destruct raised; simpl.
    + split; [|split; [|split]]; [|exact Hkeeps|exact Hnew|discriminate].
      intros k Hk. apply Hother. intros ->. apply Hk. now left.
    + destruct (IH b1) as (IH1 & IH2 & IH3 & IH4).
      split; [|split; [|split]].
      * intros k Hk. rewrite IH1 by (intros Hin; apply Hk; now right).
        apply Hother. intros ->. apply Hk. now left.
      * intros k t Ht. destruct (Hkeeps k t Ht) as (t1 & E1 & S1).
        destruct (IH2 k t1 E1) as (t2 & E2 & S2).
        exists t2. split; [exact E2|]. eapply same_trade_trans; eassumption.
      * intros k t' E1 E2.
        destruct (tracked_positions b1 !! k) as [t1|] eqn:F.
        -- destruct (Hnew k t1 E1 F) as [O P].
           destruct (IH2 k t1 F) as (t2 & E3 & S).
           assert (t2 = t') as -> by congruence.
           destruct S as (_ & _ & _ & S4 & S5). split; congruence.
        -- now apply IH3.
      * intros Hr k Hin.
        destruct (in_dec Z.eq_dec k (map Risk.ticket rest)) as [Hrest|Hrest].
        -- destruct (IH4 Hr k Hrest) as (p & t' & Hp & H).
           exists p, t'. split; [now right|exact H].
        -- destruct Hin as [<-|Hin]; [|contradiction].
           destruct Hsame as (t1 & F & Hsl & Htp & _).
           exists pos, t1. split; [now left|]. split; [reflexivity|].
           rewrite IH1 by exact Hrest. auto.
Qed.

Lemma track_all_raises (clock : Z -> Q) (pos : Risk.Position)
    (positions : list Risk.Position) (b : Bot) (t : Risk.Tracked) :
  In pos positions ->
  tracked_positions b !! Risk.ticket pos = Some t ->
  Qeq_bool (Risk.tracked_tp t) (Risk.tp pos) = false ->
  snd (track_all clock b positions) = true.
Proof.
  revert b t. induction positions as [|pos0 rest IH]; intros b t Hin Ht Hne;
    [contradiction|].
  cbn [track_all].
  pose proof (track_same clock b pos0) as Hsame.
  pose proof (track_keeps clock b pos0 _ _ Ht) as Hkeeps.
  destruct (track clock b pos0) as [b1 raised]. simpl in Hsame, Hkeeps.
  destruct raised; [reflexivity|].
  destruct Hin as [->|Hin].
  - destruct Hsame as (t1 & _ & _ & _ & H). rewrite Ht in H.
    destruct H as [_ H]. rewrite Hne in H. discriminate.
  - destruct Hkeeps as (t1 & E1 & S). apply (IH b1 t1 Hin E1).
    destruct S as (_ & _ & S3 & _). now rewrite S3.
Qed.

Lemma not_listed (positions : list Risk.Position) (k : Z) :
  existsb (Z.eqb k) (map Risk.ticket positions) = false <->
  ~ In k (map Risk.ticket positions).
Proof.
  split.
  - intros H Hin. assert (existsb (Z.eqb k) (map Risk.ticket positions) = true).
    { apply existsb_exists. exists k. split; [exact Hin|apply Z.eqb_refl]. }
    congruence.
  - intros H. destruct (existsb _ _) eqn:E; [|reflexivity].
    apply existsb_exists in E. destruct E as (x & Hx & Hk).
    apply Z.eqb_eq in Hk. subst x. contradiction.
Qed.

(** *** The whole call *)

(** A call that returns leaves [tracked_positions] as a mirror of the
    venue's list: a ticket is tracked exactly when the venue lists it,
    its stop and take-profit are those of a listed position, a ticket
    that was tracked before keeps entry price, type, opening time and
    [partial_profit_taken], and a ticket that was not starts with the
    clock reading and the flag unset.  The keys of the dictionary are
    those of [tracked_positions]. *)
Theorem sync_mirrors_venue (point_value : Q) (clock : Z -> Q)
    (m5_ma : option Q) (deals : Z -> list Deal) (key_order : list Z)
    (positions returned : list Risk.Position) (b b' : Bot) :
  (forall k, is_Some (tracked_positions b !! k) -> In k key_order) ->
  get_current_open_positions point_value clock m5_ma deals key_order
                             (Some positions) b
  = (b', Some returned) ->
  returned = positions
  /\ forall k,
       match tracked_positions b' !! k with
       | Some t' =>
           (exists pos, In pos positions /\ Risk.ticket pos = k
                        /\ Risk.current_sl t' == Risk.sl pos
                        /\ Risk.tracked_tp t' == Risk.tp pos)
           /\ match tracked_positions b !! k with
              | Some t => same_trade t t'
              | None => Risk.open_time t' = clock k
                        /\ Risk.partial_profit_taken t' = false
              end
       | None => ~ In k (map Risk.ticket positions)
       end.
Proof.
  intros Hcover. unfold get_current_open_positions.
  set (gone := List.filter _ key_order).
  pose proof (process_all_tracked point_value clock m5_ma deals gone b)
    as [P1 P2].
  destruct (process_all point_value clock m5_ma deals b gone) as [b1 r1].
  simpl in P1, P2. destruct r1; [discriminate|].
  pose proof (track_all_tracked clock positions b1) as (T1 & T2 & T3 & T4).
  destruct (track_all clock b1 positions) as [b2 r2].
  simpl in T1, T2, T3, T4. destruct r2; [discriminate|].
  intros E. injection E as <- <-. split; [reflexivity|]. intros k.
  assert (Hgone : In k gone <->
                  is_Some (tracked_positions b !! k)
                  /\ ~ In k (map Risk.ticket positions)).
  { unfold gone. rewrite List.filter_In, andb_true_iff, bool_decide_eq_true,
      negb_true_iff, not_listed. split; [tauto|].
    intros [H1 H2]. repeat split; auto. }
  destruct (in_dec Z.eq_dec k (map Risk.ticket positions)) as [Hin|Hout].
  - destruct (T4 eq_refl k Hin) as (pos & t' & Hp & Hk & E & Hsl & Htp).
    rewrite E. split; [exists pos; auto|].
    assert (Hkeep : tracked_positions b1 !! k = tracked_positions b !! k).
    { apply P1. rewrite Hgone. tauto. }
    destruct (tracked_positions b !! k) as [t|] eqn:F.
    + destruct (T2 k t Hkeep) as (t2 & E2 & S).
      assert (t2 = t') as -> by congruence. exact S.
    + now apply T3.
  - rewrite T1 by exact Hout.
    destruct (in_dec Z.eq_dec k gone) as [Hg|Hg].
    + rewrite P2 by auto. exact Hout.
    + rewrite P1 by exact Hg.
      destruct (tracked_positions b !! k) as [t|] eqn:F; [|exact Hout].
      exfalso. apply Hg, Hgone. split; [now eexists|exact Hout].
Qed.

Lemma sync_mirrors_venue_witness :
  exists b',
    get_current_open_positions (1 # 100) (fun _ => 300) (Some 2002)
      recent_deals [7; 8]%Z (Some venue_list) two_tracked
    = (b', Some venue_list)
    /\ venue_list = venue_list
    /\ forall k,
         match tracked_positions b' !! k with
         | Some t' =>
             (exists pos, In pos venue_list /\ Risk.ticket pos = k
                          /\ Risk.current_sl t' == Risk.sl pos
                          /\ Risk.tracked_tp t' == Risk.tp pos)
             /\ match tracked_positions two_tracked !! k with
                | Some t => same_trade t t'
                | None => Risk.open_time t' = (fun _ : Z => 300) k
                          /\ Risk.partial_profit_taken t' = false
                end
         | None => ~ In k (map Risk.ticket venue_list)
         end.
Proof.
  eexists. split; [vm_compute; reflexivity|].
  eapply (sync_mirrors_venue (1 # 100) (fun _ => 300) (Some 2002) recent_deals
            [7; 8]%Z venue_list venue_list two_tracked).
  - intros k [t Ht]. unfold two_tracked in Ht. simpl in Ht.
    destruct (decide (k = 7%Z)) as [->|H7]; [now left|].
    destruct (decide (k = 8%Z)) as [->|H8]; [right; now left|].
    rewrite lookup_insert_ne, lookup_insert_ne, lookup_empty in Ht
      by congruence.
    discriminate.
  - vm_compute; reflexivity.
Defined.

(** A listed position whose take-profit differs from the tracked one
    makes the call raise, every time: the tracked take-profit is still
    the old one afterwards. *)
Theorem changed_take_profit_raises (point_value : Q) (clock : Z -> Q)
    (m5_ma : option Q) (deals : Z -> list Deal) (key_order : list Z)
    (positions : list Risk.Position) (b : Bot) (pos : Risk.Position)
    (t : Risk.Tracked) :
  In pos positions ->
  tracked_positions b !! Risk.ticket pos = Some t ->
  ~ Risk.tracked_tp t == Risk.tp pos ->
  match get_current_open_positions point_value clock m5_ma deals key_order
                                   (Some positions) b with
  | (b', returned) =>
      returned = None
      /\ exists t', tracked_positions b' !! Risk.ticket pos = Some t'
                    /\ Risk.tracked_tp t' = Risk.tracked_tp t
  end.
Proof.
  intros Hin Ht Hne. apply Qeq_bool_false in Hne.
  unfold get_current_open_positions.
  set (gone := List.filter _ key_order).
  assert (Hk : ~ In (Risk.ticket pos) gone).
  { unfold gone. rewrite List.filter_In, andb_true_iff, negb_true_iff, not_listed.
    intros (_ & _ & H). apply H. now apply in_map. }
  pose proof (process_all_tracked point_value clock m5_ma deals gone b)
    as [P1 _].
  destruct (process_all point_value clock m5_ma deals b gone) as [b1 r1].
  simpl in P1. specialize (P1 _ Hk). rewrite Ht in P1.
  destruct r1; [split; [reflexivity|]; now exists t|].
  pose proof (track_all_raises clock pos positions b1 t Hin P1 Hne) as Hr.
  pose proof (track_all_tracked clock positions b1) as (_ & T2 & _).
  destruct (track_all clock b1 positions) as [b2 r2]. simpl in Hr, T2.
  subst r2. split; [reflexivity|].
  destruct (T2 _ _ P1) as (t' & E & S). exists t'. split; [exact E|].
  now destruct S as (_ & _ & S3 & _).
Qed.

Lemma changed_take_profit_raises_witness :
  match get_current_open_positions (1 # 100) (fun _ => 300) (Some 2002)
          recent_deals [7; 8]%Z (Some venue_list_moved_tp) two_tracked with
  | (b', returned) =>
      returned = None
      /\ exists t',
           tracked_positions b'
             !! Risk.ticket
                  (Risk.mkPosition 8 2010 2012 2006 ORDER_TYPE_SELL (10 # 100))
           = Some t'
           /\ Risk.tracked_tp t'
              = Risk.tracked_tp
                  (Risk.mkTracked 2010 2012 ORDER_TYPE_SELL 2005 200 true)
  end.
Proof.
  apply (changed_take_profit_raises (1 # 100) (fun _ => 300) (Some 2002)
           recent_deals [7; 8]%Z venue_list_moved_tp two_tracked
           (Risk.mkPosition 8 2010 2012 2006 ORDER_TYPE_SELL (10 # 100))
           (Risk.mkTracked 2010 2012 ORDER_TYPE_SELL 2005 200 true)).
  - now left.
  - vm_compute; reflexivity.
  - intros H. vm_compute in H. discriminate.
Defined.

End SyncFacts.
